(** * Hybrid autocomplete resolution engine: [useHybridAutocomplete]

    A shallow embedding of [src/hooks/useHybridAutocomplete.ts] and the
    properties its specification states about it.

    The hook is asynchronous JavaScript running on one cooperative thread.
    It is embedded in three layers:

    - JavaScript data: strings as sequences of UTF-16 code units, JSON
      values ([value]) with the dynamic operations the hook applies to them
      (property reads, truthiness, object spread), and exceptions;
    - the hook's code, written in a small program monad [Prog] whose
      operations are the reads and writes of the React state and refs, the
      clock, and the two suspension points [fetch] and [response.json()];
    - an interpreter [run] that executes one synchronous stretch of code up
      to the next suspension point, and on top of it a sequential driver
      ([settle]) and an event-driven scheduler ([step]) in which several
      resolutions are in flight at once.

    The environment is not constrained: an awaited promise may settle at
    any later event, with any outcome.  The debounce delay and every other
    duration are outside the model; what remains of time is the clock
    reading handed to each synchronous stretch.

    The component that renders the hook's state, [SearchBar], is embedded
    beside it: its state cells, its handlers as programs that queue state
    updates and issue commands (navigation, focus), and what its dropdown
    holds. *)

From Stdlib Require Import List ZArith NArith Lia Bool String Ascii DecimalString.
Import ListNotations.

Set Implicit Arguments.
Set Warnings "-register-all".

(** ** JavaScript strings *)

Module JsString.

(** A string is its sequence of UTF-16 code units. *)
Definition jsstring := list N.

(** Literals of the source are ASCII; [lit] turns a Rocq string into its
    code units. *)
Definition lit (s : string) : jsstring :=
  map N_of_ascii (list_ascii_of_string s).

Fixpoint eqb (a b : jsstring) : bool :=
  match a, b with
  | [], [] => true
  | x :: a', y :: b' => N.eqb x y && eqb a' b'
  | _, _ => false
  end.

Fixpoint starts_with (s p : jsstring) : bool :=
  match p with
  | [] => true
  | c :: p' =>
      match s with
      | [] => false
      | d :: s' => N.eqb c d && starts_with s' p'
      end
  end.

(** [String.prototype.includes] *)
Fixpoint includes (s p : jsstring) : bool :=
  starts_with s p ||
  match s with
  | [] => false
  | _ :: s' => includes s' p
  end.

(** White space and line terminators of ECMAScript, the characters
    [String.prototype.trim] removes. *)
Definition white_space : list N :=
  [ 9; 10; 11; 12; 13; 32; 160; 5760;
    8192; 8193; 8194; 8195; 8196; 8197; 8198; 8199; 8200; 8201; 8202;
    8232; 8233; 8239; 8287; 12288; 65279 ]%N.

Definition is_white_space (c : N) : bool := existsb (N.eqb c) white_space.

Fixpoint trimStart (s : jsstring) : jsstring :=
  match s with
  | [] => []
  | c :: s' => if is_white_space c then trimStart s' else s
  end.

Definition trimEnd (s : jsstring) : jsstring := rev (trimStart (rev s)).

(** [String.prototype.trim] *)
Definition trim (s : jsstring) : jsstring := trimEnd (trimStart s).

(** [Array.prototype.join] on strings *)
Fixpoint join (sep : jsstring) (l : list jsstring) : jsstring :=
  match l with
  | [] => []
  | [s] => s
  | s :: l' => s ++ sep ++ join sep l'
  end.

(** Decimal rendering of an integer, as a template literal renders a
    number with an integral value of magnitude below [2^53]. *)
Definition of_Z (z : Z) : jsstring := lit (NilZero.string_of_int (Z.to_int z)).

End JsString.
Import JsString.

(** ** JavaScript values and exceptions *)

(** What [JSON.parse] can produce, plus [undefined], which property reads
    and object literals of the hook introduce, plus the members of
    [Object.prototype], which a read of an object literal at an inherited
    key yields: [VNative k] is the member named [k], a built-in function,
    or [Object.prototype] itself for [__proto__].  [VNum n] is the
    Number nearest to the integer [n]. *)
Inductive value : Type :=
| VUndefined
| VNull
| VBool (b : bool)
| VNum (n : Z)
| VStr (s : jsstring)
| VArr (xs : list value)
| VObj (props : list (jsstring * value))
| VNative (member : jsstring).

(** A thrown value: what the [catch] block of [performSearch] inspects. *)
Record Exn : Type := mkExn {
  instanceof_Error : bool;
  exn_name : jsstring;
  exn_message : jsstring
}.

Definition Error (message : jsstring) : Exn := mkExn true (lit "Error") message.
Definition TypeError (message : jsstring) : Exn := mkExn true (lit "TypeError") message.
(** The rejection of an aborted [fetch]: a [DOMException] named [AbortError]. *)
Definition AbortError : Exn :=
  mkExn true (lit "AbortError") (lit "The user aborted a request.").

(** Pure computations that may throw. *)
Inductive Result (A : Type) : Type :=
| Ok (a : A)
| Raise (e : Exn).
Arguments Ok {A} a.
Arguments Raise {A} e.

Definition rbind {A B} (r : Result A) (f : A -> Result B) : Result B :=
  match r with
  | Ok a => f a
  | Raise e => Raise e
  end.

Fixpoint rmap {A B} (f : A -> Result B) (l : list A) : Result (list B) :=
  match l with
  | [] => Ok []
  | x :: l' => rbind (f x) (fun y => rbind (rmap f l') (fun ys => Ok (y :: ys)))
  end.

Fixpoint rfilter {A} (f : A -> Result bool) (l : list A) : Result (list A) :=
  match l with
  | [] => Ok []
  | x :: l' =>
      rbind (f x) (fun b =>
      rbind (rfilter f l') (fun ys => Ok (if b then x :: ys else ys)))
  end.

Module Js.

(** ToBoolean *)
Definition truthy (v : value) : bool :=
  match v with
  | VUndefined | VNull => false
  | VBool b => b
  | VNum n => negb (Z.eqb n 0)
  | VStr s => match s with [] => false | _ => true end
  | VArr _ | VObj _ | VNative _ => true
  end.

(** [a || b] *)
Definition or (a b : value) : value := if truthy a then a else b.

Definition isArray (v : value) : bool :=
  match v with VArr _ => true | _ => false end.

Fixpoint lookup (k : jsstring) (props : list (jsstring * value)) : option value :=
  match props with
  | [] => None
  | (k', v) :: ps => if eqb k' k then Some v else lookup k ps
  end.

(** Writing one property of an object: in place when the key exists,
    appended otherwise. *)
Fixpoint set (k : jsstring) (v : value) (props : list (jsstring * value))
  : list (jsstring * value) :=
  match props with
  | [] => [(k, v)]
  | (k', v') :: ps => if eqb k' k then (k, v) :: ps else (k', v') :: set k v ps
  end.

(** The message V8 gives the [TypeError] of a property read on [null] or
    [undefined] (other engines word it differently; the hook matches none
    of their wordings). *)
Definition cannot_read (what k : jsstring) : Exn :=
  TypeError (lit "Cannot read properties of " ++ what ++ lit " (reading '" ++ k ++ lit "')").

(** The names of the members of [Object.prototype], which every object
    literal inherits. *)
Definition inherited (k : jsstring) : bool :=
  existsb (eqb k)
    [ lit "constructor"; lit "__defineGetter__"; lit "__defineSetter__";
      lit "hasOwnProperty"; lit "__lookupGetter__"; lit "__lookupSetter__";
      lit "isPrototypeOf"; lit "propertyIsEnumerable"; lit "toString";
      lit "valueOf"; lit "__proto__"; lit "toLocaleString" ].

(** [obj[k]] on an object literal with the own properties [props]: the
    own property, else the inherited member, else [undefined]. *)
Definition member (k : jsstring) (props : list (jsstring * value)) : value :=
  match lookup k props with
  | Some x => x
  | None => if inherited k then VNative k else VUndefined
  end.

(** The [name] of the built-in function a member of [Object.prototype]
    is; [Object.prototype] itself has none. *)
Definition nativeName (k : jsstring) : value :=
  if eqb k (lit "__proto__") then VUndefined
  else if eqb k (lit "constructor") then VStr (lit "Object")
  else VStr k.

(** [v.k] for the property names the hook reads ([success], [data],
    [cached], [error], [type], [name], [oracle_id], ...): none of them is
    a built-in property of arrays, strings, numbers or booleans, nor of
    [Object.prototype], so of an object only its own properties answer,
    and of a built-in function only its [name]. *)
Definition get (v : value) (k : jsstring) : Result value :=
  match v with
  | VUndefined => Raise (cannot_read (lit "undefined") k)
  | VNull => Raise (cannot_read (lit "null") k)
  | VObj props => Ok (match lookup k props with Some x => x | None => VUndefined end)
  | VNative f => Ok (if eqb k (lit "name") then nativeName f else VUndefined)
  | _ => Ok VUndefined
  end.

(** [v === 'literal'] *)
Definition is_str (v : value) (s : jsstring) : bool :=
  match v with VStr s' => eqb s' s | _ => false end.

Fixpoint index_from {A} (i : nat) (l : list A) : list (jsstring * A) :=
  match l with
  | [] => []
  | x :: l' => (of_Z (Z.of_nat i), x) :: index_from (S i) l'
  end.

(** The own enumerable properties object spread [{...v}] copies. *)
Definition spread (v : value) : list (jsstring * value) :=
  match v with
  | VObj props => props
  | VArr xs => index_from 0 xs
  | VStr s => index_from 0 (map (fun c => VStr [c]) s)
  | _ => []
  end.

(** The double nearest to the integer [x >= 0], ties to the even
    significand; [2^1024] stands for [Infinity]. *)
Definition nearestDouble (x : Z) : Z :=
  if (x <? 2 ^ 53)%Z then x
  else
    let q := (Z.log2 x - 52)%Z in
    let m := (x / 2 ^ q)%Z in
    let r := (x mod 2 ^ q)%Z in
    let half := (2 ^ (q - 1))%Z in
    if (r <? half)%Z then (m * 2 ^ q)%Z
    else if (half <? r)%Z then ((m + 1) * 2 ^ q)%Z
    else if Z.even m then (m * 2 ^ q)%Z
    else ((m + 1) * 2 ^ q)%Z.

(** The Number [x = m * 2^q], with [2^52 <= m < 2^53], is the double
    nearest to the integer [v]: [v] lies within half a gap of [x], the
    ends of that range included when [m] is even.  (The range is computed
    four-fold, so that its ends are integers.) *)
Definition roundsTo (x v : Z) : bool :=
  let q := (Z.log2 x - 52)%Z in
  let m := (x / 2 ^ q)%Z in
  let below := (if m =? 2 ^ 52 then 2 ^ q else 2 ^ (q + 1))%Z in
  let above := (2 ^ (q + 1))%Z in
  let lo := (4 * x - below)%Z in
  let hi := (4 * x + above)%Z in
  if Z.even m then ((lo <=? 4 * v) && (4 * v <=? hi))%Z
  else ((lo <? 4 * v) && (4 * v <? hi))%Z.

(** The integer with the fewest significant digits that [x] is the
    nearest double to; of several, the nearest to [x].  [d] is the number
    of digits of [x], [k] the number of significant digits tried. *)
Fixpoint shortestFrom (fuel : nat) (x d k : Z) : Z :=
  match fuel with
  | O => x
  | S fuel' =>
      let unit := (10 ^ (d - k))%Z in
      let down := (x / unit * unit)%Z in
      let up := (down + unit)%Z in
      match roundsTo x down, roundsTo x up with
      | true, true =>
          if (x - down <? up - x)%Z then down
          else if (up - x <? x - down)%Z then up
          else if Z.even (x / unit) then down else up
      | true, false => down
      | false, true => up
      | false, false => shortestFrom fuel' x d (k + 1)
      end
  end.

Definition shortest (x : Z) : Z :=
  let d := Z.of_nat (List.length (of_Z x)) in
  shortestFrom (Z.to_nat d) x d 1.

Fixpoint dropZeros (digits : jsstring) : jsstring :=
  match digits with
  | [] => []
  | c :: l => if N.eqb c 48 then dropZeros l else digits
  end.

(** [Number::toString] of the Number nearest to the integer [n >= 0]:
    below [2^53] all its digits; above, the shortest digits that denote
    it, followed by zeros up to 21 digits, and in exponent notation
    beyond. *)
Definition positiveToString (n : Z) : jsstring :=
  let x := nearestDouble n in
  if (x <? 2 ^ 53)%Z then of_Z x
  else if (2 ^ 1024 <=? x)%Z then lit "Infinity"
  else
    let digits := of_Z (shortest x) in
    let n := Z.of_nat (List.length digits) in
    if (n <=? 21)%Z then digits
    else
      match rev (dropZeros (rev digits)) with
      | [] => digits
      | [c] => c :: lit "e+" ++ of_Z (n - 1)
      | c :: l => c :: lit "." ++ l ++ lit "e+" ++ of_Z (n - 1)
      end.

Definition numberToString (n : Z) : jsstring :=
  if (n <? 0)%Z then lit "-" ++ positiveToString (- n) else positiveToString n.

(** The message V8 gives the [TypeError] of a conversion that finds
    neither [toString] nor [valueOf] callable. *)
Definition cannot_convert : Exn :=
  TypeError (lit "Cannot convert object to primitive value").

(** ToString, as used when a value is a property key or a substitution
    of a template literal.  An object with an own [toString] (which,
    coming from JSON, is not a function) has no callable conversion left,
    since the inherited [valueOf] returns the object; without one it is
    [[object Object]].  An array joins the conversions of its elements.
    A built-in function prints as V8 prints it. *)
Fixpoint toString (v : value) : Result jsstring :=
  match v with
  | VUndefined => Ok (lit "undefined")
  | VNull => Ok (lit "null")
  | VBool true => Ok (lit "true")
  | VBool false => Ok (lit "false")
  | VNum n => Ok (numberToString n)
  | VStr s => Ok s
  | VArr xs =>
      rbind
        ((fix elements (l : list value) : Result (list jsstring) :=
            match l with
            | [] => Ok []
            | x :: l' =>
                rbind (match x with
                       | VUndefined | VNull => Ok []
                       | _ => toString x
                       end) (fun part =>
                rbind (elements l') (fun parts => Ok (part :: parts)))
            end) xs)
        (fun parts => Ok (join (lit ",") parts))
  | VObj props =>
      match lookup (lit "toString") props with
      | Some _ => Raise cannot_convert
      | None => Ok (lit "[object Object]")
      end
  | VNative f =>
      if eqb f (lit "__proto__") then Ok (lit "[object Object]")
      else
        match nativeName f with
        | VStr name => Ok (lit "function " ++ name ++ lit "() { [native code] }")
        | _ => Ok (lit "function () { [native code] }")
        end
  end.

End Js.

(** ** [encodeURIComponent] *)

Module Uri.

(** The characters [encodeURIComponent] leaves as they are: letters,
    digits and [- _ . ! ~ * ' ( )]. *)
Definition unreserved (c : N) : bool :=
  ((65 <=? c) && (c <=? 90) || (97 <=? c) && (c <=? 122) || (48 <=? c) && (c <=? 57) ||
   existsb (N.eqb c) [45; 95; 46; 33; 126; 42; 39; 40; 41])%N.

(** An upper-case hexadecimal digit. *)
Definition hexDigit (n : N) : N := (if n <? 10 then 48 + n else 55 + n)%N.

(** [%XX] for one octet. *)
Definition percent (octet : N) : jsstring :=
  [37; hexDigit (octet / 16); hexDigit (octet mod 16)]%N.

(** The UTF-8 octets of a code point. *)
Definition utf8 (cp : N) : list N :=
  (if cp <? 128 then [cp]
   else if cp <? 2048 then [192 + cp / 64; 128 + cp mod 64]
   else if cp <? 65536 then
     [224 + cp / 4096; 128 + (cp / 64) mod 64; 128 + cp mod 64]
   else
     [240 + cp / 262144; 128 + (cp / 4096) mod 64; 128 + (cp / 64) mod 64;
      128 + cp mod 64])%N.

Definition isLeadSurrogate (c : N) : bool := ((55296 <=? c) && (c <=? 56319))%N.
Definition isTrailSurrogate (c : N) : bool := ((56320 <=? c) && (c <=? 57343))%N.

(** The code point of a surrogate pair. *)
Definition codePoint (lead trail : N) : N :=
  (65536 + (lead - 55296) * 1024 + (trail - 56320))%N.

Definition URIError : Exn := mkExn true (lit "URIError") (lit "URI malformed").

(** [encodeURIComponent]: every code point outside the unreserved set is
    replaced by the escapes of its UTF-8 octets; a surrogate without its
    pair makes it throw. *)
Fixpoint encodeURIComponent (s : jsstring) : Result jsstring :=
  match s with
  | [] => Ok []
  | c :: s' =>
      if unreserved c then
        rbind (encodeURIComponent s') (fun r => Ok (c :: r))
      else if isTrailSurrogate c then Raise URIError
      else if isLeadSurrogate c then
        match s' with
        | d :: s'' =>
            if isTrailSurrogate d then
              rbind (encodeURIComponent s'') (fun r =>
              Ok (flat_map percent (utf8 (codePoint c d)) ++ r))
            else Raise URIError
        | [] => Raise URIError
        end
      else
        rbind (encodeURIComponent s') (fun r => Ok (flat_map percent (utf8 c) ++ r))
  end.

End Uri.

(** ** State of one hook instance *)

(** [rateLimitRef.current] *)
Record RateLimit : Type := mkRateLimit {
  blocked : bool;
  until : Z
}.

(** The five React state cells the hook returns, its refs, and the
    [AbortController]s created so far.  A controller is identified by its
    position in [controllers]; the entry is its [signal.aborted] flag. *)
Record Hook : Type := mkHook {
  results : list value;
  loading : bool;
  error : value;
  cached : value;
  translatedName : value;
  abortControllerRef : option nat;
  rateLimitRef : RateLimit;
  controllers : list bool
}.

Definition initialHook : Hook :=
  mkHook [] false VNull (VBool false) VNull None (mkRateLimit false 0) [].

Fixpoint abort_at (c : nat) (l : list bool) : list bool :=
  match l, c with
  | [], _ => []
  | _ :: l', O => true :: l'
  | b :: l', S c' => b :: abort_at c' l'
  end.

(** ** The network boundary *)

(** Modelled from the spec: the two endpoints of [searchApiConfig]
    ([config/searchApi] is not among the sources) the hook calls, as the
    specification describes their transports: the term search with its
    [term] query parameter, as escaped in the URL, and the paginated
    batch lookup with its comma-joined canonical ids, page and sort
    order. *)
Inductive Url : Type :=
| autocomplete (term : jsstring)
| searchByOracleIdsPaginated (ids : jsstring) (page : Z) (sort : jsstring).

(** An HTTP response as far as the hook looks at it.  [retry_after] is the
    server's [Retry-After] hint, which the hook never reads. *)
Record Response : Type := mkResponse {
  status : Z;
  retry_after : option Z
}.

(** [response.ok] *)
Definition ok (r : Response) : bool := (200 <=? status r)%Z && (status r <=? 299)%Z.

(** ** Programs *)

(** Operations of the hook's code.  The index is the type of the answer. *)
Inductive Eff : Type -> Type :=
| DateNow : Eff Z
| ReadRateLimit : Eff RateLimit
| WriteRateLimit (r : RateLimit) : Eff unit
| ReadAbortRef : Eff (option nat)
| WriteAbortRef (c : option nat) : Eff unit
| NewAbortController : Eff nat
| Abort (c : nat) : Eff unit
| SignalAborted (c : nat) : Eff bool
| SetResults (l : list value) : Eff unit
| SetLoading (b : bool) : Eff unit
| SetError (v : value) : Eff unit
| SetCached (v : value) : Eff unit
| SetTranslatedName (v : value) : Eff unit
| Fetch (u : Url) (signal : option nat) : Eff (Result Response)
| ResponseJson (r : Response) : Eff (Result value).

Inductive Prog (A : Type) : Type :=
| Ret (a : A)
| Throw (e : Exn)
| Vis (X : Type) (op : Eff X) (k : X -> Prog A).
Arguments Ret {A} a.
Arguments Throw {A} e.
Arguments Vis {A X} op k.

Fixpoint bind {A B} (p : Prog A) (f : A -> Prog B) : Prog B :=
  match p with
  | Ret a => f a
  | Throw e => Throw e
  | Vis op k => Vis op (fun x => bind (k x) f)
  end.

Declare Scope prog_scope.
Delimit Scope prog_scope with prog.
Bind Scope prog_scope with Prog.
Notation "x <- p ;; q" := (bind p (fun x => q))
  (at level 61, p at next level, right associativity) : prog_scope.
Notation "p ;; q" := (bind p (fun _ => q))
  (at level 61, right associativity) : prog_scope.
Local Open Scope prog_scope.

(** [try { p } catch (err) { handler err }] *)
Fixpoint try_catch {A} (p : Prog A) (handler : Exn -> Prog A) : Prog A :=
  match p with
  | Ret a => Ret a
  | Throw e => handler e
  | Vis op k => Vis op (fun x => try_catch (k x) handler)
  end.

(** [try { p } finally { fin }]: [fin] runs however [p] completes, also
    when [p] returns early. *)
Fixpoint finally {A} (p : Prog A) (fin : Prog unit) : Prog A :=
  match p with
  | Ret a => fin ;; Ret a
  | Throw e => fin ;; Throw e
  | Vis op k => Vis op (fun x => finally (k x) fin)
  end.

Definition perform {X} (op : Eff X) : Prog X := Vis op Ret.

Definition liftR {A} (r : Result A) : Prog A :=
  match r with
  | Ok a => Ret a
  | Raise e => Throw e
  end.

(** [await fetch(url, {signal})] and [await response.json()]: the awaited
    promise either fulfils or rejects. *)
Definition fetch (u : Url) (signal : option nat) : Prog Response :=
  Vis (Fetch u signal) liftR.
Definition json (r : Response) : Prog value :=
  Vis (ResponseJson r) liftR.

(** ** Running a program up to its next suspension point *)

Inductive Handled (X : Type) : Type :=
| Sync (h : Hook) (x : X)
| Suspend.
Arguments Sync {X} h x.
Arguments Suspend {X}.

(** The effect of one operation on the hook at clock reading [now].  The
    two network operations do not complete synchronously. *)
Definition handle {X} (now : Z) (op : Eff X) (h : Hook) : Handled X :=
  match op in Eff X return Handled X with
  | DateNow => Sync h now
  | ReadRateLimit => Sync h (rateLimitRef h)
  | WriteRateLimit r =>
      Sync (mkHook (results h) (loading h) (error h) (cached h) (translatedName h)
                   (abortControllerRef h) r (controllers h)) tt
  | ReadAbortRef => Sync h (abortControllerRef h)
  | WriteAbortRef c =>
      Sync (mkHook (results h) (loading h) (error h) (cached h) (translatedName h)
                   c (rateLimitRef h) (controllers h)) tt
  | NewAbortController =>
      Sync (mkHook (results h) (loading h) (error h) (cached h) (translatedName h)
                   (abortControllerRef h) (rateLimitRef h) (controllers h ++ [false]))
           (List.length (controllers h))
  | Abort c =>
      Sync (mkHook (results h) (loading h) (error h) (cached h) (translatedName h)
                   (abortControllerRef h) (rateLimitRef h) (abort_at c (controllers h))) tt
  | SignalAborted c => Sync h (nth c (controllers h) false)
  | SetResults l =>
      Sync (mkHook l (loading h) (error h) (cached h) (translatedName h)
                   (abortControllerRef h) (rateLimitRef h) (controllers h)) tt
  | SetLoading b =>
      Sync (mkHook (results h) b (error h) (cached h) (translatedName h)
                   (abortControllerRef h) (rateLimitRef h) (controllers h)) tt
  | SetError v =>
      Sync (mkHook (results h) (loading h) v (cached h) (translatedName h)
                   (abortControllerRef h) (rateLimitRef h) (controllers h)) tt
  | SetCached v =>
      Sync (mkHook (results h) (loading h) (error h) v (translatedName h)
                   (abortControllerRef h) (rateLimitRef h) (controllers h)) tt
  | SetTranslatedName v =>
      Sync (mkHook (results h) (loading h) (error h) (cached h) v
                   (abortControllerRef h) (rateLimitRef h) (controllers h)) tt
  | Fetch _ _ => Suspend
  | ResponseJson _ => Suspend
  end.

Inductive Outcome (A : Type) : Type :=
| Returned (a : A)
| Threw (e : Exn)
| Awaiting (X : Type) (op : Eff X) (k : X -> Prog A).
Arguments Returned {A} a.
Arguments Threw {A} e.
Arguments Awaiting {A X} op k.

(** One synchronous stretch: every [Date.now()] in it reads the same
    clock value [now]. *)
Fixpoint run {A} (now : Z) (p : Prog A) (h : Hook) : Hook * Outcome A :=
  match p with
  | Ret a => (h, Returned a)
  | Throw e => (h, Threw e)
  | Vis op k =>
      match handle now op h with
      | Sync h' x => run now (k x) h'
      | Suspend => (h, Awaiting op k)
      end
  end.

(** ** The canonical search client *)

Definition readRateLimit : Prog RateLimit := perform ReadRateLimit.
Definition writeRateLimit (r : RateLimit) : Prog unit := perform (WriteRateLimit r).
Definition dateNow : Prog Z := perform DateNow.

(** [Math.ceil(a / b)] for integers [a] and [b > 0]. *)
Definition ceil_div (a b : Z) : Z := (- ((- a) / b))%Z.

Definition tooManyRequests (seconds : Z) : Exn :=
  Error (lit "Troppe richieste. Attendi " ++ of_Z seconds ++ lit " secondi.").

Definition httpError (st : Z) : Exn :=
  Error (lit "HTTP error! status: " ++ of_Z st).

(** The cooldown test that opens both client operations:
    [if (rateLimitRef.current.blocked && Date.now() < rateLimitRef.current.until)]. *)
Definition rateLimitGate : Prog unit :=
  rl <- readRateLimit ;;
  now <- dateNow ;;
  if blocked rl && (now <? until rl)%Z then
    rl' <- readRateLimit ;;
    now' <- dateNow ;;
    Throw (tooManyRequests (ceil_div (until rl' - now') 1000))
  else Ret tt.

(** What both client operations do with the response of [fetch]:
    [if (!response.ok) { if (response.status === 429) {...} throw ... }]
    followed by the reset of the rate limit. *)
Definition checkResponse (response : Response) : Prog unit :=
  if negb (ok response) then
    if (status response =? 429)%Z then
      let retryAfter := 30%Z in
      now <- dateNow ;;
      writeRateLimit (mkRateLimit true (now + retryAfter * 1000)) ;;
      Throw (tooManyRequests retryAfter)
    else Throw (httpError (status response))
  else
    writeRateLimit (mkRateLimit false 0).

(** [abortControllerRef.current?.signal] *)
Definition currentSignal : Prog (option nat) := perform ReadAbortRef.

Definition fetchEnglishAutocomplete (searchTerm : jsstring) : Prog value :=
  rateLimitGate ;;
  term <- liftR (Uri.encodeURIComponent (trim searchTerm)) ;;
  signal <- currentSignal ;;
  response <- fetch (autocomplete term) signal ;;
  checkResponse response ;;
  json response.

(** [card.oracle_id && card.printing_id], the filter of the wrapped shape. *)
Definition validCard (card : value) : Result bool :=
  rbind (Js.get card (lit "oracle_id")) (fun oracle_id =>
  if Js.truthy oracle_id then
    rbind (Js.get card (lit "printing_id")) (fun printing_id =>
    Ok (Js.truthy printing_id))
  else Ok false).

(** The [Printing] built from a [Card] of the wrapped shape. *)
Definition cardToPrinting (card : value) : Result value :=
  rbind (Js.get card (lit "printing_id")) (fun printing_id =>
  rbind (Js.get card (lit "oracle_id")) (fun oracle_id =>
  rbind (Js.get card (lit "name")) (fun name =>
  rbind (Js.get card (lit "set_name")) (fun set_name =>
  rbind (Js.get card (lit "collector_number")) (fun collector_number =>
  rbind (Js.get card (lit "image_uri_small")) (fun image_uri_small =>
  rbind (Js.get card (lit "front_image_url")) (fun front_image_url =>
  rbind (Js.get card (lit "image_uri_normal")) (fun image_uri_normal =>
  Ok (VObj
    [ (lit "printing_id", printing_id);
      (lit "oracle_id", oracle_id);
      (lit "name", name);
      (lit "set_name", Js.or set_name (VStr []));
      (lit "collector_number", Js.or collector_number (VStr []));
      (lit "image_uri_small",
        Js.or image_uri_small (Js.or front_image_url (Js.or image_uri_normal VNull)))
    ]))))))))).

(** [responseData.success && responseData.data &&
     Array.isArray(responseData.data.data)]; the cards when it holds. *)
Definition wrappedCards (responseData : value) : Result (option (list value)) :=
  rbind (Js.get responseData (lit "success")) (fun success =>
  if Js.truthy success then
    rbind (Js.get responseData (lit "data")) (fun data =>
    if Js.truthy data then
      rbind (Js.get data (lit "data")) (fun inner =>
      Ok (match inner with VArr cards => Some cards | _ => None end))
    else Ok None)
  else Ok None).

(** [responseData.success && Array.isArray(responseData.data)] *)
Definition flatShape (responseData : value) : Result bool :=
  rbind (Js.get responseData (lit "success")) (fun success =>
  if Js.truthy success then
    rbind (Js.get responseData (lit "data")) (fun data => Ok (Js.isArray data))
  else Ok false).

Definition unrecognizedFormat : value :=
  VObj [ (lit "success", VBool false);
         (lit "cached", VBool false);
         (lit "error", VStr (lit "Formato risposta API non riconosciuto"));
         (lit "data", VArr []) ].

(** What [fetchByOracleIds] does with the parsed body. *)
Definition normalizeByOracleIds (responseData : value) : Result value :=
  rbind (wrappedCards responseData) (fun wrapped =>
  match wrapped with
  | Some cards =>
      rbind (rfilter validCard cards) (fun valid =>
      rbind (rmap cardToPrinting valid) (fun printings =>
      rbind (Js.get responseData (lit "cached")) (fun cached =>
      Ok (VObj [ (lit "success", VBool true);
                 (lit "cached", Js.or cached (VBool false));
                 (lit "data", VArr printings) ]))))
  | None =>
      rbind (flatShape responseData) (fun flat =>
      if flat then Ok responseData else Ok unrecognizedFormat)
  end).

Definition fetchByOracleIds (oracleIds : list jsstring) : Prog value :=
  rateLimitGate ;;
  let idsParam := join (lit ",") oracleIds in
  signal <- currentSignal ;;
  response <- fetch (searchByOracleIdsPaginated idsParam 1 (lit "relevance")) signal ;;
  checkResponse response ;;
  responseData <- json response ;;
  liftR (normalizeByOracleIds responseData).

(** ** The language context *)

(** Modelled from the spec: what [useLanguage()] of
    [contexts/LanguageContext] (not among the sources) provides.  An entry
    of the translation dictionary is [{id, name, preferred}], as the hook's
    header says and its reads of [result.item.id] and
    [result.item.preferred] require; a hit of the fuzzy index wraps one. *)
Record DictEntry : Type := mkDictEntry {
  entry_id : jsstring;
  entry_name : jsstring;
  entry_preferred : jsstring
}.

Record FuseResult : Type := mkFuseResult {
  item : DictEntry
}.

(** Modelled from the spec: the fuzzy index, consumed as a capability with
    no contract beyond its signature,
    [fuseDictionary.search(pattern, {limit})]. *)
Record Fuse : Type := mkFuse {
  search : jsstring -> Z -> list FuseResult
}.

(** Modelled from the spec: what one render of the hook closes over, the
    values of [useLanguage()] (selected language, fuzzy index, id-to-name
    table, loading flag) and the option [minLength], an integer. *)
Record Ctx : Type := mkCtx {
  selectedLang : jsstring;
  fuseDictionary : option Fuse;
  idToPreferredName : option (list (jsstring * jsstring));
  isLangLoading : bool;
  minLength : Z
}.

(** ** The resolution engine: [performSearch] *)

Definition setResults (l : list value) : Prog unit := perform (SetResults l).
Definition setLoading (b : bool) : Prog unit := perform (SetLoading b).
Definition setError (v : value) : Prog unit := perform (SetError v).
Definition setCached (v : value) : Prog unit := perform (SetCached v).
Definition setTranslatedName (v : value) : Prog unit := perform (SetTranslatedName v).

(** Case 1: [{ ...result, type: 'set' }] or [{ ...result, type: 'card' }]. *)
Definition tagCanonical (result : value) : Result value :=
  rbind (Js.get result (lit "type")) (fun type =>
  if Js.is_str type (lit "set") then
    Ok (VObj (Js.set (lit "type") (VStr (lit "set")) (Js.spread result)))
  else
    Ok (VObj (Js.set (lit "type") (VStr (lit "card")) (Js.spread result)))).

(** Fallback of case 2: cards become
    [{ ...result, originalName: result.name, type: 'card' }]. *)
Definition tagUntranslated (result : value) : Result value :=
  rbind (Js.get result (lit "type")) (fun type =>
  if Js.is_str type (lit "set") then
    Ok (VObj (Js.set (lit "type") (VStr (lit "set")) (Js.spread result)))
  else
    rbind (Js.get result (lit "name")) (fun name =>
    Ok (VObj (Js.set (lit "type") (VStr (lit "card"))
             (Js.set (lit "originalName") name (Js.spread result)))))).

(** [data.success && Array.isArray(data.data)]; the items when it holds. *)
Definition successItems (data : value) : Result (option (list value)) :=
  rbind (Js.get data (lit "success")) (fun success =>
  if Js.truthy success then
    rbind (Js.get data (lit "data")) (fun d =>
    Ok (match d with VArr xs => Some xs | _ => None end))
  else Ok None).

(** The [else] branch of every commit. *)
Definition commitFailure (data : value) : Prog unit :=
  setResults [] ;;
  setCached (VBool false) ;;
  e <- liftR (Js.get data (lit "error")) ;;
  setError (Js.or e (VStr (lit "Errore durante la ricerca"))).

(** The commit of a term search, with the tagging of its call site. *)
Definition commitTermSearch (tag : value -> Result value) (data : value) : Prog unit :=
  items <- liftR (successItems data) ;;
  match items with
  | Some xs =>
      processedResults <- liftR (rmap tag xs) ;;
      setResults processedResults ;;
      c <- liftR (Js.get data (lit "cached")) ;;
      setCached (Js.or c (VBool false)) ;;
      setError VNull ;;
      setTranslatedName VNull
  | None => commitFailure data
  end.

(** The block the hook repeats at its three term-search call sites. *)
Definition searchEnglish (tag : value -> Result value) (controller : nat)
    (searchTerm : jsstring) : Prog unit :=
  data <- fetchEnglishAutocomplete searchTerm ;;
  aborted <- perform (SignalAborted controller) ;;
  if negb aborted then commitTermSearch tag data else Ret tt.

(** [[...new Set(ids)]]: first occurrences, in order. *)
Fixpoint unique (seen ids : list jsstring) : list jsstring :=
  match ids with
  | [] => []
  | x :: ids' =>
      if existsb (eqb x) seen then unique seen ids'
      else x :: unique (x :: seen) ids'
  end.

(** [idToPreferredMap[id] = preferred] on the object literal
    [idToPreferredMap]: at [__proto__] the assignment of a string goes to
    the setter of [Object.prototype] and changes nothing; at any other
    key it writes the own property. *)
Definition assignPreferred (m : list (jsstring * value)) (r : FuseResult)
  : list (jsstring * value) :=
  if eqb (entry_id (item r)) (lit "__proto__") then m
  else Js.set (entry_id (item r)) (VStr (entry_preferred (item r))) m.

(** [idToPreferredMap], filled by [forEach]: a later hit on the same id
    overwrites an earlier one. *)
Definition buildIdToPreferredMap (fuseResults : list FuseResult)
  : list (jsstring * value) :=
  fold_left assignPreferred fuseResults [].

(** [idToPreferredMap[key]]: the key is converted to a string, which may
    throw; the read answers with the own property or, the map being an
    object literal, with the member of [Object.prototype] of that name. *)
Definition preferredOf (idToPreferredMap : list (jsstring * value)) (key : value)
  : Result value :=
  rbind (Js.toString key) (fun k => Ok (Js.member k idToPreferredMap)).

Definition notSet (result : value) : Result bool :=
  rbind (Js.get result (lit "type")) (fun type =>
  Ok (negb (Js.is_str type (lit "set")))).

(** Case 2b: the card with its translation. *)
Definition translateCard (idToPreferredMap : list (jsstring * value))
    (printing : value) : Result value :=
  rbind (Js.get printing (lit "oracle_id")) (fun oracle_id =>
  rbind (preferredOf idToPreferredMap oracle_id) (fun preferredName =>
  rbind (Js.get printing (lit "name")) (fun name =>
  Ok (VObj
       (Js.set (lit "type") (VStr (lit "card"))
       (Js.set (lit "originalName") name
       (Js.set (lit "preferredName") (Js.or preferredName VUndefined)
       (Js.set (lit "name") (Js.or preferredName name)
       (Js.spread printing))))))))).

(** [fuseResults[0]?.item?.preferred || null] *)
Definition firstPreferred (fuseResults : list FuseResult) : value :=
  match fuseResults with
  | [] => VNull
  | r :: _ => Js.or (VStr (entry_preferred (item r))) VNull
  end.

Definition commitTranslated (fuseResults : list FuseResult) (data : value) : Prog unit :=
  items <- liftR (successItems data) ;;
  match items with
  | Some xs =>
      cards <- liftR (rfilter notSet xs) ;;
      mappedResults <- liftR (rmap (translateCard (buildIdToPreferredMap fuseResults)) cards) ;;
      setResults mappedResults ;;
      c <- liftR (Js.get data (lit "cached")) ;;
      setCached (Js.or c (VBool false)) ;;
      setError VNull ;;
      setTranslatedName (firstPreferred fuseResults)
  | None => commitFailure data
  end.

(** The message the [catch] block shows for a non-abort error. *)
Definition errorMessage (err : Exn) : jsstring :=
  let m := exn_message err in
  if includes m (lit "Troppe richieste") then m
  else if includes m (lit "Failed to fetch") || includes m (lit "NetworkError") then
    lit "Errore di connessione"
  else if includes m (lit "HTTP error") then
    if includes m (lit "429") then
      lit "Troppe richieste. Attendi qualche secondo prima di riprovare."
    else lit "Errore del server: " ++ m
  else lit "Errore durante la ricerca".

(** [catch (err) { if (err instanceof Error && err.name !== 'AbortError') ... }] *)
Definition onError (err : Exn) : Prog unit :=
  if instanceof_Error err && negb (eqb (exn_name err) (lit "AbortError")) then
    setError (VStr (errorMessage err)) ;;
    setResults [] ;;
    setCached (VBool false)
  else Ret tt.

(** [finally { if (!abortControllerRef.current?.signal.aborted) setLoading(false) }] *)
Definition onSettled : Prog unit :=
  current <- perform ReadAbortRef ;;
  aborted <- match current with
             | Some c => perform (SignalAborted c)
             | None => Ret false
             end ;;
  if negb aborted then setLoading false else Ret tt.

Definition dictionaryUnavailable (ctx : Ctx) : bool :=
  isLangLoading ctx ||
  match fuseDictionary ctx with None => true | Some _ => false end ||
  match idToPreferredName ctx with
  | None => true
  | Some m => match m with [] => true | _ => false end
  end.

Definition performSearch (ctx : Ctx) (searchTerm : jsstring) : Prog unit :=
  setError VNull ;;
  setTranslatedName VNull ;;
  if (Z.of_nat (List.length (trim searchTerm)) <? minLength ctx)%Z then
    setResults [] ;;
    setLoading false ;;
    setCached (VBool false)
  else
    previous <- perform ReadAbortRef ;;
    match previous with
    | Some c => perform (Abort c)
    | None => Ret tt
    end ;;
    controller <- perform NewAbortController ;;
    perform (WriteAbortRef (Some controller)) ;;
    setLoading true ;;
    finally
      (try_catch
         (if eqb (selectedLang ctx) (lit "en") then
            searchEnglish tagCanonical controller searchTerm
          else if dictionaryUnavailable ctx then
            if isLangLoading ctx then Ret tt
            else searchEnglish tagUntranslated controller searchTerm
          else
            let fuseResults :=
              match fuseDictionary ctx with
              | Some fuse => search fuse (trim searchTerm) 10
              | None => []
              end in
            if Nat.eqb (List.length fuseResults) 0 then
              searchEnglish tagUntranslated controller searchTerm
            else
              let oracleIds := unique [] (map (fun r => entry_id (item r)) fuseResults) in
              data <- fetchByOracleIds oracleIds ;;
              aborted <- perform (SignalAborted controller) ;;
              if negb aborted then commitTranslated fuseResults data else Ret tt)
         onError)
      onSettled.

(** ** Drivers *)

(** The settlement of an awaited promise, with the clock reading at which
    the continuation runs. *)
Inductive Answer : Type :=
| FetchSettled (now : Z) (r : Result Response)
| JsonSettled (now : Z) (r : Result value).

(** Resuming a suspended program with the settlement of the promise it
    awaits; an answer of the other kind leaves it suspended. *)
Definition resume {A} (s : Hook * Outcome A) (a : Answer) : Hook * Outcome A :=
  match s with
  | (h, Awaiting op k) =>
      match op in Eff X return (X -> Prog A) -> Hook * Outcome A with
      | Fetch _ _ => fun k =>
          match a with
          | FetchSettled now r => run now (k r) h
          | _ => s
          end
      | ResponseJson _ => fun k =>
          match a with
          | JsonSettled now r => run now (k r) h
          | _ => s
          end
      | _ => fun _ => s
      end k
  | _ => s
  end.

(** One call running alone: started at [now], then resumed with each
    answer in turn. *)
Definition settle {A} (p : Prog A) (h : Hook) (now : Z) (answers : list Answer)
  : Hook * Outcome A :=
  fold_left resume answers (run now p h).

(** The request a suspended call is waiting on, if it waits on [fetch]. *)
Definition requested {A} (o : Outcome A) : option (Url * option nat) :=
  match o with
  | Awaiting op _ =>
      match op with
      | Fetch u signal => Some (u, signal)
      | _ => None
      end
  | _ => None
  end.

(** ** The query session: debounce timer, effect cleanup, calls in flight *)

(** [inflight] holds, per call of [performSearch] that reached the
    network, its suspended continuation ([None] once it has completed);
    [network] logs the requests issued; [timeoutRef] is the pending
    debounce timer with the closure it will run. *)
Record World : Type := mkWorld {
  hook : Hook;
  timeoutRef : option (Ctx * jsstring);
  inflight : list (option (Outcome unit));
  network : list (Url * option nat)
}.

Definition initialWorld : World := mkWorld initialHook None [] [].

Inductive Event : Type :=
| Render (ctx : Ctx) (term : jsstring)
| TimerFires (now : Z)
| Settles (call : nat) (a : Answer)
| Unmount.

(** The cleanup of the debounce effect: [clearTimeout] and
    [abortControllerRef.current.abort()]. *)
Definition cleanup (w : World) : World :=
  let h := hook w in
  let h' :=
    match abortControllerRef h with
    | Some c =>
        mkHook (results h) (loading h) (error h) (cached h) (translatedName h)
               (abortControllerRef h) (rateLimitRef h) (abort_at c (controllers h))
    | None => h
    end in
  mkWorld h' None (inflight w) (network w).

Definition suspended (o : Outcome unit) : option (Outcome unit) :=
  match o with
  | Awaiting _ _ => Some o
  | _ => None
  end.

Fixpoint replace {A} (i : nat) (x : A) (l : list A) : list A :=
  match l, i with
  | [], _ => []
  | _ :: l', O => x :: l'
  | y :: l', S i' => y :: replace i' x l'
  end.

Definition step (w : World) (e : Event) : World :=
  match e with
  | Render ctx term =>
      (* a changed dependency re-runs the effect: cleanup, then a new timer *)
      mkWorld (hook (cleanup w)) (Some (ctx, term)) (inflight w) (network w)
  | TimerFires now =>
      match timeoutRef w with
      | Some (ctx, term) =>
          let (h', o) := run now (performSearch ctx term) (hook w) in
          match requested o with
          | Some rq => mkWorld h' None (inflight w ++ [suspended o]) (network w ++ [rq])
          | None => mkWorld h' None (inflight w) (network w)
          end
      | None => w
      end
  | Settles call a =>
      match nth call (inflight w) None with
      | Some o =>
          let (h', o') := resume (hook w, o) a in
          mkWorld h' (timeoutRef w) (replace call (suspended o') (inflight w)) (network w)
      | None => w
      end
  | Unmount => cleanup w
  end.

Definition steps (w : World) (es : list Event) : World := fold_left step es w.

(** ** The search bar: [SearchBar] *)

Module SearchBar.

(** The four React state cells of the component. *)
Record State : Type := mkState {
  searchQuery : jsstring;
  isOpen : bool;
  activeIndex : Z;
  isLangDropdownOpen : bool
}.

Definition initialState : State := mkState [] false (-1) false.

(** What a handler does besides queueing state updates. *)
Inductive Command : Type :=
| Navigate (to : jsstring)
| PreventDefault
| Blur
| Focus
| SetSelectedLang (lang : jsstring).

(** A handler runs on the state with the updates queued so far applied
    and the commands issued so far; it may throw, and what it had done by
    then stays done. *)
Definition Handler (A : Type) : Type :=
  State * list Command -> State * list Command * Result A.

Definition hret {A} (a : A) : Handler A := fun p => (p, Ok a).

Definition hbind {A B} (m : Handler A) (f : A -> Handler B) : Handler B :=
  fun p =>
    match m p with
    | (p', Ok a) => f a p'
    | (p', Raise e) => (p', Raise e)
    end.

Declare Scope handler_scope.
Delimit Scope handler_scope with handler.
Bind Scope handler_scope with Handler.
Notation "x <- p ;; q" := (hbind p (fun x => q))
  (at level 61, p at next level, right associativity) : handler_scope.
Notation "p ;; q" := (hbind p (fun _ => q))
  (at level 61, right associativity) : handler_scope.
Local Open Scope handler_scope.

Definition update (f : State -> State) : Handler unit :=
  fun p => ((f (fst p), snd p), Ok tt).

Definition issue (c : Command) : Handler unit :=
  fun p => ((fst p, snd p ++ [c]), Ok tt).

Definition hlift {A} (r : Result A) : Handler A := fun p => (p, r).

Definition setSearchQuery (q : jsstring) : Handler unit :=
  update (fun s => mkState q (isOpen s) (activeIndex s) (isLangDropdownOpen s)).
Definition setIsOpen (b : bool) : Handler unit :=
  update (fun s => mkState (searchQuery s) b (activeIndex s) (isLangDropdownOpen s)).
(** [setActiveIndex(prev => f(prev))]; [setActiveIndex(i)] is the constant
    update. *)
Definition setActiveIndex (f : Z -> Z) : Handler unit :=
  update (fun s => mkState (searchQuery s) (isOpen s) (f (activeIndex s)) (isLangDropdownOpen s)).
Definition setIsLangDropdownOpen (b : bool) : Handler unit :=
  update (fun s => mkState (searchQuery s) (isOpen s) (activeIndex s) b).
Definition navigate (to : jsstring) : Handler unit := issue (Navigate to).

(** What one render closes over: the state cells, the values of
    [useLanguage()] and the values [useHybridAutocomplete] returned. *)
Record View : Type := mkView {
  state : State;
  language : Ctx;
  autocompleteState : Hook
}.

(** [results.slice(0, 15)] *)
Definition displayResults (v : View) : list value :=
  firstn 15 (results (autocompleteState v)).

(** [displayResults.length > 0] *)
Definition hasResults (v : View) : bool :=
  negb (Nat.eqb (List.length (displayResults v)) 0).

(** [searchQuery.length >= 2] *)
Definition queryHasTwo (v : View) : bool :=
  (2 <=? List.length (searchQuery (state v)))%nat.

(** The body of the effect on [hasResults] and [searchQuery], and of
    [handleFocus]. *)
Definition openOnResults (v : View) : Handler unit :=
  if hasResults v && queryHasTwo v then setIsOpen true else hret tt.

Definition handleFocus (v : View) : Handler unit := openOnResults v.

(** [navigate(`/search?term=${encodeURIComponent(searchTerm)}&lang=en`)] *)
Definition navigateToTerm (searchTerm : jsstring) : Handler unit :=
  term <- hlift (Uri.encodeURIComponent searchTerm) ;;
  navigate (lit "/search?term=" ++ term ++ lit "&lang=en").

Definition handleSearch (v : View) (query : option jsstring) : Handler unit :=
  let searchTerm :=
    match query with
    | Some (c :: q) => c :: q
    | _ => trim (searchQuery (state v))
    end in
  if match searchTerm with [] => true | _ => false end
     || (List.length searchTerm <? 2)%nat then hret tt
  else
    setIsOpen false ;;
    setActiveIndex (fun _ => (-1)%Z) ;;
    if JsString.eqb (selectedLang (language v)) (lit "en") then navigateToTerm searchTerm
    else
      match fuseDictionary (language v) with
      | None => navigateToTerm searchTerm
      | Some fuse =>
          let fuseResults := search fuse searchTerm 20 in
          if Nat.eqb (List.length fuseResults) 0 then navigateToTerm searchTerm
          else
            let oracleIds :=
              join (lit ",") (unique [] (map (fun r => entry_id (item r)) fuseResults)) in
            term <- hlift (Uri.encodeURIComponent searchTerm) ;;
            navigate (lit "/search?ids=" ++ oracleIds
                      ++ lit "&lang=" ++ selectedLang (language v)
                      ++ lit "&originalTerm=" ++ term)
      end.

Definition handleResultClick (result : value) : Handler unit :=
  type <- hlift (Js.get result (lit "type")) ;;
  if Js.is_str type (lit "set") then
    code <- hlift (Js.get result (lit "code")) ;;
    if Js.truthy code then
      code <- hlift (Js.get result (lit "code")) ;;
      code <- hlift (Js.toString code) ;;
      navigate (lit "/set/" ++ code) ;;
      setIsOpen false ;;
      setSearchQuery []
    else hret tt
  else
    oracle_id <- hlift (Js.get result (lit "oracle_id")) ;;
    both <- (if Js.truthy oracle_id then
               printing_id <- hlift (Js.get result (lit "printing_id")) ;;
               hret (Js.truthy printing_id)
             else hret false) ;;
    if both then
      oracle_id <- hlift (Js.get result (lit "oracle_id")) ;;
      oracle_id <- hlift (Js.toString oracle_id) ;;
      printing_id <- hlift (Js.get result (lit "printing_id")) ;;
      printing_id <- hlift (Js.toString printing_id) ;;
      navigate (lit "/card/" ++ oracle_id ++ lit "?printing_id=" ++ printing_id) ;;
      setIsOpen false ;;
      setSearchQuery []
    else
      oracle_id <- hlift (Js.get result (lit "oracle_id")) ;;
      if Js.truthy oracle_id then
        oracle_id <- hlift (Js.get result (lit "oracle_id")) ;;
        oracle_id <- hlift (Js.toString oracle_id) ;;
        navigate (lit "/card/" ++ oracle_id) ;;
        setIsOpen false ;;
        setSearchQuery []
      else hret tt.

(** [displayResults[activeIndex]] *)
Definition at_index (l : list value) (i : Z) : value :=
  if (i <? 0)%Z then VUndefined else nth (Z.to_nat i) l VUndefined.

(** [setIsOpen(false); setActiveIndex(-1); inputRef.current?.blur()] *)
Definition close : Handler unit :=
  setIsOpen false ;;
  setActiveIndex (fun _ => (-1)%Z) ;;
  issue Blur.

Definition handleKeyDown (v : View) (key : jsstring) : Handler unit :=
  let s := state v in
  if JsString.eqb key (lit "Enter") then
    issue PreventDefault ;;
    if isOpen s && (0 <=? activeIndex s)%Z
       && Js.truthy (at_index (displayResults v) (activeIndex s)) then
      handleResultClick (at_index (displayResults v) (activeIndex s))
    else handleSearch v None
  else if negb (isOpen s) || Nat.eqb (List.length (displayResults v)) 0 then
    if JsString.eqb key (lit "Escape") then close else hret tt
  else if JsString.eqb key (lit "ArrowDown") then
    issue PreventDefault ;;
    setActiveIndex (fun prev => Z.min (prev + 1) (Z.of_nat (List.length (displayResults v)) - 1))
  else if JsString.eqb key (lit "ArrowUp") then
    issue PreventDefault ;;
    setActiveIndex (fun prev => Z.max (prev - 1) (-1))
  else if JsString.eqb key (lit "Escape") then close
  else hret tt.

Definition handleClear : Handler unit :=
  setSearchQuery [] ;;
  setActiveIndex (fun _ => (-1)%Z) ;;
  setIsOpen false ;;
  issue Focus.

(** The [onClick] of a language button. *)
Definition selectLanguage (lang : jsstring) : Handler unit :=
  issue (SetSelectedLang lang) ;;
  setIsLangDropdownOpen false ;;
  setIsOpen false ;;
  setActiveIndex (fun _ => (-1)%Z).

(** [isOpen && searchQuery.length >= 2 && (loading || hasResults || error)] *)
Definition showDropdown (v : View) : bool :=
  isOpen (state v) && queryHasTwo v &&
  (loading (autocompleteState v) || hasResults v || Js.truthy (error (autocompleteState v))).

(** What the dropdown holds. *)
Inductive Panel : Type :=
| ErrorMessage (message : value)
| Searching
| Suggestions (items : list value)
| NoResults (query : jsstring).

(** The dropdown, when it is rendered:
    [error ? ... : loading ? ... : hasResults ? ... : ...]. *)
Definition dropdown (v : View) : option Panel :=
  if showDropdown v then
    Some (if Js.truthy (error (autocompleteState v)) then
            ErrorMessage (error (autocompleteState v))
          else if loading (autocompleteState v) then Searching
          else if hasResults v then Suggestions (displayResults v)
          else NoResults (searchQuery (state v)))
  else None.

(** The label of a suggestion:
    [isSet ? set?.name : (printing?.preferredName || printing?.name)]. *)
Definition rowLabel (result : value) : Result value :=
  rbind (Js.get result (lit "type")) (fun type =>
  if Js.is_str type (lit "set") then Js.get result (lit "name")
  else
    rbind (Js.get result (lit "preferredName")) (fun preferredName =>
    if Js.truthy preferredName then Js.get result (lit "preferredName")
    else Js.get result (lit "name"))).

(** [useHybridAutocomplete(searchQuery, { debounceMs: 400, minLength: 2 })]:
    what the hook closes over in this render, and the render as an event
    of the query session. *)
Definition autocompleteContext (v : View) : Ctx :=
  mkCtx (selectedLang (language v)) (fuseDictionary (language v))
        (idToPreferredName (language v)) (isLangLoading (language v)) 2.

Definition render (v : View) : Event :=
  Render (autocompleteContext v) (searchQuery (state v)).

(** A handler run from the render [v]: the state it leaves, the commands
    it issued, and how it ended. *)
Definition handled {A} (v : View) (handler : Handler A) : State * list Command * Result A :=
  handler (state v, []).

End SearchBar.

(** * Vocabulary of the properties *)

(** ** The client operations and the cooldown *)

(** The specification's names for the two operations of the search
    client, [fetchEnglishAutocomplete] and [fetchByOracleIds]. *)
Inductive ClientCall : Type :=
| SearchByTerm (term : jsstring)
| SearchByIds (ids : list jsstring).

Definition client (c : ClientCall) : Prog value :=
  match c with
  | SearchByTerm term => fetchEnglishAutocomplete term
  | SearchByIds ids => fetchByOracleIds ids
  end.

(** The request an operation builds when the rate limit lets it through;
    building the one of the term search throws when the trimmed term
    holds a surrogate without its pair. *)
Definition requestOf (c : ClientCall) : Result Url :=
  match c with
  | SearchByTerm term =>
      rbind (Uri.encodeURIComponent (trim term)) (fun escaped => Ok (autocomplete escaped))
  | SearchByIds ids =>
      Ok (searchByOracleIdsPaginated (join (lit ",") ids) 1 (lit "relevance"))
  end.

(** The cooldown is active at [now]. *)
Definition coolingDown (h : Hook) (now : Z) : bool :=
  blocked (rateLimitRef h) && (now <? until (rateLimitRef h))%Z.

(** The hook after the reset of the rate limit. *)
Definition resetRateLimit (h : Hook) : Hook :=
  mkHook (results h) (loading h) (error h) (cached h) (translatedName h)
         (abortControllerRef h) (mkRateLimit false 0) (controllers h).

(** ** Items of an answer *)

(** [null] and [undefined], the values a property read throws on. *)
Definition nullish (v : value) : bool :=
  match v with
  | VUndefined | VNull => true
  | _ => false
  end.

Definition isObject (v : value) : bool :=
  match v with
  | VObj _ => true
  | _ => false
  end.

(** The property [k] of a value that is not nullish, for the property
    names [Js.get] covers. *)
Definition prop (v : value) (k : jsstring) : value :=
  match v with
  | VObj props =>
      match Js.lookup k props with
      | Some x => x
      | None => VUndefined
      end
  | VNative f => if JsString.eqb k (lit "name") then Js.nativeName f else VUndefined
  | _ => VUndefined
  end.

(** [result.type === 'set'] *)
Definition isSetItem (r : value) : bool := Js.is_str (prop r (lit "type")) (lit "set").

(** ** Fallback to the canonical term search *)

(** The hits of the fuzzy index for a term. *)
Definition candidates (ctx : Ctx) (term : jsstring) : list FuseResult :=
  match fuseDictionary ctx with
  | Some fuse => search fuse (trim term) 10
  | None => []
  end.



(** ** Translated resolution *)

(** The canonical id of a card converts to a property key. *)
Definition keyed (p : value) : bool :=
  match Js.toString (prop p (lit "oracle_id")) with
  | Ok _ => true
  | Raise _ => false
  end.

(** What [idToPreferredMap] answers for a card whose canonical id
    converts to a key. *)
Definition entryFor (idToPreferredMap : list (jsstring * value)) (p : value) : value :=
  match preferredOf idToPreferredMap (prop p (lit "oracle_id")) with
  | Ok entry => entry
  | Raise _ => VUndefined
  end.

(** What [translateCard] makes of a card that is an object and whose
    canonical id converts to a key. *)
Definition translated (idToPreferredMap : list (jsstring * value)) (p : value) : value :=
  let preferredName := entryFor idToPreferredMap p in
  VObj (Js.set (lit "type") (VStr (lit "card"))
       (Js.set (lit "originalName") (prop p (lit "name"))
       (Js.set (lit "preferredName") (Js.or preferredName VUndefined)
       (Js.set (lit "name") (Js.or preferredName (prop p (lit "name")))
       (Js.spread p))))).



(** ** Normalization of the batch answer *)

(** A card has both its canonical id and its record id. *)
Definition hasBothIds (card : value) : bool :=
  Js.truthy (prop card (lit "oracle_id")) && Js.truthy (prop card (lit "printing_id")).

(** The first available value of an ordered preference list, [null] when
    none is available. *)
Definition firstAvailable (preference : list value) : value :=
  match filter Js.truthy preference with
  | x :: _ => x
  | [] => VNull
  end.

(** The normalized card result of a card, in the specification's words:
    the ids and the name as they are, empty strings for a missing set name
    or collector number, and as thumbnail the first available of the small
    image, the front image and the normal image. *)
Definition printingOf (card : value) : value :=
  VObj [ (lit "printing_id", prop card (lit "printing_id"));
         (lit "oracle_id", prop card (lit "oracle_id"));
         (lit "name", prop card (lit "name"));
         (lit "set_name", Js.or (prop card (lit "set_name")) (VStr []));
         (lit "collector_number", Js.or (prop card (lit "collector_number")) (VStr []));
         (lit "image_uri_small",
           firstAvailable [ prop card (lit "image_uri_small");
                            prop card (lit "front_image_url");
                            prop card (lit "image_uri_normal") ]) ].

(** ** Shape of the observable state *)

(** A non-empty result list does not come with an error. *)
Definition consistent (h : Hook) : Prop := error h = VNull \/ results h = [].

(** A program keeps the hook [consistent] across each of its synchronous
    stretches, from whatever consistent hook a stretch starts in, and
    suspends at most [n] times. *)
Fixpoint preserves (n : nat) (p : Prog unit) : Prop :=
  forall (now : Z) (h : Hook),
    consistent h ->
    consistent (fst (run now p h)) /\
    match snd (run now p h) with
    | Awaiting _ k =>
        match n with
        | O => False
        | S n' => forall x, preserves n' (k x)
        end
    | _ => True
    end.

(** A call in flight whose continuation [preserves] consistency. *)
Definition safeSlot (s : option (Outcome unit)) : Prop :=
  match s with
  | Some (Awaiting _ k) => exists n, forall x, preserves n (k x)
  | _ => True
  end.

(** The invariant of a session. *)
Definition sound (w : World) : Prop :=
  consistent (hook w) /\ Forall safeSlot (inflight w).

(** ** Supersession *)


(** The controller [abortControllerRef] points to is aborted. *)
Definition currentAborted (g : Hook) : bool :=
  match abortControllerRef g with
  | Some c => nth c (controllers g) false
  | None => false
  end.

(** ** Canonical-language results *)

(** What [tagCanonical] makes of an item that is an object. *)
Definition canonical (r : value) : value :=
  VObj (Js.set (lit "type") (VStr (if isSetItem r then lit "set" else lit "card"))
               (Js.spread r)).

(** The result [q] is the item [r] with its [type] set, and nothing else
    added or changed. *)
Definition taggedCanonical (r q : value) : Prop :=
  prop q (lit "type") = VStr (if isSetItem r then lit "set" else lit "card") /\
  forall k, JsString.eqb (lit "type") k = false -> prop q k = prop r k.

(** ** The path of a resolution *)

(** The selected language, the dictionary and its hits send the
    resolution to the term search. *)
Definition searchesByTerm (ctx : Ctx) (term : jsstring) : bool :=
  JsString.eqb (selectedLang ctx) (lit "en") ||
  negb (isLangLoading ctx) &&
  (dictionaryUnavailable ctx || Nat.eqb (List.length (candidates ctx term)) 0).

(** The last hit of the fuzzy index on the canonical id [k]. *)
Definition lastHit (k : jsstring) (fuseResults : list FuseResult) : option FuseResult :=
  find (fun r => JsString.eqb (entry_id (item r)) k) (rev fuseResults).

(** ** Invariants of a session *)

Section Invariants.

Variable P : Hook -> Prop.

(** A program keeps [P] across each of its synchronous stretches, from
    whatever hook satisfying [P] a stretch starts in, and suspends at most
    [n] times. *)
Fixpoint keeps (n : nat) (p : Prog unit) : Prop :=
  forall (now : Z) (h : Hook),
    P h ->
    P (fst (run now p h)) /\
    match snd (run now p h) with
    | Awaiting _ k =>
        match n with
        | O => False
        | S n' => forall x, keeps n' (k x)
        end
    | _ => True
    end.

(** A call in flight whose continuation keeps [P]. *)
Definition keptSlot (s : option (Outcome unit)) : Prop :=
  match s with
  | Some (Awaiting _ k) => exists n, forall x, keeps n (k x)
  | _ => True
  end.

Definition invariant (w : World) : Prop :=
  P (hook w) /\ Forall keptSlot (inflight w).

End Invariants.

(** A result is an object tagged as a card or as a set. *)
Definition wellTagged (q : value) : Prop :=
  isObject q = true /\
  (prop q (lit "type") = VStr (lit "card") \/ prop q (lit "type") = VStr (lit "set")).

Definition tagged (h : Hook) : Prop := Forall wellTagged (results h).

(** [abortControllerRef] points to a controller that exists, and every
    controller that is not aborted is that one. *)
Definition oneLive (h : Hook) : Prop :=
  (forall c, abortControllerRef h = Some c -> (c < List.length (controllers h))%nat) /\
  (forall i, (i < List.length (controllers h))%nat ->
             nth i (controllers h) false = false -> abortControllerRef h = Some i).

(** Events that start nothing new on a hook already torn down. *)
Definition afterTeardown (e : Event) : bool :=
  match e with
  | TimerFires _ | Unmount => true
  | _ => false
  end.

(** ** The search bar *)

(** A character that cannot end or start a parameter of a query string:
    an unreserved one, or the [%] of an escape. *)
Definition urlSafe (c : N) : bool := Uri.unreserved c || (c =? 37)%N.

(** Every element is a UTF-16 code unit. *)
Definition codeUnits (s : jsstring) : bool := forallb (fun c => (c <? 65536)%N) s.

(** The hits of the fuzzy index [handleSearch] works with: none in the
    canonical language or without a dictionary. *)
Definition submissionHits (v : SearchBar.View) (term : jsstring) : list FuseResult :=
  if JsString.eqb (selectedLang (SearchBar.language v)) (lit "en") then []
  else match fuseDictionary (SearchBar.language v) with
       | Some fuse => search fuse term 20
       | None => []
       end.

(** * Sample sessions and answers *)

(** The hook as a 429 received at time 100 leaves the initial one: in a
    cooldown that lasts until time 30100. *)
Definition throttledHook : Hook :=
  mkHook [] false VNull (VBool false) VNull None (mkRateLimit true 30100) [].

(** A session in the canonical language. *)
Definition english : Ctx := mkCtx (lit "en") None None false 2.

(** An Italian session whose dictionary knows one card. *)
Definition italian : Ctx :=
  mkCtx (lit "it")
        (Some (mkFuse (fun _ _ =>
           [mkFuseResult (mkDictEntry (lit "abc") (lit "Underground Sea")
                                      (lit "mare sotterraneo"))])))
        (Some [(lit "abc", lit "mare sotterraneo")])
        false 2.

(** An Italian session whose dictionary is loaded and has no hit. *)
Definition italianNoHit : Ctx :=
  mkCtx (lit "it") (Some (mkFuse (fun _ _ => [])))
        (Some [(lit "abc", lit "mare sotterraneo")]) false 2.


Definition undergroundSea : value :=
  VObj [ (lit "printing_id", VStr (lit "p1"));
         (lit "oracle_id", VStr (lit "abc"));
         (lit "name", VStr (lit "Underground Sea"));
         (lit "set_name", VStr (lit "Revised"));
         (lit "collector_number", VStr (lit "283"));
         (lit "image_uri_small", VNull) ].

(** A card of the batch endpoint without its canonical id. *)
Definition cardWithoutOracleId : value :=
  VObj [ (lit "printing_id", VStr (lit "p2"));
         (lit "name", VStr (lit "Tropical Island"));
         (lit "front_image_url", VStr (lit "front.jpg")) ].

(** A card of the batch endpoint with a front and a normal image only. *)
Definition cardWithFrontImage : value :=
  VObj [ (lit "printing_id", VStr (lit "p3"));
         (lit "oracle_id", VStr (lit "def"));
         (lit "name", VStr (lit "Volcanic Island"));
         (lit "front_image_url", VStr (lit "front.jpg"));
         (lit "image_uri_normal", VStr (lit "normal.jpg")) ].

(** Answers of the term endpoint. *)
Definition emptySuccess : value :=
  VObj [ (lit "success", VBool true); (lit "cached", VBool false); (lit "data", VArr []) ].

Definition termAnswer : value :=
  VObj [ (lit "success", VBool true); (lit "cached", VBool true);
         (lit "data", VArr [undergroundSea]) ].

(** Answers of the batch endpoint in the wrapped shape. *)
Definition batchAnswer : value :=
  VObj [ (lit "success", VBool true);
         (lit "data",
           VObj [ (lit "pagination", VObj []);
                  (lit "data", VArr [undergroundSea]) ]) ].

Definition wrappedAnswer : value :=
  VObj [ (lit "success", VBool true);
         (lit "cached", VBool true);
         (lit "data",
           VObj [ (lit "pagination", VObj [(lit "page", VNum 1)]);
                  (lit "data", VArr [undergroundSea; cardWithoutOracleId; cardWithFrontImage]) ]) ].

(** Two queries in the canonical language: the first resolution is
    suspended on its request when the term changes; the effect cleanup
    aborts its controller, and after the debounce delay the second
    resolution starts and is suspended on its own request. *)
Definition supersededSession : World :=
  steps initialWorld
        [ Render english (lit "und"); TimerFires 300;
          Render english (lit "unde"); TimerFires 700 ].

(** An Italian session whose dictionary is still loading. *)
Definition italianLoading : Ctx := mkCtx (lit "it") None None true 2.

(** An answer that reports a failure of its own. *)
Definition failedAnswer : value :=
  VObj [ (lit "success", VBool false);
         (lit "error", VStr (lit "Servizio non disponibile")) ].

(** A body of the batch endpoint in neither of its two shapes. *)
Definition shapelessBody : value :=
  VObj [ (lit "success", VBool true); (lit "data", VStr (lit "none")) ].

(** The term ['a\uD800b'], whose middle code unit is a lone surrogate. *)
Definition loneSurrogateTerm : jsstring := [97; 55296; 98]%N.

(** A card whose canonical id is the object [{"toString": 0}], and answers
    of the two endpoints that carry it. *)
Definition cardWithObjectId : value :=
  VObj [ (lit "printing_id", VStr (lit "p9"));
         (lit "oracle_id", VObj [ (lit "toString", VNum 0) ]);
         (lit "name", VStr (lit "Island")) ].


Definition objectIdBatch : value :=
  VObj [ (lit "success", VBool true);
         (lit "data", VArr [undergroundSea; cardWithObjectId]) ].

(** The hook of the first resolution once a second one has started:
    controller 0 is aborted, controller 1 is current. *)
Definition supersedingHook : Hook :=
  mkHook [undergroundSea] true VNull (VBool false) VNull (Some 1%nat)
         (mkRateLimit false 0) [true; false].

(** The hook of the first resolution right after the effect cleanup:
    its controller is aborted and still current. *)
Definition cleanedHook : Hook :=
  mkHook [undergroundSea] true VNull (VBool false) VNull (Some 0%nat)
         (mkRateLimit false 0) [true].

(** Renders of the search bar: a query of one letter between spaces; an
    Italian query; an open list of two suggestions with the second one
    highlighted. *)
Definition shortView : SearchBar.View :=
  SearchBar.mkView (SearchBar.mkState (lit " a ") false (-1) false) italian initialHook.

Definition italianView : SearchBar.View :=
  SearchBar.mkView (SearchBar.mkState (lit "mare sotterraneo ") true (-1) false)
                   italian initialHook.

Definition listView : SearchBar.View :=
  SearchBar.mkView (SearchBar.mkState (lit "island") true 1 false) english
    (mkHook [cardWithFrontImage; undergroundSea] false VNull (VBool false) VNull
            (Some 0%nat) (mkRateLimit false 0) [false]).

(** * Properties *)

(** ** Small checks of the embedding *)

Example trim_spaces : trim (lit "  ab c  ") = lit "ab c".
Proof. reflexivity. Qed.

Example trim_unicode_white_space :
  trim [9; 160; 8232; 97; 32; 98; 12288; 65279]%N = [97; 32; 98]%N.
Proof. reflexivity. Qed.

Example ceil_div_rounds_up : ceil_div 17500 1000 = 18%Z /\ ceil_div 17000 1000 = 17%Z.
Proof. split; reflexivity. Qed.

Example unique_keeps_first_occurrences :
  unique [] [lit "a"; lit "b"; lit "a"; lit "c"; lit "b"] = [lit "a"; lit "b"; lit "c"].
Proof. reflexivity. Qed.

Example errorMessage_rate_limit :
  errorMessage (tooManyRequests 30) = lit "Troppe richieste. Attendi 30 secondi.".
Proof. reflexivity. Qed.

Example errorMessage_http :
  errorMessage (httpError 500) = lit "Errore del server: HTTP error! status: 500".
Proof. reflexivity. Qed.

Example errorMessage_network :
  errorMessage (TypeError (lit "Failed to fetch")) = lit "Errore di connessione".
Proof. reflexivity. Qed.

Example idToPreferredMap_last_write_wins :
  Js.lookup (lit "a")
    (buildIdToPreferredMap
       [ mkFuseResult (mkDictEntry (lit "a") [] (lit "x"));
         mkFuseResult (mkDictEntry (lit "a") [] (lit "y")) ])
  = Some (VStr (lit "y")).
Proof. reflexivity. Qed.

Example idToPreferredMap_ignores_proto :
  buildIdToPreferredMap [ mkFuseResult (mkDictEntry (lit "__proto__") [] (lit "x")) ] = [].
Proof. reflexivity. Qed.

Example idToPreferredMap_inherited_member :
  preferredOf [] (VStr (lit "constructor")) = Ok (VNative (lit "constructor")) /\
  preferredOf [] (VStr (lit "__proto__")) = Ok (VNative (lit "__proto__")) /\
  preferredOf [] (VStr (lit "abc")) = Ok VUndefined /\
  preferredOf [] (VObj [ (lit "toString", VNum 0) ]) = Raise Js.cannot_convert /\
  preferredOf [ (lit "[object Object]", VStr (lit "x")) ] (VObj []) = Ok (VStr (lit "x")).
Proof. repeat split. Qed.

Example encodeURIComponent_samples :
  Uri.encodeURIComponent (lit "mare sotterraneo") = Ok (lit "mare%20sotterraneo") /\
  Uri.encodeURIComponent (lit "a&b=c/d?e#f") = Ok (lit "a%26b%3Dc%2Fd%3Fe%23f") /\
  Uri.encodeURIComponent [233]%N = Ok (lit "%C3%A9") /\
  Uri.encodeURIComponent [8364]%N = Ok (lit "%E2%82%AC") /\
  Uri.encodeURIComponent [55357; 56832]%N = Ok (lit "%F0%9F%98%80") /\
  Uri.encodeURIComponent [97; 55296; 98]%N = Raise Uri.URIError /\
  Uri.encodeURIComponent [56832]%N = Raise Uri.URIError.
Proof. repeat split. Qed.

Example toString_numbers :
  Js.toString (VNum 0) = Ok (lit "0") /\
  Js.toString (VNum (-42)) = Ok (lit "-42") /\
  Js.toString (VNum (2 ^ 53)) = Ok (lit "9007199254740992") /\
  Js.toString (VNum (2 ^ 53 + 1)) = Ok (lit "9007199254740992") /\
  Js.toString (VNum (2 ^ 64)) = Ok (lit "18446744073709552000") /\
  Js.toString (VNum (10 ^ 21 - 1)) = Ok (lit "1e+21") /\
  Js.toString (VNum (10 ^ 21)) = Ok (lit "1e+21") /\
  Js.toString (VNum (2 ^ 70)) = Ok (lit "1.1805916207174113e+21") /\
  Js.toString (VNum (- 2 ^ 100)) = Ok (lit "-1.2676506002282294e+30") /\
  Js.toString (VNum (10 ^ 400)) = Ok (lit "Infinity").
Proof. vm_compute. repeat split. Qed.

Example toString_values :
  Js.toString VNull = Ok (lit "null") /\
  Js.toString (VBool true) = Ok (lit "true") /\
  Js.toString (VObj [ (lit "a", VNum 1) ]) = Ok (lit "[object Object]") /\
  Js.toString (VObj [ (lit "toString", VNum 0) ]) = Raise Js.cannot_convert /\
  Js.toString (VArr [ VNum 1; VNull; VArr [ VStr (lit "a"); VStr (lit "b") ] ])
    = Ok (lit "1,,a,b") /\
  Js.toString (VArr [ VObj [ (lit "toString", VNull) ] ]) = Raise Js.cannot_convert.
Proof. vm_compute. repeat split. Qed.

(** A dictionary that is still loading suspends the resolution: no
    request, no result, [loading] back to false. *)
Example loading_dictionary_suspends :
  run 0 (performSearch (mkCtx (lit "it") None None true 2) (lit "zz")) initialHook =
  (mkHook [] false VNull (VBool false) VNull (Some 0%nat) (mkRateLimit false 0) [false],
   Returned tt).
Proof. reflexivity. Qed.

(** ** JavaScript strings *)

Lemma jsstring_eqb_refl (a : jsstring) : JsString.eqb a a = true.
Proof.
  induction a as [|x a IH]; simpl; [reflexivity|].
  now rewrite N.eqb_refl, IH.
Qed.

Lemma jsstring_eqb_eq (a b : jsstring) : JsString.eqb a b = true <-> a = b.
Proof.
  split.
  - revert b; induction a as [|x a IH]; intros [|y b]; simpl; try discriminate; auto.
    intros H. apply andb_true_iff in H as [Hx Hab].
    apply N.eqb_eq in Hx. f_equal; auto.
  - intros ->. apply jsstring_eqb_refl.
Qed.

Arguments trim : simpl never.
Arguments join : simpl never.
Arguments of_Z : simpl never.
Arguments lit : simpl never.
Arguments includes : simpl never.
Arguments JsString.eqb : simpl never.

(** ** Generic facts about programs and controllers *)

Lemma nth_fresh (l : list bool) (d : bool) : nth (List.length l) (l ++ [false]) d = false.
Proof.
  induction l as [|b l IH]; simpl; auto.
Qed.

Lemma abort_at_length (c : nat) (l : list bool) :
  List.length (abort_at c l) = List.length l.
Proof.
  revert c; induction l as [|b l IH]; intros [|c]; simpl; auto.
Qed.

(** [Math.ceil] of the remaining milliseconds, in seconds. *)
Lemma ceil_div_remaining (d : Z) :
  (0 < d <= 30000)%Z -> (1 <= ceil_div d 1000 <= 30)%Z.
Proof.
  intros Hd. unfold ceil_div.
  pose proof (Z.div_mod (- d) 1000 ltac:(lia)) as Hdm.
  pose proof (Z.mod_pos_bound (- d) 1000 ltac:(lia)) as Hb.
  lia.
Qed.

(** ** The two client operations *)

Lemma client_rejected (c : ClientCall) (h : Hook) (now : Z) :
  coolingDown h now = true ->
  run now (client c) h =
  (h, Threw (tooManyRequests (ceil_div (until (rateLimitRef h) - now) 1000))).
Proof.
  unfold coolingDown. intros H.
  destruct c; unfold client, fetchEnglishAutocomplete, fetchByOracleIds, rateLimitGate;
    cbn; rewrite H; reflexivity.
Qed.

(** The escaped term of a term search whose request is [request]. *)
Lemma requestOf_term (term : jsstring) (request : Url) :
  requestOf (SearchByTerm term) = Ok request ->
  exists escaped,
    Uri.encodeURIComponent (trim term) = Ok escaped /\ request = autocomplete escaped.
Proof.
  unfold requestOf. destruct (Uri.encodeURIComponent (trim term)) as [escaped|e]; cbn;
    [|discriminate].
  intros [= <-]. now exists escaped.
Qed.

(** Splits on the operation; for the term search, puts the escaped term
    of the request [Hrequest] speaks of into the goal. *)
Ltac by_operation c Hrequest :=
  destruct c as [term|ids];
  [ let escaped := fresh "escaped" in
    let Hescaped := fresh "Hescaped" in
    destruct (requestOf_term term Hrequest) as [escaped [Hescaped ->]];
    unfold client, fetchEnglishAutocomplete, rateLimitGate
  | injection Hrequest as <-;
    unfold client, fetchByOracleIds, rateLimitGate ].

Lemma client_proceeds (c : ClientCall) (h : Hook) (now : Z) (request : Url) :
  coolingDown h now = false ->
  requestOf c = Ok request ->
  exists k, run now (client c) h = (h, Awaiting (Fetch request (abortControllerRef h)) k).
Proof.
  unfold coolingDown. intros H Hrequest.
  by_operation c Hrequest; cbn; rewrite H; cbn; rewrite ?Hescaped; cbn;
    eexists; reflexivity.
Qed.

(** A term that cannot be escaped makes the term search throw before it
    issues a request. *)
Lemma client_malformed (c : ClientCall) (h : Hook) (now : Z) (e : Exn) :
  coolingDown h now = false ->
  requestOf c = Raise e ->
  run now (client c) h = (h, Threw e).
Proof.
  unfold coolingDown. intros H Hrequest.
  destruct c as [term|ids]; [|discriminate].
  unfold requestOf in Hrequest.
  unfold client, fetchEnglishAutocomplete, rateLimitGate. cbn. rewrite H. cbn.
  destruct (Uri.encodeURIComponent (trim term)) as [escaped|e']; cbn in *; [discriminate|].
  now injection Hrequest as ->.
Qed.

(** C10: a call rejected by the active cooldown ([blocked] and
    [now < until]) throws before it writes anything: the hook, and with it
    the rate-limit state, is exactly what it was, for both client
    operations, and no request is issued. *)
Theorem cooldown_rejection_leaves_rate_limit (c : ClientCall) (h : Hook) (now : Z) :
  blocked (rateLimitRef h) = true ->
  (now < until (rateLimitRef h))%Z ->
  run now (client c) h =
    (h, Threw (tooManyRequests (ceil_div (until (rateLimitRef h) - now) 1000))) /\
  rateLimitRef (fst (run now (client c) h)) = rateLimitRef h /\
  requested (snd (run now (client c) h)) = None.
Proof.
  intros Hb Hlt.
  assert (Hc : coolingDown h now = true).
  { unfold coolingDown. rewrite Hb. simpl. now apply Z.ltb_lt. }
  rewrite (client_rejected c h now Hc). repeat split.
Qed.

Lemma cooldown_rejection_leaves_rate_limit_witness :
  blocked (rateLimitRef throttledHook) = true /\
  (12500 < until (rateLimitRef throttledHook))%Z /\
  run 12500 (client (SearchByIds [lit "abc"])) throttledHook =
    (throttledHook, Threw (tooManyRequests 18)) /\
  rateLimitRef (fst (run 12500 (client (SearchByIds [lit "abc"])) throttledHook))
    = rateLimitRef throttledHook /\
  requested (snd (run 12500 (client (SearchByIds [lit "abc"])) throttledHook)) = None.
Proof.
  split; [reflexivity|]. split; [reflexivity|].
  apply (@cooldown_rejection_leaves_rate_limit (SearchByIds [lit "abc"]) throttledHook 12500);
    reflexivity.
Defined.

(** What a client operation does with the response of its request. *)
Lemma client_throttled (c : ClientCall) (h : Hook) (t0 t1 : Z) (resp : Response)
    (request : Url) :
  coolingDown h t0 = false ->
  requestOf c = Ok request ->
  status resp = 429%Z ->
  settle (client c) h t0 [FetchSettled t1 (Ok resp)] =
  (mkHook (results h) (loading h) (error h) (cached h) (translatedName h)
          (abortControllerRef h) (mkRateLimit true (t1 + 30000)) (controllers h),
   Threw (tooManyRequests 30)).
Proof.
  unfold coolingDown, settle. intros Hgate Hrequest Hst.
  by_operation c Hrequest; cbn; rewrite Hgate; cbn; rewrite ?Hescaped; cbn;
    unfold checkResponse, ok; rewrite Hst; cbn; reflexivity.
Qed.

Lemma client_http_error (c : ClientCall) (h : Hook) (t0 t1 : Z) (resp : Response)
    (request : Url) :
  coolingDown h t0 = false ->
  requestOf c = Ok request ->
  ok resp = false ->
  status resp <> 429%Z ->
  settle (client c) h t0 [FetchSettled t1 (Ok resp)] = (h, Threw (httpError (status resp))).
Proof.
  unfold coolingDown, settle. intros Hgate Hrequest Hok Hst.
  apply Z.eqb_neq in Hst.
  by_operation c Hrequest; cbn; rewrite Hgate; cbn; rewrite ?Hescaped; cbn;
    unfold checkResponse; rewrite Hok, Hst; cbn; reflexivity.
Qed.

Lemma client_success (c : ClientCall) (h : Hook) (t0 t1 : Z) (resp : Response)
    (request : Url) :
  coolingDown h t0 = false ->
  requestOf c = Ok request ->
  ok resp = true ->
  exists k,
    settle (client c) h t0 [FetchSettled t1 (Ok resp)] =
    (mkHook (results h) (loading h) (error h) (cached h) (translatedName h)
            (abortControllerRef h) (mkRateLimit false 0) (controllers h),
     Awaiting (ResponseJson resp) k).
Proof.
  unfold coolingDown, settle. intros Hgate Hrequest Hok.
  by_operation c Hrequest; cbn; rewrite Hgate; cbn; rewrite ?Hescaped; cbn;
    unfold checkResponse; rewrite Hok; cbn; eexists; reflexivity.
Qed.

(** C4: a 429 response received at [t1], to a call whose request could be
    built, sets the cooldown to end at [t1 + 30000] whatever
    [Retry-After] the response carries.  As long as the rate-limit state
    stays as that response left it, a call of either client operation at
    a time [now < t1 + 30000] throws the rate-limit error with the
    remaining seconds, rounded up, and issues no request (the program
    ends in [Threw], the hook is untouched); from [now >= t1 + 30000] on,
    the call is no longer held back: it issues its request, or, when its
    term cannot be escaped, throws the error of the escaping. *)
Theorem fixed_cooldown_after_throttle
    (first next : ClientCall) (h h' : Hook) (t0 t1 now : Z) (resp : Response)
    (request : Url) :
  coolingDown h t0 = false ->
  requestOf first = Ok request ->
  status resp = 429%Z ->
  let throttled := settle (client first) h t0 [FetchSettled t1 (Ok resp)] in
  rateLimitRef h' = rateLimitRef (fst throttled) ->
  snd throttled = Threw (tooManyRequests 30) /\
  rateLimitRef (fst throttled) = mkRateLimit true (t1 + 30000) /\
  if (now <? t1 + 30000)%Z then
    run now (client next) h' =
      (h', Threw (tooManyRequests (ceil_div (t1 + 30000 - now) 1000))) /\
    requested (snd (run now (client next) h')) = None
  else
    match requestOf next with
    | Ok issued =>
        exists k,
          run now (client next) h' =
            (h', Awaiting (Fetch issued (abortControllerRef h')) k)
    | Raise e => run now (client next) h' = (h', Threw e)
    end.
Proof.
  intros Hgate Hrequest Hst throttled. subst throttled.
  rewrite (client_throttled first h t0 t1 resp Hgate Hrequest Hst).
  cbn [fst snd rateLimitRef].
  intros Hrl.
  split; [reflexivity|]. split; [reflexivity|].
  destruct (now <? t1 + 30000)%Z eqn:Hnow.
  - assert (Hc : coolingDown h' now = true).
    { unfold coolingDown. rewrite Hrl. cbn. exact Hnow. }
    rewrite (client_rejected next h' now Hc), Hrl. cbn. split; reflexivity.
  - assert (Hc : coolingDown h' now = false).
    { unfold coolingDown. rewrite Hrl. cbn. exact Hnow. }
    destruct (requestOf next) as [issued|e] eqn:Hnext.
    + exact (client_proceeds next h' now Hc Hnext).
    + exact (client_malformed next h' now Hc Hnext).
Qed.

Lemma fixed_cooldown_after_throttle_witness :
  coolingDown initialHook 0 = false /\
  requestOf (SearchByTerm (lit "zz")) = Ok (autocomplete (lit "zz")) /\
  status (mkResponse 429 (Some 5%Z)) = 429%Z /\
  let throttled :=
    settle (client (SearchByTerm (lit "zz"))) initialHook 0
           [FetchSettled 100 (Ok (mkResponse 429 (Some 5%Z)))] in
  rateLimitRef throttledHook = rateLimitRef (fst throttled) /\
  snd throttled = Threw (tooManyRequests 30) /\
  rateLimitRef (fst throttled) = mkRateLimit true (100 + 30000) /\
  run 12500 (client (SearchByIds [lit "abc"])) throttledHook =
    (throttledHook, Threw (tooManyRequests 18)) /\
  requested (snd (run 12500 (client (SearchByIds [lit "abc"])) throttledHook)) = None.
Proof.
  split; [reflexivity|]. split; [reflexivity|]. split; [reflexivity|].
  split; [reflexivity|].
  apply (@fixed_cooldown_after_throttle (SearchByTerm (lit "zz")) (SearchByIds [lit "abc"])
           initialHook throttledHook 0 100 12500 (mkResponse 429 (Some 5%Z))
           (autocomplete (lit "zz")));
    reflexivity.
Defined.

(** C3, as stated, fails: a call made at time 40000, after the cooldown
    has run out, and answered with status 500 leaves [rateLimitRef] at
    [{blocked: true, until: 30100}]; neither client operation resets it. *)
Lemma http_error_does_not_reset_rate_limit :
  let resp := mkResponse 500 None in
  status resp <> 429%Z /\
  rateLimitRef (fst (settle (client (SearchByTerm (lit "zz"))) throttledHook 40000
                            [FetchSettled 40100 (Ok resp)])) = mkRateLimit true 30100 /\
  rateLimitRef (fst (settle (client (SearchByTerm (lit "zz"))) throttledHook 40000
                            [FetchSettled 40100 (Ok resp)])) <> mkRateLimit false 0 /\
  rateLimitRef (fst (settle (client (SearchByIds [lit "abc"])) throttledHook 40000
                            [FetchSettled 40100 (Ok resp)])) <> mkRateLimit false 0.
Proof.
  vm_compute. repeat split; discriminate.
Qed.

(** C3, amended: for a call whose request could be built (a term search
    throws before it when its term cannot be escaped, and then gets no
    response), the reset to [{blocked: false, until: 0}] follows a
    successful response ([response.ok], status 200 to 299) in both client
    operations, which then go on to read the body; a response that is not
    [ok] and not 429 makes the call throw the HTTP error and leaves the
    rate-limit state as it was. *)
Theorem rate_limit_reset_on_ok_response
    (c : ClientCall) (h : Hook) (t0 t1 : Z) (resp : Response) (request : Url) :
  coolingDown h t0 = false ->
  requestOf c = Ok request ->
  status resp <> 429%Z ->
  let answered := settle (client c) h t0 [FetchSettled t1 (Ok resp)] in
  if ok resp then
    rateLimitRef (fst answered) = mkRateLimit false 0 /\
    exists k, snd answered = Awaiting (ResponseJson resp) k
  else
    answered = (h, Threw (httpError (status resp))) /\
    rateLimitRef (fst answered) = rateLimitRef h.
Proof.
  intros Hgate Hrequest Hst answered. subst answered.
  destruct (ok resp) eqn:Hok.
  - destruct (client_success c h t0 t1 resp Hgate Hrequest Hok) as [k ->].
    cbn. split; [reflexivity|]. eexists; reflexivity.
  - rewrite (client_http_error c h t0 t1 resp Hgate Hrequest Hok Hst).
    split; reflexivity.
Qed.

Lemma rate_limit_reset_on_ok_response_witness :
  coolingDown throttledHook 40000 = false /\
  requestOf (SearchByTerm (lit " mare sotterraneo"))
    = Ok (autocomplete (lit "mare%20sotterraneo")) /\
  status (mkResponse 200 None) <> 429%Z /\
  let answered :=
    settle (client (SearchByTerm (lit " mare sotterraneo"))) throttledHook 40000
           [FetchSettled 40100 (Ok (mkResponse 200 None))] in
  rateLimitRef (fst answered) = mkRateLimit false 0 /\
  exists k, snd answered = Awaiting (ResponseJson (mkResponse 200 None)) k.
Proof.
  split; [reflexivity|]. split; [reflexivity|]. split; [discriminate|].
  apply (@rate_limit_reset_on_ok_response (SearchByTerm (lit " mare sotterraneo"))
           throttledHook 40000 40100 (mkResponse 200 None)
           (autocomplete (lit "mare%20sotterraneo"))); [reflexivity|reflexivity|discriminate].
Defined.

(** ** The resolution engine *)

(** C5: when the trimmed term is shorter than [minLength], [performSearch]
    runs to completion in one synchronous stretch: it never reaches a
    suspension point, so it issues no request; it leaves the result list
    empty, the error and the translated name null, and loading and cached
    false, and touches neither the controllers nor the rate limit.  Fired
    by the debounce timer, it adds nothing to the requests of the session. *)
Theorem short_term_resolves_empty (ctx : Ctx) (term : jsstring) (w : World) (now : Z) :
  (Z.of_nat (List.length (trim term)) < minLength ctx)%Z ->
  timeoutRef w = Some (ctx, term) ->
  let h := hook w in
  let settled :=
    mkHook [] false VNull (VBool false) VNull
           (abortControllerRef h) (rateLimitRef h) (controllers h) in
  run now (performSearch ctx term) h = (settled, Returned tt) /\
  step w (TimerFires now) = mkWorld settled None (inflight w) (network w).
Proof.
  intros Hshort Ht h settled. apply Z.ltb_lt in Hshort.
  assert (Hrun : run now (performSearch ctx term) h = (settled, Returned tt)).
  { unfold performSearch. cbn. rewrite Hshort. reflexivity. }
  split; [exact Hrun|].
  unfold step. rewrite Ht. fold h. rewrite Hrun. reflexivity.
Qed.

Lemma short_term_resolves_empty_witness :
  let w := mkWorld throttledHook (Some (italian, lit " s  ")) [] [] in
  (Z.of_nat (List.length (trim (lit " s  "))) < minLength italian)%Z /\
  timeoutRef w = Some (italian, lit " s  ") /\
  run 0 (performSearch italian (lit " s  ")) throttledHook =
    (mkHook [] false VNull (VBool false) VNull None (mkRateLimit true 30100) [],
     Returned tt) /\
  step w (TimerFires 0) =
    mkWorld (mkHook [] false VNull (VBool false) VNull None (mkRateLimit true 30100) [])
            None [] [].
Proof.
  split; [reflexivity|]. split; [reflexivity|].
  apply (@short_term_resolves_empty italian (lit " s  ")
           (mkWorld throttledHook (Some (italian, lit " s  ")) [] []) 0); reflexivity.
Defined.

(** *** Symbolic execution of a resolution *)

Arguments rmap : simpl never.
Arguments rfilter : simpl never.
Arguments successItems : simpl never.
Arguments normalizeByOracleIds : simpl never.
Arguments errorMessage : simpl never.
Arguments Js.get : simpl never.
Arguments Js.or : simpl never.
Arguments unique : simpl never.
Arguments ok : simpl never.
Arguments buildIdToPreferredMap : simpl never.
Arguments firstPreferred : simpl never.

(** Splits on the test a stuck program is waiting for. *)
Ltac split_any :=
  match goal with
  | |- context [liftR ?x] => destruct x eqn:?
  | |- context [if ?b then _ else _] =>
      lazymatch b with
      | context [run] => fail
      | context [resume] => fail
      | _ => destruct b eqn:?
      end
  | |- context [match ?x with _ => _ end] =>
      lazymatch x with
      | context [run] => fail
      | context [resume] => fail
      | context [handle] => fail
      | _ => destruct x eqn:?
      end
  end.

Ltac unfold_engine :=
  unfold settle, performSearch, searchEnglish, fetchEnglishAutocomplete,
    fetchByOracleIds, rateLimitGate, checkResponse, commitTranslated,
    commitTermSearch, commitFailure, onError, onSettled.

Lemma or_not_null (e d : value) : d <> VNull -> Js.or e d <> VNull.
Proof.
  intros Hd. unfold Js.or. destruct (Js.truthy e) eqn:He; auto.
  intros ->. discriminate.
Qed.

(** *** Reading result items *)

Lemma get_defined (v : value) (k : jsstring) :
  nullish v = false -> Js.get v k = Ok (prop v k).
Proof.
  destruct v; simpl; intros H; try discriminate; reflexivity.
Qed.

Lemma lookup_set_same (k : jsstring) (v : value) (ps : list (jsstring * value)) :
  Js.lookup k (Js.set k v ps) = Some v.
Proof.
  induction ps as [|[k' v'] ps IH]; simpl.
  - now rewrite jsstring_eqb_refl.
  - destruct (JsString.eqb k' k) eqn:E; simpl.
    + now rewrite jsstring_eqb_refl.
    + now rewrite E.
Qed.

Lemma lookup_set_other (k k' : jsstring) (v : value) (ps : list (jsstring * value)) :
  JsString.eqb k' k = false ->
  Js.lookup k (Js.set k' v ps) = Js.lookup k ps.
Proof.
  intros Hne. induction ps as [|[k0 v0] ps IH]; simpl.
  - now rewrite Hne.
  - destruct (JsString.eqb k0 k') eqn:E; simpl.
    + apply jsstring_eqb_eq in E. subst k0. now rewrite Hne.
    + destruct (JsString.eqb k0 k); auto.
Qed.

Lemma rmap_defined {A B} (f : A -> Result B) (g : A -> B) (l : list A) :
  Forall (fun x => f x = Ok (g x)) l -> rmap f l = Ok (map g l).
Proof.
  induction 1 as [|x l Hx _ IH]; [reflexivity|].
  change (rmap f (x :: l))
    with (rbind (f x) (fun y => rbind (rmap f l) (fun ys => Ok (y :: ys)))).
  rewrite Hx, IH. reflexivity.
Qed.

Lemma rfilter_defined {A} (f : A -> Result bool) (g : A -> bool) (l : list A) :
  Forall (fun x => f x = Ok (g x)) l -> rfilter f l = Ok (filter g l).
Proof.
  induction 1 as [|x l Hx _ IH]; [reflexivity|].
  change (rfilter f (x :: l))
    with (rbind (f x) (fun b =>
          rbind (rfilter f l) (fun ys => Ok (if b then x :: ys else ys)))).
  rewrite Hx, IH. reflexivity.
Qed.

Lemma forallb_filter {A} (p q : A -> bool) (l : list A) :
  forallb p l = true -> forallb p (filter q l) = true.
Proof.
  induction l as [|x l IH]; simpl; auto.
  intros H. apply andb_true_iff in H as [Hx Hl].
  destruct (q x); simpl; auto. now rewrite Hx, IH.
Qed.

Lemma isObject_defined (v : value) : isObject v = true -> nullish v = false.
Proof.
  destruct v; simpl; intros H; try discriminate; reflexivity.
Qed.

Lemma Forall_objects (P : value -> Prop) (l : list value) :
  (forall v, isObject v = true -> P v) ->
  forallb isObject l = true -> Forall P l.
Proof.
  intros HP. induction l as [|v l IH]; simpl; intros H; constructor.
  - apply HP. now apply andb_true_iff in H as [H _].
  - apply IH. now apply andb_true_iff in H as [_ H].
Qed.

Lemma successItems_defined (data : value) (items : option (list value)) :
  successItems data = Ok items -> nullish data = false.
Proof.
  destruct data; simpl; intros H; try discriminate; reflexivity.
Qed.

(** *** Fallback to the canonical term search *)



Lemma Forall2_map_r {A B} (P : A -> B -> Prop) (g : A -> B) (l : list A) :
  Forall (fun x => P x (g x)) l -> Forall2 P l (map g l).
Proof.
  induction 1; simpl; constructor; auto.
Qed.



(** *** Translated resolution *)

Lemma notSet_defined (r : value) :
  isObject r = true -> notSet r = Ok (negb (isSetItem r)).
Proof.
  intros Hobj. unfold notSet, isSetItem.
  rewrite (get_defined r _ (isObject_defined r Hobj)). reflexivity.
Qed.

Lemma translateCard_defined (m : list (jsstring * value)) (p : value) :
  isObject p = true -> keyed p = true -> translateCard m p = Ok (translated m p).
Proof.
  intros Hobj Hkey. unfold translateCard, translated, entryFor.
  rewrite !(get_defined p _ (isObject_defined p Hobj)). cbn [rbind].
  unfold keyed in Hkey. unfold preferredOf.
  destruct (Js.toString (prop p (lit "oracle_id"))); [reflexivity|discriminate].
Qed.

(** The one way a conversion to a string throws. *)
Lemma toString_raises (v : value) (e : Exn) :
  Js.toString v = Raise e -> e = Js.cannot_convert.
Proof.
  revert v e. fix IH 1. intros [| |[|]|n|s|xs|props|f] e; cbn [Js.toString];
    try discriminate.
  - assert (Hparts : forall e',
      (fix elements (l : list value) : Result (list jsstring) :=
         match l with
         | [] => Ok []
         | x :: l' =>
             rbind (match x with
                    | VUndefined | VNull => Ok []
                    | _ => Js.toString x
                    end) (fun part =>
             rbind (elements l') (fun parts => Ok (part :: parts)))
         end) xs = Raise e' -> e' = Js.cannot_convert).
    { induction xs as [|x l IHl]; intros e'; [discriminate|].
      pose proof (IH x) as Hx.
      destruct (match x with
                | VUndefined | VNull => Ok []
                | _ => Js.toString x
                end) as [part|ex] eqn:Hpart; cbn [rbind].
      - destruct ((fix elements (l : list value) : Result (list jsstring) :=
                     match l with
                     | [] => Ok []
                     | x :: l' =>
                         rbind (match x with
                                | VUndefined | VNull => Ok []
                                | _ => Js.toString x
                                end) (fun part =>
                         rbind (elements l') (fun parts => Ok (part :: parts)))
                     end) l) as [parts|el]; cbn [rbind]; [discriminate|].
        intros [= <-]. now apply IHl.
      - intros [= <-]. destruct x; try discriminate; now apply Hx. }
    match goal with
    | |- rbind ?r _ = _ -> _ => destruct r as [parts|e'] eqn:Hr; cbn [rbind]
    end; [discriminate|].
    intros [= <-]. now apply Hparts.
  - destruct (Js.lookup (lit "toString") props); [|discriminate].
    now intros [= <-].
  - destruct (JsString.eqb f (lit "__proto__")); [discriminate|].
    destruct (Js.nativeName f); discriminate.
Qed.

Lemma translateCard_unkeyed (m : list (jsstring * value)) (p : value) :
  isObject p = true -> keyed p = false -> translateCard m p = Raise Js.cannot_convert.
Proof.
  intros Hobj Hkey. unfold translateCard.
  rewrite !(get_defined p _ (isObject_defined p Hobj)). cbn [rbind].
  unfold keyed in Hkey. unfold preferredOf.
  destruct (Js.toString (prop p (lit "oracle_id"))) as [k|e] eqn:E; [discriminate|].
  apply toString_raises in E. now subst.
Qed.









(** *** Normalization of the batch answer *)

Lemma validCard_defined (card : value) :
  isObject card = true -> validCard card = Ok (hasBothIds card).
Proof.
  intros Hobj. unfold validCard, hasBothIds.
  rewrite !(get_defined card _ (isObject_defined card Hobj)). cbn.
  destruct (Js.truthy (prop card (lit "oracle_id"))); reflexivity.
Qed.

Lemma or_chain_firstAvailable (a b c : value) :
  Js.or a (Js.or b (Js.or c VNull)) = firstAvailable [a; b; c].
Proof.
  unfold firstAvailable, Js.or. cbn [filter].
  destruct (Js.truthy a), (Js.truthy b), (Js.truthy c); reflexivity.
Qed.

Lemma cardToPrinting_defined (card : value) :
  isObject card = true -> cardToPrinting card = Ok (printingOf card).
Proof.
  intros Hobj. unfold cardToPrinting, printingOf.
  rewrite !(get_defined card _ (isObject_defined card Hobj)). cbn.
  now rewrite or_chain_firstAvailable.
Qed.

Lemma wrappedCards_defined (body : value) (w : option (list value)) :
  wrappedCards body = Ok w -> nullish body = false.
Proof.
  destruct body; simpl; intros H; try discriminate; reflexivity.
Qed.

(** C9: when the body of the batch answer passes the test of the wrapped
    shape ([success], [data], and an array under [data.data]) and its cards
    are objects, [fetchByOracleIds] returns [{success: true, cached, data}]
    where [data] holds, in order, the normalized result [printingOf] of
    exactly the cards that have both ids: a card without a canonical id, or
    without a record id, is dropped, all others pass through; the
    thumbnail of each is the first available of small, front and normal
    image, and [null] when there is none. *)
Theorem wrapped_batch_is_normalized
    (ids : list jsstring) (h : Hook) (t0 t1 t2 : Z)
    (resp : Response) (body : value) (cards : list value) :
  coolingDown h t0 = false ->
  ok resp = true ->
  wrappedCards body = Ok (Some cards) ->
  forallb isObject cards = true ->
  settle (fetchByOracleIds ids) h t0
         [FetchSettled t1 (Ok resp); JsonSettled t2 (Ok body)] =
    (resetRateLimit h,
     Returned (VObj [ (lit "success", VBool true);
                      (lit "cached", Js.or (prop body (lit "cached")) (VBool false));
                      (lit "data", VArr (map printingOf (filter hasBothIds cards))) ])) /\
  (forall card, In card cards ->
     (In card (filter hasBothIds cards) <->
      Js.truthy (prop card (lit "oracle_id")) = true /\
      Js.truthy (prop card (lit "printing_id")) = true)) /\
  (forall card, prop card (lit "oracle_id") = VUndefined ->
     ~ In card (filter hasBothIds cards)).
Proof.
  intros Hgate Hok Hwrapped Hobj. unfold coolingDown in Hgate.
  pose proof (wrappedCards_defined body Hwrapped) as Hbody.
  assert (Hfilter : rfilter validCard cards = Ok (filter hasBothIds cards)).
  { apply rfilter_defined. apply Forall_objects; auto. apply validCard_defined. }
  assert (Hmap : rmap cardToPrinting (filter hasBothIds cards)
                 = Ok (map printingOf (filter hasBothIds cards))).
  { apply rmap_defined. apply Forall_objects.
    - apply cardToPrinting_defined.
    - now apply forallb_filter. }
  split; [|split].
  - unfold settle, fetchByOracleIds, rateLimitGate, checkResponse. cbn.
    rewrite Hgate. cbn. rewrite Hok. cbn.
    unfold normalizeByOracleIds. rewrite Hwrapped. cbn.
    rewrite Hfilter. cbn. rewrite Hmap. cbn.
    rewrite (get_defined body _ Hbody). reflexivity.
  - intros card Hin. rewrite filter_In. unfold hasBothIds.
    rewrite andb_true_iff. tauto.
  - intros card Hmissing Hin. apply filter_In in Hin as [_ Hboth].
    unfold hasBothIds in Hboth. rewrite Hmissing in Hboth. discriminate.
Qed.

Lemma wrapped_batch_is_normalized_witness :
  let cards := [undergroundSea; cardWithoutOracleId; cardWithFrontImage] in
  coolingDown initialHook 0 = false /\
  ok (mkResponse 200 None) = true /\
  wrappedCards wrappedAnswer = Ok (Some cards) /\
  forallb isObject cards = true /\
  settle (fetchByOracleIds [lit "abc"; lit "def"]) initialHook 0
         [FetchSettled 10 (Ok (mkResponse 200 None)); JsonSettled 20 (Ok wrappedAnswer)] =
    (resetRateLimit initialHook,
     Returned (VObj [ (lit "success", VBool true);
                      (lit "cached", VBool true);
                      (lit "data", VArr [printingOf undergroundSea;
                                         printingOf cardWithFrontImage]) ])) /\
  prop (printingOf cardWithFrontImage) (lit "image_uri_small") = VStr (lit "front.jpg") /\
  prop (printingOf undergroundSea) (lit "image_uri_small") = VNull.
Proof.
  cbv zeta.
  split; [reflexivity|]. split; [reflexivity|]. split; [vm_compute; reflexivity|].
  split; [reflexivity|].
  split; [|split; vm_compute; reflexivity].
  apply (@wrapped_batch_is_normalized [lit "abc"; lit "def"] initialHook 0 10 20
           (mkResponse 200 None) wrappedAnswer
           [undergroundSea; cardWithoutOracleId; cardWithFrontImage]);
    first [reflexivity | vm_compute; reflexivity].
Defined.

(** For a body other than [null], a body that passes neither shape test
    makes [fetchByOracleIds] return the failure outcome. *)
Lemma unrecognized_shape_is_failure
    (ids : list jsstring) (h : Hook) (t0 t1 t2 : Z) (resp : Response) (body : value) :
  coolingDown h t0 = false ->
  ok resp = true ->
  wrappedCards body = Ok None ->
  flatShape body = Ok false ->
  settle (fetchByOracleIds ids) h t0
         [FetchSettled t1 (Ok resp); JsonSettled t2 (Ok body)] =
    (resetRateLimit h, Returned unrecognizedFormat).
Proof.
  intros Hgate Hok Hwrapped Hflat. unfold coolingDown in Hgate.
  unfold settle, fetchByOracleIds, rateLimitGate, checkResponse. cbn.
  rewrite Hgate. cbn. rewrite Hok. cbn.
  unfold normalizeByOracleIds. rewrite Hwrapped. cbn. rewrite Hflat. reflexivity.
Qed.

(** The shape tests themselves throw on no body but [null] (and
    [undefined], which [response.json()] never yields). *)
Lemma shape_tests_defined (body : value) :
  nullish body = false ->
  (exists w, wrappedCards body = Ok w) /\ (exists f, flatShape body = Ok f).
Proof.
  intros Hbody. unfold wrappedCards, flatShape.
  rewrite !(get_defined body _ Hbody). cbn.
  destruct (Js.truthy (prop body (lit "success"))); [|split; eexists; reflexivity].
  split; [|eexists; reflexivity].
  destruct (Js.truthy (prop body (lit "data"))) eqn:Hdata; [|eexists; reflexivity].
  assert (Hnn : nullish (prop body (lit "data")) = false).
  { destruct (prop body (lit "data")); try discriminate; reflexivity. }
  rewrite (get_defined _ _ Hnn). eexists; reflexivity.
Qed.

(** C8 at the body [null], which is valid JSON and matches neither shape:
    the first shape test reads [responseData.success] and throws a
    [TypeError]; [fetchByOracleIds] ends by throwing instead of returning
    the failure outcome, and [performSearch] shows its generic message,
    not the one of the unrecognized format. *)
Theorem null_batch_body_throws :
  let answers := [FetchSettled 10 (Ok (mkResponse 200 None)); JsonSettled 20 (Ok VNull)] in
  normalizeByOracleIds VNull = Raise (Js.cannot_read (lit "null") (lit "success")) /\
  snd (settle (fetchByOracleIds [lit "abc"]) initialHook 0 answers)
    = Threw (Js.cannot_read (lit "null") (lit "success")) /\
  snd (settle (fetchByOracleIds [lit "abc"]) initialHook 0 answers)
    <> Returned unrecognizedFormat /\
  error (fst (settle (performSearch italian (lit "sottomare")) initialHook 0 answers))
    = VStr (lit "Errore durante la ricerca").
Proof.
  vm_compute. repeat split. discriminate.
Qed.

(** ** Shape of the observable state *)

(** C2, as stated, fails: a canonical-language search answered with
    [{success: true, data: []}] completes with an empty result list and a
    null error, which is neither of the two alternatives. *)
Lemma empty_success_has_neither_shape :
  let settled :=
    settle (performSearch english (lit "zz")) initialHook 0
           [FetchSettled 10 (Ok (mkResponse 200 None)); JsonSettled 20 (Ok emptySuccess)] in
  snd settled = Returned tt /\
  results (fst settled) = [] /\
  error (fst settled) = VNull /\
  ~ ((results (fst settled) <> [] /\ error (fst settled) = VNull) \/
     (results (fst settled) = [] /\ error (fst settled) <> VNull)).
Proof.
  cbv zeta. repeat split.
  intros [[H _]|[_ H]]; apply H; reflexivity.
Qed.

(** Once [data.success] has been read, no later property read on [data]
    throws. *)
Lemma get_after_success (data : value) (items : option (list value)) (k : jsstring) (e : Exn) :
  successItems data = Ok items -> Js.get data k = Raise e -> False.
Proof.
  intros Hs Hg. rewrite (get_defined data k (successItems_defined data Hs)) in Hg. discriminate.
Qed.

(** Closes a goal [consistent] of a hook whose fields are known. *)
Ltac consistent_now :=
  unfold consistent in *; cbn in *;
  first [ left; reflexivity | right; reflexivity | assumption
        | exfalso; eauto using get_after_success ].

(** Runs one stretch symbolically, then the stretches after it. *)
Ltac stage :=
  cbn; repeat (first [ rewrite nth_fresh | split_any ]; cbn);
  first [ split; [consistent_now | exact I]
        | split; [consistent_now | intros ? ? ? ?; stage ] ].

(** The resolution keeps the hook consistent in each of its stretches,
    whatever happened to the hook while it was suspended. *)
Lemma performSearch_preserves (ctx : Ctx) (term : jsstring) :
  preserves 2 (performSearch ctx term).
Proof.
  intros now h Hh.
  unfold_engine. stage.
Qed.

Lemma cleanup_sound (w : World) : sound w -> sound (cleanup w).
Proof.
  intros [Hc Hf]. unfold cleanup. split; cbn; [|exact Hf].
  destruct (abortControllerRef (hook w)); exact Hc.
Qed.

Lemma Forall_replace {A} (P : A -> Prop) (i : nat) (x : A) (l : list A) :
  Forall P l -> P x -> Forall P (replace i x l).
Proof.
  intros Hl Hx. revert i. induction Hl as [|y l Hy Hl IH]; intros [|i]; simpl;
    constructor; auto.
Qed.

Lemma Forall_nth_slot (l : list (option (Outcome unit))) (i : nat) :
  Forall safeSlot l -> safeSlot (nth i l None).
Proof.
  intros Hl. revert i. induction Hl as [|y l Hy Hl IH]; intros [|i]; simpl; auto.
Qed.

Lemma suspended_safe (n : nat) (o : Outcome unit) :
  match o with
  | Awaiting _ k => match n with O => False | S n' => forall x, preserves n' (k x) end
  | _ => True
  end ->
  safeSlot (suspended o).
Proof.
  destruct o as [a|e|X op k]; cbn; auto.
  destruct n as [|n']; [contradiction|]. intros H. exists n'. exact H.
Qed.

(** Resuming a call in flight keeps the hook consistent and leaves a
    continuation that does so again. *)
Lemma resume_sound (h : Hook) (o : Outcome unit) (a : Answer) :
  consistent h -> safeSlot (Some o) ->
  consistent (fst (resume (h, o) a)) /\ safeSlot (suspended (snd (resume (h, o) a))).
Proof.
  intros Hc Hs. destruct o as [x|e|X op k]; cbn; auto.
  destruct Hs as [n Hk]. revert k Hk.
  destruct op; intros k Hk; cbn; try (split; [exact Hc | exists n; exact Hk]).
  - destruct a as [now r|now r]; cbn; [|split; [exact Hc | exists n; exact Hk]].
    destruct n as [|n']; destruct (Hk r now h Hc) as [Hc' Hnext]; (split; [exact Hc'|]);
      revert Hnext; destruct (snd (run now (k r) h)); cbn; auto; intros Hnext.
    + contradiction.
    + exists n'. exact Hnext.
  - destruct a as [now r'|now r']; cbn; [split; [exact Hc | exists n; exact Hk]|].
    destruct n as [|n']; destruct (Hk r' now h Hc) as [Hc' Hnext]; (split; [exact Hc'|]);
      revert Hnext; destruct (snd (run now (k r') h)); cbn; auto; intros Hnext.
    + contradiction.
    + exists n'. exact Hnext.
Qed.

(** Every event of a session keeps its invariant. *)
Lemma step_sound (w : World) (e : Event) : sound w -> sound (step w e).
Proof.
  intros Hw. destruct e as [ctx term|now|call a|]; unfold step.
  - destruct (@cleanup_sound w Hw) as [Hc Hf]. split; cbn [hook inflight]; [exact Hc|]. apply Hw.
  - destruct (timeoutRef w) as [[ctx term]|]; [|exact Hw].
    destruct Hw as [Hc Hf].
    pose proof (performSearch_preserves ctx term) as Hp. cbn [preserves] in Hp.
    destruct (Hp now (hook w) Hc) as [Hc' Hnext]. clear Hp.
    destruct (run now (performSearch ctx term) (hook w)) as [h' o].
    cbn [fst snd] in Hc', Hnext.
    destruct (requested o); split; cbn [hook inflight]; auto.
    apply Forall_app. split; [exact Hf|]. constructor; [|constructor].
    apply (suspended_safe 2 o). exact Hnext.
  - destruct Hw as [Hc Hf].
    pose proof (@Forall_nth_slot (inflight w) call Hf) as Hslot.
    destruct (nth call (inflight w) None) as [o|] eqn:Ho; [|split; assumption].
    destruct (@resume_sound (hook w) o a Hc Hslot) as [Hc' Hs'].
    destruct (resume (hook w, o) a) as [h' o']. cbn [fst snd] in Hc', Hs'.
    split; cbn [hook inflight]; [exact Hc'|]. apply Forall_replace; assumption.
  - apply cleanup_sound. exact Hw.
Qed.

Lemma steps_sound (es : list Event) (w : World) : sound w -> sound (steps w es).
Proof.
  revert w. induction es as [|e es IH]; intros w Hw; [exact Hw|].
  apply (IH (step w e)). now apply step_sound.
Qed.

(** Every state a session reaches is consistent. *)
Lemma session_sound (es : list Event) : sound (steps initialWorld es).
Proof.
  apply steps_sound. split; cbn; [left; reflexivity|constructor].
Qed.

(** C2, amended: a resolution that runs alone, whatever its context and
    term and however its request and body settle, completes, and then
    exactly one of these holds: the error is null (the result list being
    what the resolution committed, possibly empty), or the result list is
    empty and the error is not null.  The same holds of every state a
    session reaches, whatever the interleaving of its resolutions: a
    non-empty result list never comes with an error. *)
Theorem settled_resolution_shape
    (ctx : Ctx) (term : jsstring) (h : Hook) (t0 t1 t2 : Z)
    (fetched : Result Response) (body : Result value) (es : list Event) :
  (exists h',
     settle (performSearch ctx term) h t0
            [FetchSettled t1 fetched; JsonSettled t2 body] = (h', Returned tt) /\
     (error h' = VNull \/ (results h' = [] /\ error h' <> VNull)) /\
     ~ (error h' = VNull /\ (results h' = [] /\ error h' <> VNull))) /\
  (let reached := hook (steps initialWorld es) in
   error reached = VNull \/ (results reached = [] /\ error reached <> VNull)).
Proof.
  split.
  - assert (Hshape : exists h',
      settle (performSearch ctx term) h t0
             [FetchSettled t1 fetched; JsonSettled t2 body] = (h', Returned tt) /\
      (error h' = VNull \/ (results h' = [] /\ error h' <> VNull))).
    { unfold_engine. cbn.
      repeat (first [ rewrite nth_fresh | split_any ]; cbn).
      all: eexists; (split; [reflexivity|]); cbn.
      all: try (left; reflexivity).
      all: try (right; split; [reflexivity| discriminate]).
      all: right; split; [reflexivity| apply or_not_null; discriminate]. }
    destruct Hshape as [h' [Hrun Hor]]. exists h'. split; [exact Hrun|].
    split; [exact Hor|].
    intros [Hnull [_ Hnot]]. contradiction.
  - cbv zeta. destruct (session_sound es) as [Hc _]. unfold consistent in Hc.
    destruct (error (hook (steps initialWorld es))) eqn:He;
      try (left; reflexivity);
      right; (split; [|discriminate]);
      destruct Hc as [Hc|Hc]; solve [discriminate | exact Hc].
Qed.

(** ** Supersession *)

(** X17: what the guard on the resolution's own controller achieves: for
    a resolution whose trimmed term [encodeURIComponent] escapes, so that
    the term search can build its request, when the body of the
    superseded resolution arrives (its controller is aborted in the hook
    [g] of that moment) and is one the batch normalization does not throw
    on, the resolution completes without touching results, error, cached
    or translated name.  Its [finally] block still sets [loading] to
    false unless the controller that is current in [g] is aborted too. *)
Lemma stale_body_is_discarded
    (ctx : Ctx) (term : jsstring) (h g : Hook) (t0 t1 t2 : Z)
    (resp : Response) (body data : value) (escaped : jsstring) :
  (minLength ctx <= Z.of_nat (List.length (trim term)))%Z ->
  JsString.eqb (selectedLang ctx) (lit "en") = true \/ isLangLoading ctx = false ->
  coolingDown h t0 = false ->
  Uri.encodeURIComponent (trim term) = Ok escaped ->
  ok resp = true ->
  nth (List.length (controllers h)) (controllers g) false = true ->
  normalizeByOracleIds body = Ok data ->
  let answered := settle (performSearch ctx term) h t0 [FetchSettled t1 (Ok resp)] in
  exists g',
    resume (g, snd answered) (JsonSettled t2 (Ok body)) = (g', Returned tt) /\
    results g' = results g /\
    error g' = error g /\
    cached g' = cached g /\
    translatedName g' = translatedName g /\
    loading g' = (if currentAborted g then loading g else false).
Proof.
  intros Hlen Hpath Hgate Hescaped Hok Hstale Hnorm. cbv zeta.
  apply Z.ltb_ge in Hlen. unfold coolingDown in Hgate. unfold currentAborted.
  assert (Hstale' : forall n, nth (List.length (abort_at n (controllers h))) (controllers g) false = true).
  { intros n. now rewrite abort_at_length. }
  unfold_engine. cbn. rewrite Hlen. cbn.
  destruct (JsString.eqb (selectedLang ctx) (lit "en")) eqn:Hlang.
  - destruct (abortControllerRef h); cbn; rewrite Hgate; cbn;
        rewrite ?Hescaped; cbn; rewrite Hok; cbn;
      rewrite ?Hstale', ?Hstale; cbn;
      destruct (abortControllerRef g) as [c|]; cbn;
      try destruct (nth c (controllers g) false); cbn; eexists; repeat split.
  - destruct Hpath as [Hpath|Hload]; [discriminate|].
    destruct (dictionaryUnavailable ctx) eqn:Hun; [rewrite Hload|].
    + destruct (abortControllerRef h); cbn; rewrite Hgate; cbn;
        rewrite ?Hescaped; cbn; rewrite Hok; cbn;
        rewrite ?Hstale', ?Hstale; cbn;
        destruct (abortControllerRef g) as [c|]; cbn;
        try destruct (nth c (controllers g) false); cbn; eexists; repeat split.
    + destruct (fuseDictionary ctx) as [fuse|]; cbn;
        try destruct (search fuse (trim term) 10) as [|first rest]; cbn;
        destruct (abortControllerRef h); cbn; rewrite Hgate; cbn;
        rewrite ?Hescaped; cbn; rewrite Hok; cbn;
        rewrite ?Hnorm; cbn;
        rewrite ?Hstale', ?Hstale; cbn;
        destruct (abortControllerRef g) as [c|]; cbn;
        try destruct (nth c (controllers g) false); cbn; eexists; repeat split.
Qed.

(** Delivers the rejection of the aborted [fetch] to a resolution that
    has passed the rate limit; a term search whose term does not escape
    has ended before, in its first stretch. *)
Ltac abort_delivered term Hgate Href Hcur :=
  cbn; rewrite Hgate; cbn;
  first
    [ rewrite jsstring_eqb_refl; cbn; rewrite Href; cbn; rewrite Hcur; reflexivity
    | let e := fresh "e" in
      destruct (Uri.encodeURIComponent (trim term)) as [?|e]; cbn;
      [ rewrite jsstring_eqb_refl; cbn; rewrite Href; cbn; rewrite Hcur; reflexivity
      | destruct (instanceof_Error e && negb (JsString.eqb (exn_name e) (lit "AbortError")));
        cbn; rewrite ?nth_fresh; cbn; reflexivity ] ].

(** X18: what aborting the request achieves: when the rejection of the
    aborted [fetch] is delivered while the current controller is aborted (as it is
    right after the effect cleanup, before a newer resolution installs its
    own), the resolution ends without any change to the hook. *)
Lemma prompt_abort_commits_nothing
    (ctx : Ctx) (term : jsstring) (h g : Hook) (t0 t1 : Z) :
  (minLength ctx <= Z.of_nat (List.length (trim term)))%Z ->
  JsString.eqb (selectedLang ctx) (lit "en") = true \/ isLangLoading ctx = false ->
  coolingDown h t0 = false ->
  currentAborted g = true ->
  resume (g, snd (run t0 (performSearch ctx term) h)) (FetchSettled t1 (Raise AbortError))
    = (g, Returned tt).
Proof.
  intros Hlen Hpath Hgate Hcur.
  apply Z.ltb_ge in Hlen. unfold coolingDown in Hgate. unfold currentAborted in Hcur.
  destruct (abortControllerRef g) as [c|] eqn:Href; [|discriminate].
  unfold_engine. cbn. rewrite Hlen. cbn.
  destruct (JsString.eqb (selectedLang ctx) (lit "en")) eqn:Hlang.
  - destruct (abortControllerRef h); abort_delivered term Hgate Href Hcur.
  - destruct Hpath as [Hpath|Hload]; [discriminate|].
    destruct (dictionaryUnavailable ctx) eqn:Hun; [rewrite Hload|].
    + destruct (abortControllerRef h); abort_delivered term Hgate Href Hcur.
    + destruct (fuseDictionary ctx) as [fuse|]; cbn;
        try destruct (search fuse (trim term) 10) as [|first rest]; cbn;
        destruct (abortControllerRef h); abort_delivered term Hgate Href Hcur.
Qed.


(** * Further properties of the hook *)

(** ** Outcomes of a resolution *)

Lemma starts_with_app (p s : jsstring) : starts_with (p ++ s) p = true.
Proof.
  induction p as [|c p IH]; simpl; [destruct s; reflexivity|].
  now rewrite N.eqb_refl, IH.
Qed.

Lemma includes_prefix (p s : jsstring) : includes (p ++ s) p = true.
Proof.
  destruct p as [|c p].
  - destruct s; reflexivity.
  - change (includes ((c :: p) ++ s) (c :: p))
      with (starts_with ((c :: p) ++ s) (c :: p) || includes (p ++ s) (c :: p)).
    now rewrite starts_with_app.
Qed.

(** The rate-limit error is shown with its own message. *)
Lemma errorMessage_tooManyRequests (n : Z) :
  errorMessage (tooManyRequests n) = exn_message (tooManyRequests n).
Proof.
  unfold errorMessage, tooManyRequests, Error. cbn [exn_message].
  change (lit "Troppe richieste. Attendi ")
    with (lit "Troppe richieste" ++ lit ". Attendi ").
  rewrite <- app_assoc. now rewrite includes_prefix.
Qed.

(** The message shown for the HTTP error of a three-digit status. *)
Lemma errorMessage_httpError (st : Z) :
  (0 <= st <= 999)%Z -> st <> 429%Z ->
  errorMessage (httpError st) = lit "Errore del server: HTTP error! status: " ++ of_Z st.
Proof.
  intros Hrange Hst.
  assert (H : forallb
    (fun n => (Z.of_nat n =? 429)%Z ||
              JsString.eqb (errorMessage (httpError (Z.of_nat n)))
                (lit "Errore del server: HTTP error! status: " ++ of_Z (Z.of_nat n)))
    (seq 0 1000) = true) by (vm_compute; reflexivity).
  rewrite forallb_forall in H.
  specialize (H (Z.to_nat st)). rewrite Z2Nat.id in H by lia.
  apply Z.eqb_neq in Hst. rewrite Hst in H. apply jsstring_eqb_eq.
  apply H. apply in_seq. lia.
Qed.

Lemma Error_is_not_abort : JsString.eqb (lit "Error") (lit "AbortError") = false.
Proof. reflexivity. Qed.

(** Runs [tac] on each of the four ways a resolution reaches the network:
    canonical language, dictionary unavailable, no candidate, candidates. *)
Ltac network_paths ctx term h Hlen Hpath tac :=
  unfold_engine; cbn; rewrite Hlen; cbn;
  let Hlang := fresh "Hlang" in
  let Hload := fresh "Hload" in
  let Hun := fresh "Hun" in
  destruct (JsString.eqb (selectedLang ctx) (lit "en")) eqn:Hlang;
  [ destruct (abortControllerRef h); tac
  | destruct Hpath as [Hpath|Hload]; [discriminate|];
    destruct (dictionaryUnavailable ctx) eqn:Hun;
    [ rewrite Hload; destruct (abortControllerRef h); tac
    | destruct (fuseDictionary ctx) as [fuse|]; cbn;
      try destruct (search fuse (trim term) 10) as [|first rest]; cbn;
      destruct (abortControllerRef h); tac ] ].

(** Closes the hypotheses of a property at a sample input. *)
Ltac at_sample :=
  first [ reflexivity | left; reflexivity | right; reflexivity
        | discriminate | vm_compute; discriminate
        | vm_compute; split; discriminate | lia ].

Lemma tagCanonical_defined (r : value) :
  isObject r = true -> tagCanonical r = Ok (canonical r).
Proof.
  intros Hobj. unfold tagCanonical, canonical, isSetItem.
  rewrite !(get_defined r _ (isObject_defined r Hobj)). cbn.
  destruct (Js.is_str (prop r (lit "type")) (lit "set")); reflexivity.
Qed.

Lemma canonical_item (r : value) :
  isObject r = true -> taggedCanonical r (canonical r).
Proof.
  destruct r as [| | | | | |ps|]; try discriminate. intros _.
  unfold taggedCanonical, canonical. cbn [prop Js.spread]. split.
  - now rewrite lookup_set_same.
  - intros k Hk. now rewrite lookup_set_other.
Qed.

(** X1: in the canonical language, a resolution let through by the rate
    limit, whose trimmed term [encodeURIComponent] escapes (it throws on a
    lone surrogate, and then nothing is requested), requests the term
    search for the escaped trimmed term.  When the search answers with
    success and a list of items, the resolution completes
    with one result per item, in order: the item with its [type] set to
    ['set'] when it was ['set'] and to ['card'] otherwise, and every other
    property as the server sent it (no [originalName], no [preferredName]
    added); [cached] is the answer's [cached] or false; the translated
    name and the error are null. *)
Theorem canonical_results_are_only_tagged
    (ctx : Ctx) (term : jsstring) (h : Hook) (t0 t1 t2 : Z)
    (resp : Response) (data : value) (items : list value) (escaped : jsstring) :
  JsString.eqb (selectedLang ctx) (lit "en") = true ->
  (minLength ctx <= Z.of_nat (List.length (trim term)))%Z ->
  coolingDown h t0 = false ->
  Uri.encodeURIComponent (trim term) = Ok escaped ->
  ok resp = true ->
  successItems data = Ok (Some items) ->
  forallb isObject items = true ->
  requested (snd (run t0 (performSearch ctx term) h)) =
    Some (autocomplete escaped, Some (List.length (controllers h))) /\
  exists h',
    settle (performSearch ctx term) h t0
           [FetchSettled t1 (Ok resp); JsonSettled t2 (Ok data)] = (h', Returned tt) /\
    Forall2 taggedCanonical items (results h') /\
    cached h' = Js.or (prop data (lit "cached")) (VBool false) /\
    translatedName h' = VNull /\
    error h' = VNull /\
    loading h' = false.
Proof.
  intros Hlang Hlen Hgate Hescaped Hok Hitems Hobj.
  apply Z.ltb_ge in Hlen. unfold coolingDown in Hgate.
  pose proof (successItems_defined data Hitems) as Hdata.
  assert (Hmap : rmap tagCanonical items = Ok (map canonical items)).
  { apply rmap_defined. apply Forall_objects; auto. apply tagCanonical_defined. }
  assert (Htag : Forall2 taggedCanonical items (map canonical items)).
  { apply Forall2_map_r. apply Forall_objects; auto. apply canonical_item. }
  split.
  - unfold_engine. cbn. rewrite Hlen. cbn. rewrite Hlang.
    destruct (abortControllerRef h); cbn; rewrite Hgate; cbn;
      rewrite Hescaped; cbn; rewrite ?abort_at_length; reflexivity.
  - unfold_engine. cbn. rewrite Hlen. cbn. rewrite Hlang.
    destruct (abortControllerRef h); cbn; rewrite Hgate; cbn;
      rewrite Hescaped; cbn; rewrite Hok; cbn; rewrite nth_fresh; cbn;
      rewrite Hitems; cbn; rewrite Hmap; cbn;
      rewrite (get_defined data _ Hdata); cbn; rewrite nth_fresh; cbn;
      eexists; (split; [reflexivity|]); cbn; repeat split; exact Htag.
Qed.

Lemma canonical_results_are_only_tagged_witness :
  requested (snd (run 0 (performSearch english (lit "mare sotterraneo ")) initialHook)) =
    Some (autocomplete (lit "mare%20sotterraneo"), Some (List.length (controllers initialHook))) /\
  exists h',
    settle (performSearch english (lit "mare sotterraneo ")) initialHook 0
           [FetchSettled 10 (Ok (mkResponse 200 None)); JsonSettled 20 (Ok termAnswer)]
      = (h', Returned tt) /\
    Forall2 taggedCanonical [undergroundSea] (results h') /\
    cached h' = Js.or (prop termAnswer (lit "cached")) (VBool false) /\
    translatedName h' = VNull /\
    error h' = VNull /\
    loading h' = false.
Proof.
  apply (@canonical_results_are_only_tagged english (lit "mare sotterraneo ") initialHook 0 10 20
           (mkResponse 200 None) termAnswer [undergroundSea] (lit "mare%20sotterraneo"));
    at_sample.
Defined.

(** X2: in a language other than the canonical one, while the dictionary
    is loading, a resolution of a term that is long enough completes in
    its first synchronous stretch without a request: it aborts the
    previous controller and installs a new one, clears the error and the
    translated name, leaves the results and [cached] as they were, and
    ends with [loading] false. *)
Theorem loading_dictionary_defers_resolution
    (ctx : Ctx) (term : jsstring) (h : Hook) (now : Z) :
  JsString.eqb (selectedLang ctx) (lit "en") = false ->
  isLangLoading ctx = true ->
  (minLength ctx <= Z.of_nat (List.length (trim term)))%Z ->
  exists h',
    run now (performSearch ctx term) h = (h', Returned tt) /\
    results h' = results h /\
    cached h' = cached h /\
    error h' = VNull /\
    translatedName h' = VNull /\
    loading h' = false /\
    rateLimitRef h' = rateLimitRef h /\
    abortControllerRef h' = Some (List.length (controllers h)) /\
    currentAborted h' = false /\
    controllers h' =
      match abortControllerRef h with
      | Some c => abort_at c (controllers h)
      | None => controllers h
      end ++ [false].
Proof.
  intros Hlang Hload Hlen. apply Z.ltb_ge in Hlen.
  unfold currentAborted.
  unfold_engine. cbn. rewrite Hlen. cbn. rewrite Hlang.
  unfold dictionaryUnavailable. rewrite Hload. cbn.
  destruct (abortControllerRef h); cbn; rewrite nth_fresh; cbn;
    eexists; (split; [reflexivity|]); cbn;
    rewrite ?nth_fresh, ?abort_at_length; repeat split.
Qed.

Lemma loading_dictionary_defers_resolution_witness :
  exists h',
    run 0 (performSearch italianLoading (lit "mare")) supersedingHook = (h', Returned tt) /\
    results h' = results supersedingHook /\
    cached h' = cached supersedingHook /\
    error h' = VNull /\
    translatedName h' = VNull /\
    loading h' = false /\
    rateLimitRef h' = rateLimitRef supersedingHook /\
    abortControllerRef h' = Some (List.length (controllers supersedingHook)) /\
    currentAborted h' = false /\
    controllers h' =
      match abortControllerRef supersedingHook with
      | Some c => abort_at c (controllers supersedingHook)
      | None => controllers supersedingHook
      end ++ [false].
Proof.
  apply (@loading_dictionary_defers_resolution italianLoading (lit "mare") supersedingHook 0);
    at_sample.
Defined.

(** X3: a resolution that reaches a client operation during the cooldown
    completes in its first synchronous stretch, without a request: the
    error is the rate-limit message with the remaining seconds rounded
    up, the results are empty, [cached] and [loading] are false, and the
    rate-limit state is untouched. *)
Theorem cooldown_resolution_reports_wait (ctx : Ctx) (term : jsstring) (h : Hook) (now : Z) :
  (minLength ctx <= Z.of_nat (List.length (trim term)))%Z ->
  JsString.eqb (selectedLang ctx) (lit "en") = true \/ isLangLoading ctx = false ->
  coolingDown h now = true ->
  exists h',
    run now (performSearch ctx term) h = (h', Returned tt) /\
    error h' = VStr (lit "Troppe richieste. Attendi "
                     ++ of_Z (ceil_div (until (rateLimitRef h) - now) 1000)
                     ++ lit " secondi.") /\
    results h' = [] /\
    cached h' = VBool false /\
    translatedName h' = VNull /\
    loading h' = false /\
    rateLimitRef h' = rateLimitRef h.
Proof.
  intros Hlen Hpath Hgate.
  apply Z.ltb_ge in Hlen. unfold coolingDown in Hgate.
  network_paths ctx term h Hlen Hpath
    ltac:(cbn; rewrite Hgate; cbn; rewrite Error_is_not_abort; cbn;
          rewrite errorMessage_tooManyRequests; rewrite nth_fresh; cbn;
          eexists; repeat split).
Qed.

Lemma cooldown_resolution_reports_wait_witness :
  exists h',
    run 12500 (performSearch italian (lit "sottomare")) throttledHook = (h', Returned tt) /\
    error h' = VStr (lit "Troppe richieste. Attendi "
                     ++ of_Z (ceil_div (until (rateLimitRef throttledHook) - 12500) 1000)
                     ++ lit " secondi.") /\
    results h' = [] /\
    cached h' = VBool false /\
    translatedName h' = VNull /\
    loading h' = false /\
    rateLimitRef h' = rateLimitRef throttledHook.
Proof.
  apply (@cooldown_resolution_reports_wait italian (lit "sottomare") throttledHook 12500);
    at_sample.
Defined.

(** X4: when the request of a resolution whose trimmed term
    [encodeURIComponent] escapes is answered with status 429 at time
    [t1], the resolution completes with the message of a 30-second
    wait as its error, empty results, and [cached] and [loading] false;
    the rate limit is blocked until [t1 + 30000], so that the cooldown is
    active at every time before that, and from [t1] on the wait it
    announces is between 1 and 30 seconds. *)
Theorem throttled_resolution_starts_cooldown
    (ctx : Ctx) (term : jsstring) (h : Hook) (t0 t1 : Z) (resp : Response)
    (escaped : jsstring) :
  (minLength ctx <= Z.of_nat (List.length (trim term)))%Z ->
  JsString.eqb (selectedLang ctx) (lit "en") = true \/ isLangLoading ctx = false ->
  coolingDown h t0 = false ->
  Uri.encodeURIComponent (trim term) = Ok escaped ->
  status resp = 429%Z ->
  exists h',
    settle (performSearch ctx term) h t0 [FetchSettled t1 (Ok resp)] = (h', Returned tt) /\
    error h' = VStr (lit "Troppe richieste. Attendi 30 secondi.") /\
    results h' = [] /\
    cached h' = VBool false /\
    loading h' = false /\
    rateLimitRef h' = mkRateLimit true (t1 + 30000) /\
    (forall now, (now < t1 + 30000)%Z -> coolingDown h' now = true) /\
    (forall now, (t1 <= now < t1 + 30000)%Z ->
       (1 <= ceil_div (until (rateLimitRef h') - now) 1000 <= 30)%Z).
Proof.
  intros Hlen Hpath Hgate Hescaped Hst.
  apply Z.ltb_ge in Hlen. unfold coolingDown in Hgate.
  assert (Hok : ok resp = false) by (unfold ok; rewrite Hst; reflexivity).
  assert (Hcool : forall now, (now < t1 + 30000)%Z -> (now <? t1 + 30000)%Z = true)
    by (intros now Hnow; now apply Z.ltb_lt).
  assert (Hwait : forall now, (t1 <= now < t1 + 30000)%Z ->
                    (1 <= ceil_div (t1 + 30000 - now) 1000 <= 30)%Z)
    by (intros now Hnow; apply ceil_div_remaining; lia).
  network_paths ctx term h Hlen Hpath
    ltac:(cbn; rewrite Hgate; cbn; rewrite ?Hescaped; cbn; rewrite Hok, Hst; cbn;
          rewrite Error_is_not_abort; cbn;
          rewrite errorMessage_tooManyRequests; rewrite nth_fresh; cbn;
          eexists; (split; [reflexivity|]); cbn; repeat split;
          first [exact Hcool | apply Hwait; assumption]).
Qed.

Lemma throttled_resolution_starts_cooldown_witness :
  exists h',
    settle (performSearch english (lit "und")) initialHook 0
           [FetchSettled 100 (Ok (mkResponse 429 (Some 5%Z)))] = (h', Returned tt) /\
    error h' = VStr (lit "Troppe richieste. Attendi 30 secondi.") /\
    results h' = [] /\
    cached h' = VBool false /\
    loading h' = false /\
    rateLimitRef h' = mkRateLimit true (100 + 30000) /\
    (forall now, (now < 100 + 30000)%Z -> coolingDown h' now = true) /\
    (forall now, (100 <= now < 100 + 30000)%Z ->
       (1 <= ceil_div (until (rateLimitRef h') - now) 1000 <= 30)%Z).
Proof.
  apply (@throttled_resolution_starts_cooldown english (lit "und") initialHook 0 100
           (mkResponse 429 (Some 5%Z)) (lit "und")); at_sample.
Defined.

(** X5: when the request of a resolution whose trimmed term
    [encodeURIComponent] escapes is rejected with an error that is not an
    abort and whose message contains 'Failed to fetch' or
    'NetworkError' (and not the rate-limit wording), the resolution
    completes with the error 'Errore di connessione', empty results,
    [cached] and [loading] false, and the rate-limit state untouched. *)
Theorem network_failure_reports_connection_error
    (ctx : Ctx) (term : jsstring) (h : Hook) (t0 t1 : Z) (e : Exn) (escaped : jsstring) :
  (minLength ctx <= Z.of_nat (List.length (trim term)))%Z ->
  JsString.eqb (selectedLang ctx) (lit "en") = true \/ isLangLoading ctx = false ->
  coolingDown h t0 = false ->
  Uri.encodeURIComponent (trim term) = Ok escaped ->
  instanceof_Error e = true ->
  JsString.eqb (exn_name e) (lit "AbortError") = false ->
  includes (exn_message e) (lit "Troppe richieste") = false ->
  includes (exn_message e) (lit "Failed to fetch")
    || includes (exn_message e) (lit "NetworkError") = true ->
  exists h',
    settle (performSearch ctx term) h t0 [FetchSettled t1 (Raise e)] = (h', Returned tt) /\
    error h' = VStr (lit "Errore di connessione") /\
    results h' = [] /\
    cached h' = VBool false /\
    loading h' = false /\
    rateLimitRef h' = rateLimitRef h.
Proof.
  intros Hlen Hpath Hgate Hescaped Herr Hname Hrate Hnet.
  apply Z.ltb_ge in Hlen. unfold coolingDown in Hgate.
  assert (Hmsg : errorMessage e = lit "Errore di connessione").
  { unfold errorMessage. now rewrite Hrate, Hnet. }
  network_paths ctx term h Hlen Hpath
    ltac:(cbn; rewrite Hgate; cbn; rewrite ?Hescaped; cbn; rewrite Herr, Hname; cbn;
          rewrite Hmsg; rewrite nth_fresh; cbn;
          eexists; repeat split).
Qed.

Lemma network_failure_reports_connection_error_witness :
  exists h',
    settle (performSearch italian (lit "sottomare")) initialHook 0
           [FetchSettled 10 (Raise (TypeError (lit "Failed to fetch")))] = (h', Returned tt) /\
    error h' = VStr (lit "Errore di connessione") /\
    results h' = [] /\
    cached h' = VBool false /\
    loading h' = false /\
    rateLimitRef h' = rateLimitRef initialHook.
Proof.
  apply (@network_failure_reports_connection_error italian (lit "sottomare") initialHook 0 10
           (TypeError (lit "Failed to fetch")) (lit "sottomare")); at_sample.
Defined.

(** X6: when the request of a resolution whose trimmed term
    [encodeURIComponent] escapes is answered with a status that is not
    [ok] and not 429, the resolution completes with the error 'Errore
    del server: HTTP error! status: N', N being the status, empty results,
    [cached] and [loading] false, and the rate-limit state untouched. *)
Theorem http_error_reports_server_error
    (ctx : Ctx) (term : jsstring) (h : Hook) (t0 t1 : Z) (resp : Response)
    (escaped : jsstring) :
  (minLength ctx <= Z.of_nat (List.length (trim term)))%Z ->
  JsString.eqb (selectedLang ctx) (lit "en") = true \/ isLangLoading ctx = false ->
  coolingDown h t0 = false ->
  Uri.encodeURIComponent (trim term) = Ok escaped ->
  ok resp = false ->
  (0 <= status resp <= 999)%Z ->
  status resp <> 429%Z ->
  exists h',
    settle (performSearch ctx term) h t0 [FetchSettled t1 (Ok resp)] = (h', Returned tt) /\
    error h' = VStr (lit "Errore del server: HTTP error! status: " ++ of_Z (status resp)) /\
    results h' = [] /\
    cached h' = VBool false /\
    loading h' = false /\
    rateLimitRef h' = rateLimitRef h.
Proof.
  intros Hlen Hpath Hgate Hescaped Hok Hrange Hst.
  apply Z.ltb_ge in Hlen. unfold coolingDown in Hgate.
  pose proof (errorMessage_httpError Hrange Hst) as Hmsg.
  apply Z.eqb_neq in Hst.
  network_paths ctx term h Hlen Hpath
    ltac:(cbn; rewrite Hgate; cbn; rewrite ?Hescaped; cbn; rewrite Hok, Hst; cbn;
          rewrite Error_is_not_abort; cbn;
          rewrite Hmsg; rewrite nth_fresh; cbn;
          eexists; repeat split).
Qed.

Lemma http_error_reports_server_error_witness :
  exists h',
    settle (performSearch italian (lit "sottomare")) throttledHook 40000
           [FetchSettled 40100 (Ok (mkResponse 503 None))] = (h', Returned tt) /\
    error h' = VStr (lit "Errore del server: HTTP error! status: "
                     ++ of_Z (status (mkResponse 503 None))) /\
    results h' = [] /\
    cached h' = VBool false /\
    loading h' = false /\
    rateLimitRef h' = rateLimitRef throttledHook.
Proof.
  apply (@http_error_reports_server_error italian (lit "sottomare") throttledHook 40000 40100
           (mkResponse 503 None) (lit "sottomare")); at_sample.
Defined.

(** X7: when a term search whose trimmed term [encodeURIComponent]
    escapes is answered with a body that does not have both a truthy
    [success] and a list under [data], the resolution
    completes with empty results, [cached] false, and as error the body's
    [error] when that is truthy and 'Errore durante la ricerca' otherwise;
    the error is never null. *)
Theorem failed_term_search_reports_error
    (ctx : Ctx) (term : jsstring) (h : Hook) (t0 t1 t2 : Z)
    (resp : Response) (data : value) (escaped : jsstring) :
  searchesByTerm ctx term = true ->
  (minLength ctx <= Z.of_nat (List.length (trim term)))%Z ->
  coolingDown h t0 = false ->
  Uri.encodeURIComponent (trim term) = Ok escaped ->
  ok resp = true ->
  successItems data = Ok None ->
  exists h',
    settle (performSearch ctx term) h t0
           [FetchSettled t1 (Ok resp); JsonSettled t2 (Ok data)] = (h', Returned tt) /\
    error h' = Js.or (prop data (lit "error")) (VStr (lit "Errore durante la ricerca")) /\
    error h' <> VNull /\
    results h' = [] /\
    cached h' = VBool false /\
    translatedName h' = VNull /\
    loading h' = false.
Proof.
  intros Hterm Hlen Hgate Hescaped Hok Hitems.
  apply Z.ltb_ge in Hlen. unfold coolingDown in Hgate.
  pose proof (successItems_defined data Hitems) as Hdata.
  assert (Hnn : Js.or (prop data (lit "error")) (VStr (lit "Errore durante la ricerca")) <> VNull)
    by (apply or_not_null; discriminate).
  unfold searchesByTerm, candidates in Hterm.
  unfold_engine. cbn. rewrite Hlen. cbn.
  destruct (JsString.eqb (selectedLang ctx) (lit "en")) eqn:Hlang.
  - destruct (abortControllerRef h); cbn; rewrite Hgate; cbn;
      rewrite Hescaped; cbn; rewrite Hok; cbn; rewrite nth_fresh; cbn; rewrite Hitems; cbn;
      rewrite (get_defined data _ Hdata); cbn; rewrite nth_fresh; cbn;
      eexists; (split; [reflexivity|]); cbn; repeat split; exact Hnn.
  - cbn in Hterm. apply andb_true_iff in Hterm as [Hload Hterm].
    apply negb_true_iff in Hload.
    destruct (dictionaryUnavailable ctx) eqn:Hun; [rewrite Hload|];
      cbn in Hterm;
      [| destruct (fuseDictionary ctx) as [fuse|]; cbn in Hterm |- *;
         [rewrite Hterm|] ].
    all: destruct (abortControllerRef h); cbn; rewrite Hgate; cbn;
      rewrite Hescaped; cbn; rewrite Hok; cbn; rewrite nth_fresh; cbn; rewrite Hitems; cbn;
      rewrite (get_defined data _ Hdata); cbn; rewrite nth_fresh; cbn;
      eexists; (split; [reflexivity|]); cbn; repeat split; exact Hnn.
Qed.

Lemma failed_term_search_reports_error_witness :
  exists h',
    settle (performSearch italianNoHit (lit "underg")) initialHook 0
           [FetchSettled 10 (Ok (mkResponse 200 None)); JsonSettled 20 (Ok failedAnswer)]
      = (h', Returned tt) /\
    error h' = Js.or (prop failedAnswer (lit "error")) (VStr (lit "Errore durante la ricerca")) /\
    error h' <> VNull /\
    results h' = [] /\
    cached h' = VBool false /\
    translatedName h' = VNull /\
    loading h' = false.
Proof.
  apply (@failed_term_search_reports_error italianNoHit (lit "underg") initialHook 0 10 20
           (mkResponse 200 None) failedAnswer (lit "underg")); at_sample.
Defined.

Lemma encodeURIComponent_raises (s : jsstring) (e : Exn) :
  Uri.encodeURIComponent s = Raise e -> e = Uri.URIError.
Proof.
  assert (H : forall n s, (List.length s <= n)%nat ->
              Uri.encodeURIComponent s = Raise e -> e = Uri.URIError).
  { clear s. induction n as [|n IH]; intros s Hn.
    - destruct s; [discriminate|cbn in Hn; lia].
    - destruct s as [|c s']; [discriminate|].
      cbn [List.length] in Hn. cbn [Uri.encodeURIComponent].
      destruct (Uri.unreserved c).
      { destruct (Uri.encodeURIComponent s') as [r'|e'] eqn:Hr; cbn [rbind]; [discriminate|].
        intros [= <-]. apply (IH s'); [lia|exact Hr]. }
      destruct (Uri.isTrailSurrogate c); [now intros [= <-]|].
      destruct (Uri.isLeadSurrogate c).
      { destruct s' as [|d s'']; [now intros [= <-]|].
        destruct (Uri.isTrailSurrogate d); [|now intros [= <-]].
        destruct (Uri.encodeURIComponent s'') as [r'|e'] eqn:Hr; cbn [rbind]; [discriminate|].
        intros [= <-]. apply (IH s''); [cbn in Hn; lia|exact Hr]. }
      destruct (Uri.encodeURIComponent s') as [r'|e'] eqn:Hr; cbn [rbind]; [discriminate|].
      intros [= <-]. apply (IH s'); [lia|exact Hr]. }
  exact (H (List.length s) s (le_n _)).
Qed.

Lemma URIError_is_not_abort : JsString.eqb (lit "URIError") (lit "AbortError") = false.
Proof. reflexivity. Qed.

Lemma errorMessage_URIError : errorMessage Uri.URIError = lit "Errore durante la ricerca".
Proof. reflexivity. Qed.

(** X26: a term search whose trimmed term [encodeURIComponent] does not
    escape (it holds a lone surrogate) is never requested: let through by
    the rate limit, the resolution ends in its first synchronous stretch,
    with the error 'Errore durante la ricerca', empty results, [cached]
    and [loading] false, and the rate-limit state untouched. *)
Theorem unescapable_term_is_not_requested
    (ctx : Ctx) (term : jsstring) (h : Hook) (now : Z) (e : Exn) :
  searchesByTerm ctx term = true ->
  (minLength ctx <= Z.of_nat (List.length (trim term)))%Z ->
  coolingDown h now = false ->
  Uri.encodeURIComponent (trim term) = Raise e ->
  exists h',
    run now (performSearch ctx term) h = (h', Returned tt) /\
    error h' = VStr (lit "Errore durante la ricerca") /\
    results h' = [] /\
    cached h' = VBool false /\
    translatedName h' = VNull /\
    loading h' = false /\
    rateLimitRef h' = rateLimitRef h.
Proof.
  intros Hterm Hlen Hgate Hraise.
  pose proof (encodeURIComponent_raises _ Hraise) as ->.
  apply Z.ltb_ge in Hlen. unfold coolingDown in Hgate.
  unfold searchesByTerm, candidates in Hterm.
  unfold_engine. cbn. rewrite Hlen. cbn.
  destruct (JsString.eqb (selectedLang ctx) (lit "en")) eqn:Hlang.
  - destruct (abortControllerRef h); cbn; rewrite Hgate; cbn;
      rewrite Hraise; cbn; rewrite URIError_is_not_abort; cbn;
      rewrite errorMessage_URIError; rewrite nth_fresh; cbn;
      eexists; repeat split.
  - cbn in Hterm. apply andb_true_iff in Hterm as [Hload Hterm].
    apply negb_true_iff in Hload.
    destruct (dictionaryUnavailable ctx) eqn:Hun; [rewrite Hload|];
      cbn in Hterm;
      [| destruct (fuseDictionary ctx) as [fuse|]; cbn in Hterm |- *;
         [rewrite Hterm|] ].
    all: destruct (abortControllerRef h); cbn; rewrite Hgate; cbn;
      rewrite Hraise; cbn; rewrite URIError_is_not_abort; cbn;
      rewrite errorMessage_URIError; rewrite nth_fresh; cbn;
      eexists; repeat split.
Qed.

Lemma unescapable_term_is_not_requested_witness :
  exists h',
    run 0 (performSearch english loneSurrogateTerm) initialHook = (h', Returned tt) /\
    error h' = VStr (lit "Errore durante la ricerca") /\
    results h' = [] /\
    cached h' = VBool false /\
    translatedName h' = VNull /\
    loading h' = false /\
    rateLimitRef h' = rateLimitRef initialHook.
Proof.
  apply (@unescapable_term_is_not_requested english loneSurrogateTerm initialHook 0
           Uri.URIError); at_sample.
Defined.

(** X8: on the batch path (another language, the dictionary loaded, at
    least one candidate), a body that passes neither shape test of
    [fetchByOracleIds] makes the resolution complete with the error
    'Formato risposta API non riconosciuto', empty results and [cached]
    false. *)
Theorem unrecognized_batch_reports_format_error
    (ctx : Ctx) (term : jsstring) (h : Hook) (t0 t1 t2 : Z)
    (resp : Response) (body : value) :
  searchesByTerm ctx term = false ->
  isLangLoading ctx = false ->
  (minLength ctx <= Z.of_nat (List.length (trim term)))%Z ->
  coolingDown h t0 = false ->
  ok resp = true ->
  wrappedCards body = Ok None ->
  flatShape body = Ok false ->
  exists h',
    settle (performSearch ctx term) h t0
           [FetchSettled t1 (Ok resp); JsonSettled t2 (Ok body)] = (h', Returned tt) /\
    error h' = VStr (lit "Formato risposta API non riconosciuto") /\
    results h' = [] /\
    cached h' = VBool false /\
    translatedName h' = VNull /\
    loading h' = false.
Proof.
  intros Hterm Hload Hlen Hgate Hok Hwrapped Hflat.
  apply Z.ltb_ge in Hlen. unfold coolingDown in Hgate.
  assert (Hnorm : normalizeByOracleIds body = Ok unrecognizedFormat).
  { unfold normalizeByOracleIds. rewrite Hwrapped. cbn. now rewrite Hflat. }
  assert (Hitems : successItems unrecognizedFormat = Ok None) by reflexivity.
  assert (Herror : Js.get unrecognizedFormat (lit "error")
                   = Ok (VStr (lit "Formato risposta API non riconosciuto"))) by reflexivity.
  unfold searchesByTerm, candidates in Hterm.
  apply orb_false_iff in Hterm as [Hlang Hterm].
  rewrite Hload in Hterm. cbn in Hterm.
  apply orb_false_iff in Hterm as [Hun Hcand].
  unfold_engine. cbn. rewrite Hlen. cbn. rewrite Hlang, Hun.
  destruct (fuseDictionary ctx) as [fuse|]; [|discriminate].
  cbn. rewrite Hcand.
  destruct (abortControllerRef h); cbn; rewrite Hgate; cbn;
    rewrite Hok; cbn; rewrite Hnorm; cbn; rewrite nth_fresh; cbn;
    rewrite Hitems; cbn; rewrite Herror; cbn; rewrite nth_fresh; cbn;
    eexists; repeat split.
Qed.

Lemma unrecognized_batch_reports_format_error_witness :
  exists h',
    settle (performSearch italian (lit "sottomare")) initialHook 0
           [FetchSettled 10 (Ok (mkResponse 200 None)); JsonSettled 20 (Ok shapelessBody)]
      = (h', Returned tt) /\
    error h' = VStr (lit "Formato risposta API non riconosciuto") /\
    results h' = [] /\
    cached h' = VBool false /\
    translatedName h' = VNull /\
    loading h' = false.
Proof.
  apply (@unrecognized_batch_reports_format_error italian (lit "sottomare") initialHook 0 10 20
           (mkResponse 200 None) shapelessBody); at_sample.
Defined.

Lemma rmap_translateCard_unkeyed (m : list (jsstring * value)) (cards : list value) :
  forallb isObject cards = true ->
  forallb keyed cards = false ->
  rmap (translateCard m) cards = Raise Js.cannot_convert.
Proof.
  induction cards as [|p l IH]; [discriminate|].
  cbn [forallb]. intros Hobj Hkeyed.
  apply andb_true_iff in Hobj as [Hp Hl].
  change (rmap (translateCard m) (p :: l))
    with (rbind (translateCard m p) (fun y =>
          rbind (rmap (translateCard m) l) (fun ys => Ok (y :: ys)))).
  destruct (keyed p) eqn:Hkey.
  - rewrite (translateCard_defined m p Hp Hkey). cbn [rbind].
    rewrite (IH Hl Hkeyed). reflexivity.
  - rewrite (translateCard_unkeyed m p Hp Hkey). reflexivity.
Qed.

Lemma TypeError_is_not_abort : JsString.eqb (lit "TypeError") (lit "AbortError") = false.
Proof. reflexivity. Qed.

Lemma errorMessage_cannot_convert :
  errorMessage Js.cannot_convert = lit "Errore durante la ricerca".
Proof. reflexivity. Qed.

(** X28: on the batch path, when a card of the answer has a canonical id
    that does not convert to a property key (an object with a [toString]
    entry of its own), reading [idToPreferredMap] at it throws, and the
    resolution completes with the error 'Errore durante la ricerca',
    empty results and [cached] false: the cards that came with it are not
    shown. *)
Theorem unconvertible_id_fails_the_resolution
    (ctx : Ctx) (term : jsstring) (h : Hook) (t0 t1 t2 : Z)
    (resp : Response) (body data : value) (items : list value) :
  searchesByTerm ctx term = false ->
  isLangLoading ctx = false ->
  (minLength ctx <= Z.of_nat (List.length (trim term)))%Z ->
  coolingDown h t0 = false ->
  ok resp = true ->
  normalizeByOracleIds body = Ok data ->
  successItems data = Ok (Some items) ->
  forallb isObject items = true ->
  forallb keyed (filter (fun r => negb (isSetItem r)) items) = false ->
  exists h',
    settle (performSearch ctx term) h t0
           [FetchSettled t1 (Ok resp); JsonSettled t2 (Ok body)] = (h', Returned tt) /\
    error h' = VStr (lit "Errore durante la ricerca") /\
    results h' = [] /\
    cached h' = VBool false /\
    loading h' = false.
Proof.
  intros Hterm Hload Hlen Hgate Hok Hnorm Hitems Hobj Hkeyed.
  apply Z.ltb_ge in Hlen. unfold coolingDown in Hgate.
  set (cards := filter (fun r => negb (isSetItem r)) items) in *.
  assert (Hfilter : rfilter notSet items = Ok cards).
  { apply rfilter_defined. apply Forall_objects; auto. apply notSet_defined. }
  assert (Hcards : forallb isObject cards = true) by now apply forallb_filter.
  pose proof (fun m => rmap_translateCard_unkeyed m cards Hcards Hkeyed) as Hmap.
  unfold searchesByTerm, candidates in Hterm.
  apply orb_false_iff in Hterm as [Hlang Hterm].
  rewrite Hload in Hterm. cbn in Hterm.
  apply orb_false_iff in Hterm as [Hun Hcand].
  unfold_engine. cbn. rewrite Hlen. cbn. rewrite Hlang, Hun.
  destruct (fuseDictionary ctx) as [fuse|]; [|discriminate].
  cbn. rewrite Hcand.
  destruct (abortControllerRef h); cbn; rewrite Hgate; cbn;
    rewrite Hok; cbn; rewrite Hnorm; cbn; rewrite nth_fresh; cbn;
    rewrite Hitems; cbn; rewrite Hfilter; cbn; rewrite Hmap; cbn;
    rewrite TypeError_is_not_abort; cbn;
    rewrite errorMessage_cannot_convert; rewrite nth_fresh; cbn;
    eexists; repeat split.
Qed.

Lemma unconvertible_id_fails_the_resolution_witness :
  exists h',
    settle (performSearch italian (lit "sottomare")) initialHook 0
           [FetchSettled 10 (Ok (mkResponse 200 None)); JsonSettled 20 (Ok objectIdBatch)]
      = (h', Returned tt) /\
    error h' = VStr (lit "Errore durante la ricerca") /\
    results h' = [] /\
    cached h' = VBool false /\
    loading h' = false.
Proof.
  apply (@unconvertible_id_fails_the_resolution italian (lit "sottomare") initialHook 0 10 20
           (mkResponse 200 None) objectIdBatch objectIdBatch [undergroundSea; cardWithObjectId]);
    first [ at_sample | vm_compute; reflexivity ].
Defined.

(** ** The batch client *)

Lemma flat_is_not_wrapped (body : value) :
  flatShape body = Ok true -> wrappedCards body = Ok None.
Proof.
  intros H.
  assert (Hnn : nullish body = false)
    by (destruct body; try reflexivity; cbv in H; discriminate).
  unfold flatShape in H. unfold wrappedCards.
  rewrite !(get_defined body _ Hnn) in *. cbn in *.
  destruct (Js.truthy (prop body (lit "success"))); [|discriminate].
  destruct (prop body (lit "data")); cbn in *; try discriminate.
  reflexivity.
Qed.

(** X9: a body of the batch endpoint with a truthy [success] and a list
    directly under [data] is returned by [fetchByOracleIds] as it is, with
    every field it carries; the rate limit is reset on the way. *)
Theorem flat_batch_passes_through
    (ids : list jsstring) (h : Hook) (t0 t1 t2 : Z) (resp : Response) (body : value) :
  coolingDown h t0 = false ->
  ok resp = true ->
  flatShape body = Ok true ->
  settle (fetchByOracleIds ids) h t0
         [FetchSettled t1 (Ok resp); JsonSettled t2 (Ok body)] =
    (resetRateLimit h, Returned body).
Proof.
  intros Hgate Hok Hflat. unfold coolingDown in Hgate.
  unfold settle, fetchByOracleIds, rateLimitGate, checkResponse. cbn.
  rewrite Hgate. cbn. rewrite Hok. cbn.
  unfold normalizeByOracleIds. rewrite (flat_is_not_wrapped body Hflat). cbn.
  rewrite Hflat. reflexivity.
Qed.

Lemma flat_batch_passes_through_witness :
  settle (fetchByOracleIds [lit "abc"]) throttledHook 40000
         [FetchSettled 40100 (Ok (mkResponse 200 None)); JsonSettled 40200 (Ok termAnswer)] =
    (resetRateLimit throttledHook, Returned termAnswer).
Proof.
  apply (@flat_batch_passes_through [lit "abc"] throttledHook 40000 40100 40200
           (mkResponse 200 None) termAnswer); at_sample.
Defined.

Lemma or_absorbs (a b : value) : Js.or (Js.or a b) b = Js.or a b.
Proof.
  unfold Js.or. destruct (Js.truthy a) eqn:Ha; [now rewrite Ha|].
  destruct (Js.truthy b); reflexivity.
Qed.

Lemma firstAvailable_or_null (l : list value) :
  Js.or (firstAvailable l) VNull = firstAvailable l.
Proof.
  unfold firstAvailable, Js.or.
  destruct (filter Js.truthy l) as [|x l'] eqn:Hl; [reflexivity|].
  assert (Hx : In x (filter Js.truthy l)) by (rewrite Hl; left; reflexivity).
  apply filter_In in Hx as [_ Hx]. now rewrite Hx.
Qed.

Lemma cardToPrinting_inv (card p : value) :
  cardToPrinting card = Ok p -> nullish card = false /\ p = printingOf card.
Proof.
  intros H.
  assert (Hnn : nullish card = false)
    by (destruct card; try reflexivity; cbv in H; discriminate).
  split; [exact Hnn|].
  unfold cardToPrinting in H. rewrite !(get_defined card _ Hnn) in H. cbn in H.
  rewrite or_chain_firstAvailable in H. now injection H as <-.
Qed.

(** X10: the conversion of a card of the wrapped shape is idempotent: the
    printing it yields converts to itself, and passes the filter on the
    two ids exactly when the card did. *)
Theorem cardToPrinting_idempotent (card p : value) :
  cardToPrinting card = Ok p ->
  cardToPrinting p = Ok p /\ validCard p = validCard card.
Proof.
  intros H. destruct (cardToPrinting_inv card H) as [Hnn ->].
  split.
  - rewrite cardToPrinting_defined by reflexivity. f_equal.
    unfold printingOf at 1.
    change (prop (printingOf card) (lit "printing_id")) with (prop card (lit "printing_id")).
    change (prop (printingOf card) (lit "oracle_id")) with (prop card (lit "oracle_id")).
    change (prop (printingOf card) (lit "name")) with (prop card (lit "name")).
    change (prop (printingOf card) (lit "set_name"))
      with (Js.or (prop card (lit "set_name")) (VStr [])).
    change (prop (printingOf card) (lit "collector_number"))
      with (Js.or (prop card (lit "collector_number")) (VStr [])).
    change (prop (printingOf card) (lit "image_uri_small"))
      with (firstAvailable [ prop card (lit "image_uri_small");
                             prop card (lit "front_image_url");
                             prop card (lit "image_uri_normal") ]).
    change (prop (printingOf card) (lit "front_image_url")) with VUndefined.
    change (prop (printingOf card) (lit "image_uri_normal")) with VUndefined.
    rewrite !or_absorbs.
    rewrite <- (or_chain_firstAvailable (firstAvailable _) VUndefined VUndefined).
    change (Js.or VUndefined (Js.or VUndefined VNull)) with VNull.
    now rewrite firstAvailable_or_null.
  - rewrite validCard_defined by reflexivity.
    unfold validCard. rewrite !(get_defined card _ Hnn). unfold hasBothIds.
    change (prop (printingOf card) (lit "printing_id")) with (prop card (lit "printing_id")).
    change (prop (printingOf card) (lit "oracle_id")) with (prop card (lit "oracle_id")).
    cbn. destruct (Js.truthy (prop card (lit "oracle_id"))); reflexivity.
Qed.

Lemma cardToPrinting_idempotent_witness :
  cardToPrinting (printingOf cardWithFrontImage) = Ok (printingOf cardWithFrontImage) /\
  validCard (printingOf cardWithFrontImage) = validCard cardWithFrontImage.
Proof.
  apply (@cardToPrinting_idempotent cardWithFrontImage (printingOf cardWithFrontImage)).
  vm_compute. reflexivity.
Defined.

(** ** The hits of the fuzzy index *)

Lemma find_snoc {A} (f : A -> bool) (l : list A) (x : A) :
  find f (rev (x :: l)) =
  match find f (rev l) with
  | Some y => Some y
  | None => if f x then Some x else None
  end.
Proof.
  simpl. induction (rev l) as [|y l' IH]; simpl; [reflexivity|].
  destruct (f y); auto.
Qed.

Lemma lookup_assignPreferred (k : jsstring) (fuseResults : list FuseResult)
    (m : list (jsstring * value)) :
  Js.lookup k (fold_left assignPreferred fuseResults m) =
  if JsString.eqb k (lit "__proto__") then Js.lookup k m
  else match find (fun r => JsString.eqb (entry_id (item r)) k) (rev fuseResults) with
       | Some r => Some (VStr (entry_preferred (item r)))
       | None => Js.lookup k m
       end.
Proof.
  revert m. induction fuseResults as [|r l IH]; intros m.
  - cbn. destruct (JsString.eqb k (lit "__proto__")); reflexivity.
  - cbn [fold_left]. rewrite IH. unfold assignPreferred.
    destruct (JsString.eqb k (lit "__proto__")) eqn:Hproto.
    + apply jsstring_eqb_eq in Hproto. subst k.
      destruct (JsString.eqb (entry_id (item r)) (lit "__proto__")) eqn:E; [reflexivity|].
      now apply lookup_set_other.
    + rewrite find_snoc. destruct (find _ (rev l)); [reflexivity|].
      destruct (JsString.eqb (entry_id (item r)) k) eqn:E.
      * apply jsstring_eqb_eq in E. subst k. rewrite Hproto. apply lookup_set_same.
      * destruct (JsString.eqb (entry_id (item r)) (lit "__proto__")); [reflexivity|].
        now apply lookup_set_other.
Qed.

(** X11: [idToPreferredMap] has, as an entry of its own for a canonical id
    other than ['__proto__'], the preferred name of the last hit with
    that id, and no entry of its own for an id no hit carries, nor for
    ['__proto__'], to which assigning a string does nothing.  Read at a
    string key, the map answers its own entry when it has one, the member
    of [Object.prototype] of that name when it has none and the key names
    one, and [undefined] otherwise. *)
Theorem idToPreferredMap_holds_last_hit (k : jsstring) (fuseResults : list FuseResult) :
  let idToPreferredMap := buildIdToPreferredMap fuseResults in
  Js.lookup k idToPreferredMap =
    (if JsString.eqb k (lit "__proto__") then None
     else match lastHit k fuseResults with
          | Some r => Some (VStr (entry_preferred (item r)))
          | None => None
          end) /\
  preferredOf idToPreferredMap (VStr k) =
    Ok (if JsString.eqb k (lit "__proto__") then VNative k
        else match lastHit k fuseResults with
             | Some r => VStr (entry_preferred (item r))
             | None => if Js.inherited k then VNative k else VUndefined
             end).
Proof.
  cbv zeta. unfold buildIdToPreferredMap, lastHit, preferredOf.
  cbn [Js.toString rbind]. unfold Js.member.
  rewrite lookup_assignPreferred. cbn [Js.lookup].
  destruct (JsString.eqb k (lit "__proto__")) eqn:Hproto.
  - apply jsstring_eqb_eq in Hproto. subst k. split; reflexivity.
  - destruct (find _ (rev fuseResults)); split; reflexivity.
Qed.

Lemma unique_cons (seen : list jsstring) (x : jsstring) (ids : list jsstring) :
  unique seen (x :: ids) =
  if existsb (JsString.eqb x) seen then unique seen ids else x :: unique (x :: seen) ids.
Proof. reflexivity. Qed.

Lemma existsb_eqb_In (x : jsstring) (seen : list jsstring) :
  existsb (JsString.eqb x) seen = true <-> In x seen.
Proof.
  rewrite existsb_exists. split.
  - intros [y [Hy E]]. apply jsstring_eqb_eq in E. now subst.
  - intros H. exists x. split; [exact H|apply jsstring_eqb_refl].
Qed.

Lemma unique_In (ids seen : list jsstring) (x : jsstring) :
  In x (unique seen ids) <-> In x ids /\ ~ In x seen.
Proof.
  revert seen. induction ids as [|y ids IH]; intros seen.
  - cbn. tauto.
  - rewrite unique_cons.
    destruct (existsb (JsString.eqb y) seen) eqn:E.
    + apply existsb_eqb_In in E. rewrite IH. cbn. split.
      * tauto.
      * intros [[->|H] Hn]; tauto.
    + assert (Hy : ~ In y seen).
      { intros H. apply existsb_eqb_In in H. congruence. }
      cbn [In]. rewrite IH. cbn [In]. split.
      * intros [->|[H Hn]]; [tauto|]. split; [tauto|]. intros Hs. apply Hn. now right.
      * intros [[->|H] Hn]; [now left|].
        destruct (JsString.eqb y x) eqn:Eyx.
        -- apply jsstring_eqb_eq in Eyx. now left.
        -- right. split; [exact H|]. intros [->|Hs]; [|tauto].
           now rewrite jsstring_eqb_refl in Eyx.
Qed.

Lemma unique_NoDup (ids seen : list jsstring) : NoDup (unique seen ids).
Proof.
  revert seen. induction ids as [|y ids IH]; intros seen.
  - constructor.
  - rewrite unique_cons. destruct (existsb (JsString.eqb y) seen); [apply IH|].
    constructor; [|apply IH].
    rewrite unique_In. intros [_ H]. apply H. now left.
Qed.

(** X12: the canonical ids a resolution asks the batch endpoint for are
    the ids of the hits, each exactly once. *)
Theorem batch_ids_are_distinct (fuseResults : list FuseResult) :
  let oracleIds := unique [] (map (fun r => entry_id (item r)) fuseResults) in
  NoDup oracleIds /\
  Forall (fun r => In (entry_id (item r)) oracleIds) fuseResults /\
  Forall (fun id => exists r, In r fuseResults /\ entry_id (item r) = id) oracleIds.
Proof.
  cbv zeta. split; [apply unique_NoDup|]. split; apply Forall_forall.
  - intros r Hr. apply unique_In. split; [|auto].
    exact (in_map (fun r => entry_id (item r)) fuseResults r Hr).
  - intros id Hid. apply unique_In in Hid as [Hid _].
    apply in_map_iff in Hid as [r [<- Hr]]. now exists r.
Qed.

(** ** Debounce and teardown *)

Lemma abort_at_idempotent (c : nat) (l : list bool) :
  abort_at c (abort_at c l) = abort_at c l.
Proof.
  revert c; induction l as [|b l IH]; intros [|c]; simpl; auto.
  now rewrite IH.
Qed.

(** The two teardown effects of the hook do the same; running both
    amounts to running one. *)
Lemma cleanup_idempotent (w : World) : cleanup (cleanup w) = cleanup w.
Proof.
  destruct w as [[r l e c t [a|] rl cs] tm f n]; unfold cleanup; cbn;
    [rewrite abort_at_idempotent|]; reflexivity.
Qed.

Lemma cleanup_after_render (w : World) (ctx : Ctx) (term : jsstring) :
  cleanup (step w (Render ctx term)) = cleanup w.
Proof.
  unfold step.
  change (cleanup (mkWorld (hook (cleanup w)) (Some (ctx, term)) (inflight w) (network w)))
    with (cleanup (cleanup w)).
  apply cleanup_idempotent.
Qed.

(** X13: a render that follows another before the debounce timer has
    fired replaces the pending search: the session goes on exactly as if
    the earlier term had never been rendered, so that term is never
    searched. *)
Theorem rerender_replaces_pending_search
    (w : World) (ctx1 ctx2 : Ctx) (term1 term2 : jsstring) (es : list Event) :
  steps w (Render ctx1 term1 :: Render ctx2 term2 :: es) = steps w (Render ctx2 term2 :: es).
Proof.
  unfold steps. cbn [fold_left]. f_equal.
  unfold step at 1 3.
  now rewrite cleanup_after_render.
Qed.

(** X14: unmounting cancels a search that is still waiting for its
    debounce timer: whatever timers fire afterwards, and however often the
    teardown runs, the session stays in the state the teardown left, with
    no timer and no request added. *)
Theorem unmount_cancels_pending_search
    (w : World) (ctx : Ctx) (term : jsstring) (es : list Event) :
  forallb afterTeardown es = true ->
  steps w (Render ctx term :: Unmount :: es) = cleanup w /\
  timeoutRef (steps w (Render ctx term :: Unmount :: es)) = None /\
  network (steps w (Render ctx term :: Unmount :: es)) = network w.
Proof.
  intros Hes.
  assert (H : steps w (Render ctx term :: Unmount :: es) = cleanup w).
  { unfold steps. cbn [fold_left].
    change (step (step w (Render ctx term)) Unmount) with (cleanup (step w (Render ctx term))).
    rewrite cleanup_after_render.
    induction es as [|e es IH]; [reflexivity|].
    cbn [forallb] in Hes. apply andb_true_iff in Hes as [He Hes].
    cbn [fold_left].
    destruct e as [c t|now|call a|]; try discriminate.
    - cbn [step]. change (timeoutRef (cleanup w)) with (@None (Ctx * jsstring)).
      cbn iota. now apply IH.
    - cbn [step]. rewrite cleanup_idempotent. now apply IH. }
  rewrite H. repeat split.
Qed.

Lemma unmount_cancels_pending_search_witness :
  steps supersededSession
        (Render english (lit "under") :: Unmount :: [TimerFires 1200; Unmount; TimerFires 1500])
    = cleanup supersededSession /\
  timeoutRef (steps supersededSession
        (Render english (lit "under") :: Unmount :: [TimerFires 1200; Unmount; TimerFires 1500]))
    = None /\
  network (steps supersededSession
        (Render english (lit "under") :: Unmount :: [TimerFires 1200; Unmount; TimerFires 1500]))
    = network supersededSession.
Proof.
  apply (@unmount_cancels_pending_search supersededSession english (lit "under")
           [TimerFires 1200; Unmount; TimerFires 1500]); at_sample.
Defined.

(** ** Invariants of a session *)

Section InvariantFacts.

Variable P : Hook -> Prop.
Hypothesis P_cleanup : forall w, P (hook w) -> P (hook (cleanup w)).
Hypothesis P_performSearch : forall ctx term, keeps P 2 (performSearch ctx term).

Lemma keptSlot_nth (l : list (option (Outcome unit))) (i : nat) :
  Forall (keptSlot P) l -> keptSlot P (nth i l None).
Proof.
  intros Hl. revert i. induction Hl as [|y l Hy Hl IH]; intros [|i]; simpl; auto.
Qed.

Lemma suspended_kept (n : nat) (o : Outcome unit) :
  match o with
  | Awaiting _ k => match n with O => False | S n' => forall x, keeps P n' (k x) end
  | _ => True
  end ->
  keptSlot P (suspended o).
Proof.
  destruct o as [a|e|X op k]; cbn; auto.
  destruct n as [|n']; [contradiction|]. intros H. exists n'. exact H.
Qed.

Lemma resume_kept (h : Hook) (o : Outcome unit) (a : Answer) :
  P h -> keptSlot P (Some o) ->
  P (fst (resume (h, o) a)) /\ keptSlot P (suspended (snd (resume (h, o) a))).
Proof.
  intros Hc Hs. destruct o as [x|e|X op k]; cbn; auto.
  destruct Hs as [n Hk]. revert k Hk.
  destruct op; intros k Hk; cbn; try (split; [exact Hc | exists n; exact Hk]).
  - destruct a as [now r|now r]; cbn; [|split; [exact Hc | exists n; exact Hk]].
    destruct n as [|n']; destruct (Hk r now h Hc) as [Hc' Hnext]; (split; [exact Hc'|]);
      revert Hnext; destruct (snd (run now (k r) h)); cbn; auto; intros Hnext.
    + contradiction.
    + exists n'. exact Hnext.
  - destruct a as [now r'|now r']; cbn; [split; [exact Hc | exists n; exact Hk]|].
    destruct n as [|n']; destruct (Hk r' now h Hc) as [Hc' Hnext]; (split; [exact Hc'|]);
      revert Hnext; destruct (snd (run now (k r') h)); cbn; auto; intros Hnext.
    + contradiction.
    + exists n'. exact Hnext.
Qed.

Lemma step_invariant (w : World) (e : Event) : invariant P w -> invariant P (step w e).
Proof.
  intros Hw. destruct e as [ctx term|now|call a|]; unfold step.
  - destruct Hw as [Hc Hf]. split; cbn [hook inflight]; [now apply P_cleanup|exact Hf].
  - destruct (timeoutRef w) as [[ctx term]|]; [|exact Hw].
    destruct Hw as [Hc Hf].
    pose proof (P_performSearch ctx term) as Hp. cbn [keeps] in Hp.
    destruct (Hp now (hook w) Hc) as [Hc' Hnext]. clear Hp.
    destruct (run now (performSearch ctx term) (hook w)) as [h' o].
    cbn [fst snd] in Hc', Hnext.
    destruct (requested o); split; cbn [hook inflight]; auto.
    apply Forall_app. split; [exact Hf|]. constructor; [|constructor].
    apply (suspended_kept 2 o). exact Hnext.
  - destruct Hw as [Hc Hf].
    pose proof (@keptSlot_nth (inflight w) call Hf) as Hslot.
    destruct (nth call (inflight w) None) as [o|] eqn:Ho; [|split; assumption].
    destruct (@resume_kept (hook w) o a Hc Hslot) as [Hc' Hs'].
    destruct (resume (hook w, o) a) as [h' o']. cbn [fst snd] in Hc', Hs'.
    split; cbn [hook inflight]; [exact Hc'|]. apply Forall_replace; assumption.
  - destruct Hw as [Hc Hf]. split; [now apply P_cleanup|exact Hf].
Qed.

Lemma steps_invariant (es : list Event) (w : World) :
  invariant P w -> invariant P (steps w es).
Proof.
  revert w. induction es as [|e es IH]; intros w Hw; [exact Hw|].
  apply (IH (step w e)). now apply step_invariant.
Qed.

End InvariantFacts.

(** Runs one stretch symbolically, then the stretches after it; [tac]
    closes the invariant at the end of each. *)
Ltac stage_with tac :=
  cbn; repeat (first [ rewrite nth_fresh | split_any ]; cbn);
  first [ split; [tac | exact I]
        | split; [tac | intros ? ? ? ?; stage_with tac ] ].

(** *** Every result is tagged *)

Lemma rmap_Forall {A B} (f : A -> Result B) (Q : B -> Prop) (l : list A) (l' : list B) :
  (forall x y, f x = Ok y -> Q y) -> rmap f l = Ok l' -> Forall Q l'.
Proof.
  intros Hf. revert l'. induction l as [|x l IH]; intros l'.
  - intros [= <-]. constructor.
  - change (rmap f (x :: l))
      with (rbind (f x) (fun y => rbind (rmap f l) (fun ys => Ok (y :: ys)))).
    destruct (f x) as [y|e] eqn:Hx; cbn; [|discriminate].
    destruct (rmap f l) as [ys|e]; cbn; [|discriminate].
    intros [= <-]. constructor; eauto.
Qed.

Lemma set_type_tagged (t : jsstring) (ps : list (jsstring * value)) :
  t = lit "card" \/ t = lit "set" ->
  wellTagged (VObj (Js.set (lit "type") (VStr t) ps)).
Proof.
  intros Ht. split; [reflexivity|]. cbn [prop]. rewrite lookup_set_same.
  destruct Ht as [->| ->]; auto.
Qed.

Lemma tagCanonical_tagged (r q : value) : tagCanonical r = Ok q -> wellTagged q.
Proof.
  unfold tagCanonical. destruct (Js.get r (lit "type")) as [t|e]; cbn; [|discriminate].
  destruct (Js.is_str t (lit "set")); intros [= <-]; apply set_type_tagged; auto.
Qed.

Lemma tagUntranslated_tagged (r q : value) : tagUntranslated r = Ok q -> wellTagged q.
Proof.
  unfold tagUntranslated. destruct (Js.get r (lit "type")) as [t|e]; cbn; [|discriminate].
  destruct (Js.is_str t (lit "set")).
  - intros [= <-]; apply set_type_tagged; auto.
  - destruct (Js.get r (lit "name")) as [n|e]; cbn; [|discriminate].
    intros [= <-]; apply set_type_tagged; auto.
Qed.

Lemma translateCard_tagged (m : list (jsstring * value)) (p q : value) :
  translateCard m p = Ok q -> wellTagged q.
Proof.
  unfold translateCard. destruct (Js.get p (lit "oracle_id")) as [t|e]; cbn; [|discriminate].
  destruct (preferredOf m t) as [preferredName|e]; cbn; [|discriminate].
  destruct (Js.get p (lit "name")) as [n|e]; cbn; [|discriminate].
  intros [= <-]; apply set_type_tagged; auto.
Qed.

Ltac tagged_now :=
  unfold tagged in *; cbn in *;
  first [ assumption
        | constructor
        | eapply rmap_Forall; [|eassumption];
          first [ exact tagCanonical_tagged | exact tagUntranslated_tagged
                | apply translateCard_tagged ] ].

Lemma performSearch_keeps_tagged (ctx : Ctx) (term : jsstring) :
  keeps tagged 2 (performSearch ctx term).
Proof.
  intros now h Hh.
  unfold_engine. stage_with tagged_now.
Qed.

Lemma session_tagged (es : list Event) : tagged (hook (steps initialWorld es)).
Proof.
  assert (H : invariant tagged (steps initialWorld es)).
  { apply steps_invariant.
    - intros w Hw. unfold cleanup. cbn [hook].
      destruct (abortControllerRef (hook w)); exact Hw.
    - apply performSearch_keeps_tagged.
    - split; constructor. }
  apply H.
Qed.

(** X15: whatever the server answers and however the resolutions of a
    session interleave, every result the hook holds is an object whose
    [type] is ['card'] or ['set']. *)
Theorem session_results_are_tagged (es : list Event) :
  Forall (fun result =>
            isObject result = true /\
            (prop result (lit "type") = VStr (lit "card") \/
             prop result (lit "type") = VStr (lit "set")))
         (results (hook (steps initialWorld es))).
Proof.
  exact (session_tagged es).
Qed.

(** *** At most one controller is live *)

Lemma nth_abort_at (c i : nat) (l : list bool) :
  nth i (abort_at c l) false = false ->
  nth i l false = false /\ ((i < List.length l)%nat -> i <> c).
Proof.
  revert c i. induction l as [|b l IH]; intros [|c] [|i]; cbn; intros H;
    try discriminate; try (split; [assumption|lia]).
  destruct (IH c i H) as [H1 H2]. split; [exact H1|]. intros Hi.
  assert (i <> c) by (apply H2; lia). lia.
Qed.

Lemma oneLive_fresh (h : Hook) (r : list value) (l : bool) (e c t : value) (rl : RateLimit) :
  oneLive h ->
  let cs := match abortControllerRef h with
            | Some c => abort_at c (controllers h)
            | None => controllers h
            end in
  oneLive (mkHook r l e c t (Some (List.length cs)) rl (cs ++ [false])).
Proof.
  intros [Hex Hlive] cs. split; cbn.
  - intros c0 [= <-]. rewrite length_app. cbn. lia.
  - intros i Hi Hnth. rewrite length_app in Hi. cbn in Hi.
    destruct (Nat.eq_dec i (List.length cs)) as [->|Hne]; [reflexivity|].
    exfalso. assert (Hlt : (i < List.length cs)%nat) by lia.
    rewrite app_nth1 in Hnth by exact Hlt.
    subst cs. destruct (abortControllerRef h) as [c0|] eqn:Href.
    + rewrite abort_at_length in Hlt.
      apply nth_abort_at in Hnth as [Hnth Hc0].
      specialize (Hlive i Hlt Hnth). injection Hlive as ->. now apply Hc0.
    + specialize (Hlive i Hlt Hnth). discriminate.
Qed.

Lemma oneLive_fields (h : Hook) (r : list value) (l : bool) (e c t : value)
    (rl : RateLimit) (ref : option nat) :
  abortControllerRef h = ref ->
  oneLive h ->
  oneLive (mkHook r l e c t ref rl (controllers h)).
Proof. intros <- H. exact H. Qed.

Ltac oneLive_now :=
  first [ assumption
        | apply oneLive_fields; [reflexivity|assumption]
        | match goal with
          | H : oneLive ?h, E : abortControllerRef ?h = _ |- _ =>
              apply oneLive_fields; [exact E|exact H]
          end
        | match goal with
          | H : oneLive ?h, E : abortControllerRef ?h = _ |- _ =>
              let F := fresh in
              pose proof (@oneLive_fresh h) as F; cbv zeta in F; rewrite E in F;
              apply F; exact H
          end ].

Lemma performSearch_keeps_oneLive (ctx : Ctx) (term : jsstring) :
  keeps oneLive 2 (performSearch ctx term).
Proof.
  intros now h Hh.
  unfold_engine. stage_with oneLive_now.
Qed.

Lemma cleanup_oneLive (w : World) : oneLive (hook w) -> oneLive (hook (cleanup w)).
Proof.
  intros H. unfold cleanup. cbn [hook].
  destruct (abortControllerRef (hook w)) as [c|] eqn:Href; [|exact H].
  destruct H as [Hex Hlive]. split; cbn.
  - intros c0 [= <-]. rewrite abort_at_length. now apply Hex.
  - intros i Hi Hnth. rewrite abort_at_length in Hi.
    apply nth_abort_at in Hnth as [Hnth _]. rewrite <- Href. now apply Hlive.
Qed.

Lemma session_oneLive (es : list Event) : oneLive (hook (steps initialWorld es)).
Proof.
  assert (H : invariant oneLive (steps initialWorld es)).
  { apply steps_invariant.
    - exact cleanup_oneLive.
    - apply performSearch_keeps_oneLive.
    - split; [|constructor]. split; cbn; [discriminate|lia]. }
  apply H.
Qed.

(** X16: in every state a session reaches, whatever the server answers
    and however its resolutions interleave, a controller that is not the
    current one is aborted: starting a resolution aborts its predecessor,
    so at most one resolution at a time passes the guard on its own
    controller.  After the unmount every controller is aborted. *)
Theorem superseded_controllers_are_aborted (es : list Event) :
  let h := hook (steps initialWorld es) in
  let unmounted := hook (steps initialWorld (es ++ [Unmount])) in
  (forall i, (i < List.length (controllers h))%nat ->
             abortControllerRef h <> Some i ->
             nth i (controllers h) false = true) /\
  Forall (fun aborted => aborted = true) (controllers unmounted).
Proof.
  cbv zeta. pose proof (session_oneLive es) as [Hex Hlive]. split.
  - intros i Hi Hne. destruct (nth i _ false) eqn:Hnth; [reflexivity|].
    exfalso. apply Hne. now apply Hlive.
  - unfold steps. rewrite fold_left_app. cbn [fold_left step].
    fold (steps initialWorld es). set (w := steps initialWorld es) in *.
    apply Forall_forall. intros b Hb.
    destruct b; [reflexivity|exfalso].
    apply (In_nth _ _ false) in Hb as [i [Hi Hnth]].
    unfold cleanup in Hi, Hnth. cbn [hook] in Hi, Hnth.
    destruct (abortControllerRef (hook w)) as [c|] eqn:Href; cbn in Hi, Hnth.
    + rewrite abort_at_length in Hi.
      apply nth_abort_at in Hnth as [Hnth Hc].
      specialize (Hlive i Hi Hnth). injection Hlive as ->. now apply Hc.
    + specialize (Hlive i Hi Hnth). discriminate.
Qed.

(** ** Supersession, at sample sessions *)

Lemma stale_body_is_discarded_witness :
  let answered :=
    settle (performSearch italian (lit "sottomare")) initialHook 0
           [FetchSettled 10 (Ok (mkResponse 200 None))] in
  exists g',
    resume (supersedingHook, snd answered) (JsonSettled 20 (Ok batchAnswer))
      = (g', Returned tt) /\
    results g' = results supersedingHook /\
    error g' = error supersedingHook /\
    cached g' = cached supersedingHook /\
    translatedName g' = translatedName supersedingHook /\
    loading g' = (if currentAborted supersedingHook then loading supersedingHook else false).
Proof.
  apply (@stale_body_is_discarded italian (lit "sottomare") initialHook supersedingHook 0 10 20
           (mkResponse 200 None) batchAnswer
           (VObj [ (lit "success", VBool true); (lit "cached", VBool false);
                   (lit "data", VArr [undergroundSea]) ])
           (lit "sottomare"));
    first [ at_sample | vm_compute; reflexivity ].
Defined.

Lemma prompt_abort_commits_nothing_witness :
  resume (cleanedHook, snd (run 0 (performSearch english (lit "und")) initialHook))
         (FetchSettled 10 (Raise AbortError))
    = (cleanedHook, Returned tt).
Proof.
  apply (@prompt_abort_commits_nothing english (lit "und") initialHook cleanedHook 0 10);
    at_sample.
Defined.

(** * Properties of the search bar *)

Import SearchBar.

Arguments Uri.codePoint : simpl never.

Ltac unfold_handlers :=
  unfold handled, handleKeyDown, handleSearch, handleResultClick, navigateToTerm, close,
    navigate, setIsOpen, setActiveIndex, setSearchQuery, setIsLangDropdownOpen,
    hbind, hret, hlift, update, issue.

(** ** Escaping of the submitted term *)

Lemma hexDigit_safe (n : N) : (n < 16)%N -> urlSafe (Uri.hexDigit n) = true.
Proof.
  intros Hn.
  assert (H : forallb (fun k => urlSafe (Uri.hexDigit (N.of_nat k))) (seq 0 16) = true)
    by reflexivity.
  rewrite forallb_forall in H. specialize (H (N.to_nat n)).
  rewrite N2Nat.id in H. apply H. apply in_seq. lia.
Qed.

Lemma percent_safe (octet : N) : (octet < 256)%N -> forallb urlSafe (Uri.percent octet) = true.
Proof.
  intros Ho. unfold Uri.percent. cbn [forallb].
  rewrite !hexDigit_safe; [reflexivity| |].
  - apply N.mod_lt. discriminate.
  - apply N.Div0.div_lt_upper_bound. exact Ho.
Qed.

Lemma utf8_octets (cp : N) :
  (cp < 1114112)%N -> forallb (fun o => (o <? 256)%N) (Uri.utf8 cp) = true.
Proof.
  intros Hcp. unfold Uri.utf8.
  destruct (cp <? 128)%N eqn:H1; [apply N.ltb_lt in H1|apply N.ltb_ge in H1].
  { cbn. rewrite andb_true_r. apply N.ltb_lt. lia. }
  assert (Hm : forall x, (128 + x mod 64 <? 256)%N = true).
  { intros x. apply N.ltb_lt. pose proof (N.mod_lt x 64 ltac:(discriminate)). lia. }
  destruct (cp <? 2048)%N eqn:H2; [apply N.ltb_lt in H2|apply N.ltb_ge in H2].
  { cbn [forallb]. rewrite Hm, andb_true_r. apply N.ltb_lt.
    assert (cp / 64 < 32)%N by (apply N.Div0.div_lt_upper_bound; lia). lia. }
  destruct (cp <? 65536)%N eqn:H3; [apply N.ltb_lt in H3|apply N.ltb_ge in H3].
  { cbn [forallb]. rewrite !Hm, !andb_true_r. apply N.ltb_lt.
    assert (cp / 4096 < 16)%N by (apply N.Div0.div_lt_upper_bound; lia). lia. }
  cbn [forallb]. rewrite !Hm, !andb_true_r. apply N.ltb_lt.
  assert (cp / 262144 < 5)%N by (apply N.Div0.div_lt_upper_bound; lia). lia.
Qed.

Lemma escapes_safe (cp : N) :
  (cp < 1114112)%N -> forallb urlSafe (flat_map Uri.percent (Uri.utf8 cp)) = true.
Proof.
  intros Hcp. pose proof (@utf8_octets cp Hcp) as H.
  induction (Uri.utf8 cp) as [|o l IH]; [reflexivity|].
  cbn [forallb] in H. apply andb_true_iff in H as [Ho Hl].
  cbn [flat_map]. rewrite forallb_app, percent_safe, IH; auto.
  now apply N.ltb_lt.
Qed.

(** What [encodeURIComponent] returns holds unreserved characters and
    escapes only. *)
Lemma encodeURIComponent_safe (s r : jsstring) :
  codeUnits s = true ->
  Uri.encodeURIComponent s = Ok r ->
  forallb urlSafe r = true.
Proof.
  assert (H : forall n s r, (List.length s <= n)%nat -> codeUnits s = true ->
              Uri.encodeURIComponent s = Ok r -> forallb urlSafe r = true).
  { clear s r. induction n as [|n IH]; intros s r Hn Hs.
    - destruct s; [|cbn in Hn; lia]. intros [= <-]. reflexivity.
    - destruct s as [|c s']; [intros [= <-]; reflexivity|].
      cbn [codeUnits forallb] in Hs. apply andb_true_iff in Hs as [Hc Hs'].
      apply N.ltb_lt in Hc. cbn [List.length] in Hn.
      cbn [Uri.encodeURIComponent].
      destruct (Uri.unreserved c) eqn:Hu.
      { destruct (Uri.encodeURIComponent s') as [r'|e] eqn:Hr; cbn [rbind]; [|discriminate].
        intros [= <-]. cbn [forallb]. unfold urlSafe at 1. rewrite Hu. cbn [orb].
        apply (IH s' r'); auto. lia. }
      destruct (Uri.isTrailSurrogate c); [discriminate|].
      destruct (Uri.isLeadSurrogate c) eqn:Hlead.
      { destruct s' as [|d s'']; [discriminate|].
        destruct (Uri.isTrailSurrogate d) eqn:Htrail; [|discriminate].
        destruct (Uri.encodeURIComponent s'') as [r'|e] eqn:Hr; cbn [rbind]; [|discriminate].
        intros [= <-]. rewrite forallb_app.
        cbn [codeUnits forallb] in Hs'. apply andb_true_iff in Hs' as [Hd Hs''].
        rewrite (IH s'' r'); auto; [|cbn in Hn; lia].
        rewrite escapes_safe; [reflexivity|].
        unfold Uri.isLeadSurrogate in Hlead. unfold Uri.isTrailSurrogate in Htrail.
        apply andb_true_iff in Hlead as [L1 L2]. apply andb_true_iff in Htrail as [T1 T2].
        apply N.leb_le in L1, L2, T1, T2. unfold Uri.codePoint. lia. }
      destruct (Uri.encodeURIComponent s') as [r'|e] eqn:Hr; cbn [rbind]; [|discriminate].
      intros [= <-]. rewrite forallb_app.
      rewrite (IH s' r'); auto; [|lia].
      rewrite escapes_safe; [reflexivity|lia]. }
  intros Hs Hr. exact (H (List.length s) s r (le_n _) Hs Hr).
Qed.

(** ** Submitting a search *)

(** X19: a query with fewer than two characters once trimmed reaches no
    endpoint: submitting it changes nothing and navigates nowhere, and
    the resolution its render schedules issues no request and leaves the
    suggestions empty. *)
Theorem short_query_reaches_no_endpoint (v : View) (w : World) (now : Z) :
  (List.length (trim (searchQuery (state v))) < 2)%nat ->
  handled v (handleSearch v None) = (state v, [], Ok tt) /\
  network (steps w [render v; TimerFires now]) = network w /\
  results (hook (steps w [render v; TimerFires now])) = [].
Proof.
  intros Hshort. split.
  - unfold_handlers. apply Nat.ltb_lt in Hshort. rewrite Hshort, orb_true_r. reflexivity.
  - assert (Hmin : (Z.of_nat (List.length (trim (searchQuery (state v)))) <? 2)%Z = true).
    { apply Z.ltb_lt. lia. }
    unfold steps, render. cbn [fold_left]. unfold step at 1 2. cbn [timeoutRef hook].
    unfold performSearch. cbn. rewrite Hmin. cbn. split; reflexivity.
Qed.

Lemma short_query_reaches_no_endpoint_witness :
  handled shortView (handleSearch shortView None) = (state shortView, [], Ok tt) /\
  network (steps supersededSession [render shortView; TimerFires 1200])
    = network supersededSession /\
  results (hook (steps supersededSession [render shortView; TimerFires 1200])) = [].
Proof.
  apply (@short_query_reaches_no_endpoint shortView supersededSession 1200).
  vm_compute. lia.
Defined.

(** X20: submitting a query of at least two characters once trimmed, that
    [encodeURIComponent] accepts, closes the dropdown, clears the
    highlight and navigates exactly once: to the search by ids, with the
    distinct ids of the hits, the selected language and the escaped term,
    when the language is not the canonical one and the dictionary has
    hits; to the canonical term search with [lang=en] otherwise.  The
    escaped term holds unreserved characters and escapes only, so it
    cannot end its parameter. *)
Theorem submitted_term_is_escaped (v : View) (enc : jsstring) :
  let term := trim (searchQuery (state v)) in
  (2 <= List.length term)%nat ->
  codeUnits term = true ->
  Uri.encodeURIComponent term = Ok enc ->
  let url :=
    match submissionHits v term with
    | [] => lit "/search?term=" ++ enc ++ lit "&lang=en"
    | hits =>
        lit "/search?ids="
        ++ join (lit ",") (unique [] (map (fun r => entry_id (item r)) hits))
        ++ lit "&lang=" ++ selectedLang (language v)
        ++ lit "&originalTerm=" ++ enc
    end in
  handled v (handleSearch v None) =
    (mkState (searchQuery (state v)) false (-1) (isLangDropdownOpen (state v)),
     [Navigate url], Ok tt) /\
  forallb urlSafe enc = true.
Proof.
  intros term Hlen Hunits Henc url. split; [|exact (encodeURIComponent_safe _ Hunits Henc)].
  subst url. unfold submissionHits. unfold_handlers. fold term.
  assert (Hne : (match term with [] => true | _ => false end
                 || (List.length term <? 2)%nat) = false).
  { apply orb_false_iff. split.
    - destruct term; [cbn in Hlen; lia|reflexivity].
    - apply Nat.ltb_ge. exact Hlen. }
  rewrite Hne. cbn.
  destruct (JsString.eqb (selectedLang (language v)) (lit "en")).
  - rewrite Henc. reflexivity.
  - destruct (fuseDictionary (language v)) as [fuse|]; [|rewrite Henc; reflexivity].
    destruct (search fuse term 20) as [|r l]; cbn; rewrite Henc; reflexivity.
Qed.

Lemma submitted_term_is_escaped_witness :
  handled italianView (handleSearch italianView None) =
    (mkState (lit "mare sotterraneo ") false (-1) false,
     [Navigate (lit "/search?ids=abc&lang=it&originalTerm=mare%20sotterraneo")], Ok tt) /\
  forallb urlSafe (lit "mare%20sotterraneo") = true.
Proof.
  apply (@submitted_term_is_escaped italianView (lit "mare%20sotterraneo"));
    first [ vm_compute; lia | vm_compute; reflexivity ].
Defined.

(** ** Keyboard navigation *)

Lemma hbind_issue {A} (c : Command) (k : Handler A) (p : State * list Command) :
  hbind (issue c) (fun _ => k) p = k (fst p, snd p ++ [c]).
Proof. reflexivity. Qed.

Lemma handleResultClick_activeIndex (result : value) (p : State * list Command) :
  activeIndex (fst (fst (handleResultClick result p))) = activeIndex (fst p).
Proof.
  destruct (nullish result) eqn:Hnn.
  - destruct result; try discriminate; reflexivity.
  - unfold_handlers. rewrite !(get_defined result _ Hnn). cbn.
    repeat match goal with
           | |- context [if ?b then _ else _] => destruct b; cbn
           | |- context [match Js.toString ?x with _ => _ end] =>
               destruct (Js.toString x); cbn
           end; reflexivity.
Qed.

Lemma handleSearch_activeIndex (v : View) (query : option jsstring) (p : State * list Command) :
  activeIndex (fst (fst (handleSearch v query p))) = activeIndex (fst p) \/
  activeIndex (fst (fst (handleSearch v query p))) = (-1)%Z.
Proof.
  unfold_handlers.
  match goal with |- context [if ?b then _ else _] => destruct b end; [left; reflexivity|].
  right. cbn.
  repeat match goal with
         | |- context [if ?b then _ else _] => destruct b; cbn
         | |- context [match fuseDictionary ?l with _ => _ end] => destruct (fuseDictionary l); cbn
         | |- context [Uri.encodeURIComponent ?t] => destruct (Uri.encodeURIComponent t); cbn
         end; reflexivity.
Qed.

(** X21: the dropdown shows at most 15 suggestions, and no key moves the
    highlight out of them: from an index between -1 (none) and the last
    suggestion shown, every key leaves it in that range; ArrowDown stops
    at the last suggestion and ArrowUp at -1. *)
Theorem highlighted_index_stays_within_results (v : View) (key : jsstring) :
  let n := Z.of_nat (List.length (displayResults v)) in
  (-1 <= activeIndex (state v) <= Z.max (n - 1) (-1))%Z ->
  (n <= 15)%Z /\
  (-1 <= activeIndex (fst (fst (handled v (handleKeyDown v key)))) <= Z.max (n - 1) (-1))%Z.
Proof.
  intros n Hidx. split.
  - subst n. unfold displayResults. rewrite length_firstn. lia.
  - unfold handled, handleKeyDown.
    destruct (JsString.eqb key (lit "Enter")).
    { rewrite hbind_issue.
      match goal with |- context [if ?b then _ else _] => destruct b end.
      - rewrite handleResultClick_activeIndex. exact Hidx.
      - match goal with |- context [handleSearch v None ?p] =>
          destruct (handleSearch_activeIndex v None p) as [-> | ->] end;
          [exact Hidx|lia]. }
    destruct (negb (isOpen (state v)) || Nat.eqb (List.length (displayResults v)) 0) eqn:Hclosed.
    { destruct (JsString.eqb key (lit "Escape")); unfold_handlers;
        cbn [fst snd activeIndex]; lia. }
    apply orb_false_iff in Hclosed as [_ Hn]. apply Nat.eqb_neq in Hn.
    destruct (JsString.eqb key (lit "ArrowDown"));
      [unfold_handlers; cbn [fst snd activeIndex]; fold n; lia|].
    destruct (JsString.eqb key (lit "ArrowUp"));
      [unfold_handlers; cbn [fst snd activeIndex]; lia|].
    destruct (JsString.eqb key (lit "Escape")); unfold_handlers;
      cbn [fst snd activeIndex]; lia.
Qed.

Lemma highlighted_index_stays_within_results_witness :
  (Z.of_nat (List.length (displayResults listView)) <= 15)%Z /\
  (-1 <= activeIndex (fst (fst (handled listView (handleKeyDown listView (lit "ArrowDown")))))
      <= Z.max (Z.of_nat (List.length (displayResults listView)) - 1) (-1))%Z.
Proof.
  apply (@highlighted_index_stays_within_results listView (lit "ArrowDown")).
  vm_compute. split; discriminate.
Defined.

(** ** Following a suggestion *)

Lemma translated_keeps (m : list (jsstring * value)) (p : value) (k : jsstring) :
  isObject p = true ->
  JsString.eqb (lit "type") k = false ->
  JsString.eqb (lit "originalName") k = false ->
  JsString.eqb (lit "preferredName") k = false ->
  JsString.eqb (lit "name") k = false ->
  prop (translated m p) k = prop p k.
Proof.
  destruct p as [| | | | | |ps|]; try discriminate. intros _ H1 H2 H3 H4.
  unfold translated. cbn [prop Js.spread].
  now rewrite !lookup_set_other.
Qed.

(** X22: a card of the batch answer that has both ids, each of which
    converts to a string (an id that is an object with a [toString] entry
    of its own does not), becomes a suggestion of the translated
    resolution that leads to the page of that printing: clicking it
    navigates to [/card/<oracle_id>?printing_id=<printing_id>] with the
    ids of the card as a template literal prints them, closes the
    dropdown and empties the query. *)
Theorem translated_card_opens_its_printing
    (m : list (jsstring * value)) (card : value) (p : State * list Command)
    (oracle_id printing_id : jsstring) :
  hasBothIds card = true ->
  Js.toString (prop card (lit "oracle_id")) = Ok oracle_id ->
  Js.toString (prop card (lit "printing_id")) = Ok printing_id ->
  translateCard m (printingOf card) = Ok (translated m (printingOf card)) /\
  handleResultClick (translated m (printingOf card)) p =
    ((mkState [] false (activeIndex (fst p)) (isLangDropdownOpen (fst p)),
      snd p ++ [Navigate (lit "/card/" ++ oracle_id
                          ++ lit "?printing_id=" ++ printing_id)]),
     Ok tt).
Proof.
  intros Hboth Hoid Hpid. unfold hasBothIds in Hboth.
  apply andb_true_iff in Hboth as [Hto Htp].
  split.
  { apply translateCard_defined; [reflexivity|].
    unfold keyed.
    change (prop (printingOf card) (lit "oracle_id")) with (prop card (lit "oracle_id")).
    now rewrite Hoid. }
  set (q := translated m (printingOf card)).
  assert (Hq : nullish q = false) by reflexivity.
  assert (Htype : prop q (lit "type") = VStr (lit "card")).
  { unfold q, translated. cbn [prop]. now rewrite lookup_set_same. }
  assert (Ho : prop q (lit "oracle_id") = prop card (lit "oracle_id")).
  { unfold q. now rewrite translated_keeps. }
  assert (Hp : prop q (lit "printing_id") = prop card (lit "printing_id")).
  { unfold q. now rewrite translated_keeps. }
  unfold_handlers. rewrite !(get_defined q _ Hq), Htype, Ho, Hp.
  cbn. rewrite Hto. cbn. rewrite Htp. cbn. rewrite Hoid. cbn. rewrite Hpid. reflexivity.
Qed.

Lemma translated_card_opens_its_printing_witness :
  translateCard (buildIdToPreferredMap (candidates italian (lit "sottomare")))
                (printingOf undergroundSea) =
    Ok (translated (buildIdToPreferredMap (candidates italian (lit "sottomare")))
                   (printingOf undergroundSea)) /\
  handleResultClick
    (translated (buildIdToPreferredMap (candidates italian (lit "sottomare")))
                (printingOf undergroundSea))
    (state italianView, []) =
    ((mkState [] false (-1) false,
      [Navigate (lit "/card/abc?printing_id=p1")]),
     Ok tt).
Proof.
  apply (@translated_card_opens_its_printing
           (buildIdToPreferredMap (candidates italian (lit "sottomare")))
           undergroundSea (state italianView, []) (lit "abc") (lit "p1"));
    reflexivity.
Defined.

Lemma Forall_shown {A} (P : A -> Prop) (n : nat) (l : list A) :
  Forall P l -> Forall P (firstn n l).
Proof.
  intros H. revert n. induction H as [|x l Hx Hl IH]; intros [|n]; cbn; constructor; auto.
Qed.

Lemma handleResultClick_outcome (result : value) (p : State * list Command) :
  nullish result = false ->
  snd (handleResultClick result p) = Ok tt \/
  handleResultClick result p = (p, Raise Js.cannot_convert).
Proof.
  intros Hnn. unfold_handlers. rewrite !(get_defined result _ Hnn). cbn.
  repeat match goal with
         | |- context [if ?b then _ else _] => destruct b; cbn
         | |- context [match Js.toString ?x with _ => _ end] =>
             let E := fresh "E" in
             destruct (Js.toString x) eqn:E; cbn;
             [|apply toString_raises in E; subst]
         end; first [left; reflexivity | right; reflexivity].
Qed.

(** X23: whatever the server answered during the session, clicking a
    suggestion the dropdown shows reads its properties safely, every
    result the hook holds being an object: the click ends normally, or it
    throws the [TypeError] of an id that does not convert to a string
    (an object with a [toString] entry of its own), and then before it
    navigated or changed anything. *)
Theorem suggestion_click_throws_on_id_conversion_only
    (es : list Event) (s : State) (l : Ctx) :
  let v := mkView s l (hook (steps initialWorld es)) in
  Forall (fun result => forall p,
            snd (handleResultClick result p) = Ok tt \/
            handleResultClick result p = (p, Raise Js.cannot_convert))
         (displayResults v).
Proof.
  cbv zeta. unfold displayResults. cbn [autocompleteState].
  apply Forall_shown.
  eapply Forall_impl; [|exact (session_tagged es)].
  intros r [Hobj _] p. apply handleResultClick_outcome. now apply isObject_defined.
Qed.


(** ** The dropdown *)

(** X24: the row of a card of a translated resolution, the card being an
    object whose canonical id converts to the key [k], is labelled with
    the card's display name: what [idToPreferredMap] answers for [k] (its
    own entry, or else the member of [Object.prototype] of that name)
    when that is truthy, and the canonical name otherwise. *)
Theorem translated_card_is_labelled_with_its_name
    (m : list (jsstring * value)) (p : value) (k : jsstring) :
  isObject p = true ->
  Js.toString (prop p (lit "oracle_id")) = Ok k ->
  translateCard m p = Ok (translated m p) /\
  rowLabel (translated m p) = Ok (prop (translated m p) (lit "name")) /\
  prop (translated m p) (lit "name") = Js.or (Js.member k m) (prop p (lit "name")).
Proof.
  intros Hobj Hkey.
  assert (Hkeyed : keyed p = true) by (unfold keyed; now rewrite Hkey).
  split; [now apply translateCard_defined|].
  assert (Hentry : entryFor m p = Js.member k m).
  { unfold entryFor, preferredOf. now rewrite Hkey. }
  destruct p as [| | | | | |ps|]; try discriminate.
  set (q := translated m (VObj ps)).
  assert (Hq : nullish q = false) by reflexivity.
  assert (Htype : prop q (lit "type") = VStr (lit "card")).
  { unfold q, translated. cbn [prop]. now rewrite lookup_set_same. }
  assert (Hpref : prop q (lit "preferredName") = Js.or (Js.member k m) VUndefined).
  { unfold q, translated. rewrite Hentry. cbn [prop].
    rewrite !(lookup_set_other _ (lit "type")) by reflexivity.
    rewrite !(lookup_set_other _ (lit "originalName")) by reflexivity.
    now rewrite lookup_set_same. }
  assert (Hname : prop q (lit "name") =
                  Js.or (Js.member k m) (prop (VObj ps) (lit "name"))).
  { unfold q, translated. rewrite Hentry. cbn [prop].
    rewrite !(lookup_set_other _ (lit "type")) by reflexivity.
    rewrite !(lookup_set_other _ (lit "originalName")) by reflexivity.
    rewrite !(lookup_set_other _ (lit "preferredName")) by reflexivity.
    now rewrite lookup_set_same. }
  split; [|exact Hname].
  unfold rowLabel. rewrite !(get_defined q _ Hq), Htype, Hpref, Hname. cbn.
  unfold Js.or. destruct (Js.truthy (Js.member k m)) eqn:Ht; cbn; [now rewrite Ht|].
  reflexivity.
Qed.

Lemma translated_card_is_labelled_with_its_name_witness :
  translateCard (buildIdToPreferredMap (candidates italian (lit "sottomare"))) undergroundSea
    = Ok (translated (buildIdToPreferredMap (candidates italian (lit "sottomare")))
                     undergroundSea) /\
  rowLabel (translated (buildIdToPreferredMap (candidates italian (lit "sottomare")))
                       undergroundSea)
    = Ok (prop (translated (buildIdToPreferredMap (candidates italian (lit "sottomare")))
                           undergroundSea) (lit "name")) /\
  prop (translated (buildIdToPreferredMap (candidates italian (lit "sottomare")))
                   undergroundSea) (lit "name") =
    Js.or (Js.member (lit "abc")
                     (buildIdToPreferredMap (candidates italian (lit "sottomare"))))
          (prop undergroundSea (lit "name")).
Proof.
  apply (@translated_card_is_labelled_with_its_name
           (buildIdToPreferredMap (candidates italian (lit "sottomare"))) undergroundSea
           (lit "abc")); reflexivity.
Defined.

(** X25: when the dropdown is rendered it holds the error, the spinner or
    the suggestions; the message that nothing was found is never what it
    holds. *)
Theorem dropdown_never_reports_no_results (v : View) (query : jsstring) :
  dropdown v <> Some (NoResults query).
Proof.
  unfold dropdown, showDropdown.
  destruct (isOpen (state v)); cbn [andb]; [|discriminate].
  destruct (queryHasTwo v); cbn [andb]; [|discriminate].
  destruct (Js.truthy (error (autocompleteState v)));
    [rewrite !orb_true_r; discriminate|].
  destruct (loading (autocompleteState v)); cbn [orb]; [discriminate|].
  destruct (hasResults v); cbn [orb]; discriminate.
Qed.
